(* ===================================================================== *)
(* plarx/scheduler.py: a shallow embedding of the chunk scheduler         *)
(*                                                                       *)
(* Embedded: Task, TaskGenerator (__init__, task, final_task,            *)
(* finish_on_exception and the hooks), StoredData, and of Scheduler      *)
(* __init__, _receive_from_done_tasks, _get_new_task, _cleanup_cache,    *)
(* _emit_status and exit_with_exception.  main_loop is not a function of *)
(* the embedding: it needs _submit_task and all_exhausted from a         *)
(* subclass; its calls are the steps of a transition relation.           *)
(*                                                                       *)
(* Python objects with identity (TaskGenerator instances, the list of    *)
(* generators handed to the Scheduler) live in an object store and are   *)
(* addressed by reference.  Methods are computations in a state monad    *)
(* whose state survives a raised exception, as in Python.  Prints, calls *)
(* of finish and sleeps are recorded in a log.                           *)
(* ===================================================================== *)

From Stdlib Require Import ZArith QArith Sorting.Sorted Permutation.
From stdpp Require Import gmap strings list fin_maps.

Local Open Scope string_scope.
Local Open Scope Z_scope.
Set Warnings "-register-all".

(* --------------------------------------------------------------------- *)
(* Python values, exceptions, results                                    *)
(* --------------------------------------------------------------------- *)

(* The exceptions the scheduler can raise or pass on. [Exception] stands
   for whatever a task body or a generator hook raised. *)
Inductive exn : Type :=
  | RuntimeError (msg : string)
  | Exception (msg : string)
  | TypeError
  | KeyError
  | IndexError
  | AttributeError
  | NotImplementedError
  | AssertionError (msg : string)
  | ValueError
  | RecursionError
  | CancelledError.

Inductive result (A : Type) : Type :=
  | Ok (a : A)
  | Raise (e : exn).
Arguments Ok {A} a.
Arguments Raise {A} e.

(* The values that end up in the chunk cache and in task inputs:
   numpy arrays (their contents), dicts keyed by datatype name, and, through
   [stored_data[dtype[chunk_i]]], a reference to a StoredData object (named
   by its key in [stored_data]). *)
Inductive pyval : Type :=
  | PArray (a : list Z)
  | PDict (d : list (string * pyval))
  | PStoredData (key : string).

(* A Python dict with string keys, in insertion order. *)
Definition pydict (V : Type) : Type := list (string * V).

Fixpoint dict_get {V} (k : string) (d : pydict V) : option V :=
  match d with
  | [] => None
  | (k', v) :: d' => if decide (k = k') then Some v else dict_get k d'
  end.

(* d[k] = v : overwrite in place, or append a new key at the end. *)
Fixpoint dict_set {V} (k : string) (v : V) (d : pydict V) : pydict V :=
  match d with
  | [] => [(k, v)]
  | (k', v') :: d' =>
      if decide (k = k') then (k, v) :: d' else (k', v') :: dict_set k v d'
  end.

Definition dict_keys {V} (d : pydict V) : list string := d.*1.

(* s[i] for a str s and an int i: negative indices count from the end. *)
Definition str_index (s : string) (i : Z) : option string :=
  let n := Z.of_nat (String.length s) in
  let j := if i <? 0 then i + n else i in
  if (j <? 0) || (n <=? j) then None
  else match String.get (Z.to_nat j) s with
       | Some c => Some (String c EmptyString)
       | None => None
       end.

(* --------------------------------------------------------------------- *)
(* The classes                                                           *)
(* --------------------------------------------------------------------- *)

(* A reference to a TaskGenerator object, and to a Python list object. *)
Definition gen_ref : Type := nat.
Definition list_ref : Type := nat.

(* partial of self.task_function with chunk_i and the unpacked inputs *)
Record partial : Type := Partial {
  partial_chunk_i : Z;
  partial_kwargs : pydict pyval
}.

(* concurrent.futures.Future, as the scheduler observes it. *)
Inductive Future : Type :=
  | FPending
  | FRunning
  | FCancelled
  | FFinished (r : result (pydict pyval)).

Record Task : Type := mkTask {
  task_content : partial;
  task_generator : gen_ref;
  task_chunk_i : Z;
  task_dtypes : list string;
  task_submit_to : string;
  task_is_final : bool;
  task_future : option Future          (* None until a pool sets it *)
}.

(* TaskGenerator.  [dtypes] and [wants_input] are only annotated in the
   class: whoever subclasses it fills them in.  [is_finished] and
   [finished] are attributes the class never defines: [is_finished] appears
   when the scheduler assigns it, [finished] only if a subclass has it.
   The last four fields are the overridable hooks as the scheduler sees
   them: the answers of [external_input_ready] and
   [external_inputs_exhausted], what [finish] raises (None: it returns), and
   whether the class defines [deliver_inputs] at all (this file does not). *)
Record TaskGenerator : Type := mkTaskGenerator {
  dtypes : list string;
  wants_input : list (string * Z);
  is_source : bool;
  submit_to : string;
  parallel : bool;
  input_delivery : string;
  priority : Z;
  depth : Z;
  chunk_i : Z;
  need_result_chunk : Z;
  has_final_task : bool;
  has_finished : bool;
  is_finished : option bool;
  finished : option bool;
  external_input_ready : bool;
  external_inputs_exhausted : bool;
  finish : option exn;
  defines_deliver_inputs : bool
}.

Record StoredData : Type := mkStoredData {
  sd_dtype : string;
  stored : gmap Z pyval;
  seen_by_consumers : gmap nat Z;
  last_contiguous : Z;
  source_exhausted : bool
}.

Inductive pool_state : Type := PoolRunning | PoolShutdown.

(* What the scheduler does to the outside, in order. *)
Inductive event : Type :=
  | EvPrint (what : string)
  | EvFinish (tg : gen_ref)
  | EvSleep (seconds : Z).

(* The object store, the fields of the one Scheduler object, and what the
   scheduler reads from its environment: the resident set size in bytes and
   the values random() returns. *)
Record World : Type := mkWorld {
  gen_objs : gmap nat TaskGenerator;
  list_objs : gmap nat (list gen_ref);
  max_workers : Z;
  task_generators : list_ref;
  pending_tasks : list Task;
  stored_data : pydict StoredData;
  threshold_mb : Z;
  threadpool : pool_state;
  processpool : pool_state;
  rss : Z;
  random : nat -> Q;
  random_calls : nat;
  log : list event
}.

(* Field updates. *)
Definition set_chunk_i (v : Z) (g : TaskGenerator) : TaskGenerator :=
  mkTaskGenerator (dtypes g) (wants_input g) (is_source g) (submit_to g)
    (parallel g) (input_delivery g) (priority g) (depth g) v
    (need_result_chunk g) (has_final_task g) (has_finished g) (is_finished g)
    (finished g) (external_input_ready g) (external_inputs_exhausted g)
    (finish g) (defines_deliver_inputs g).

Definition set_need_result_chunk (v : Z) (g : TaskGenerator) : TaskGenerator :=
  mkTaskGenerator (dtypes g) (wants_input g) (is_source g) (submit_to g)
    (parallel g) (input_delivery g) (priority g) (depth g) (chunk_i g)
    v (has_final_task g) (has_finished g) (is_finished g)
    (finished g) (external_input_ready g) (external_inputs_exhausted g)
    (finish g) (defines_deliver_inputs g).

Definition set_wants_input (v : list (string * Z)) (g : TaskGenerator)
  : TaskGenerator :=
  mkTaskGenerator (dtypes g) v (is_source g) (submit_to g)
    (parallel g) (input_delivery g) (priority g) (depth g) (chunk_i g)
    (need_result_chunk g) (has_final_task g) (has_finished g) (is_finished g)
    (finished g) (external_input_ready g) (external_inputs_exhausted g)
    (finish g) (defines_deliver_inputs g).

Definition set_has_finished (v : bool) (g : TaskGenerator) : TaskGenerator :=
  mkTaskGenerator (dtypes g) (wants_input g) (is_source g) (submit_to g)
    (parallel g) (input_delivery g) (priority g) (depth g) (chunk_i g)
    (need_result_chunk g) (has_final_task g) v (is_finished g)
    (finished g) (external_input_ready g) (external_inputs_exhausted g)
    (finish g) (defines_deliver_inputs g).

Definition set_is_finished (v : option bool) (g : TaskGenerator)
  : TaskGenerator :=
  mkTaskGenerator (dtypes g) (wants_input g) (is_source g) (submit_to g)
    (parallel g) (input_delivery g) (priority g) (depth g) (chunk_i g)
    (need_result_chunk g) (has_final_task g) (has_finished g) v
    (finished g) (external_input_ready g) (external_inputs_exhausted g)
    (finish g) (defines_deliver_inputs g).

Definition set_stored (v : gmap Z pyval) (d : StoredData) : StoredData :=
  mkStoredData (sd_dtype d) v (seen_by_consumers d) (last_contiguous d)
    (source_exhausted d).

Definition set_seen_by_consumers (v : gmap nat Z) (d : StoredData)
  : StoredData :=
  mkStoredData (sd_dtype d) (stored d) v (last_contiguous d)
    (source_exhausted d).

Definition set_last_contiguous (v : Z) (d : StoredData) : StoredData :=
  mkStoredData (sd_dtype d) (stored d) (seen_by_consumers d) v
    (source_exhausted d).

Definition set_task_future (v : option Future) (t : Task) : Task :=
  mkTask (task_content t) (task_generator t) (task_chunk_i t) (task_dtypes t)
    (task_submit_to t) (task_is_final t) v.

Definition set_gen_objs (v : gmap nat TaskGenerator) (w : World) : World :=
  mkWorld v (list_objs w) (max_workers w) (task_generators w)
    (pending_tasks w) (stored_data w) (threshold_mb w) (threadpool w)
    (processpool w) (rss w) (random w) (random_calls w) (log w).

Definition set_list_objs (v : gmap nat (list gen_ref)) (w : World) : World :=
  mkWorld (gen_objs w) v (max_workers w) (task_generators w)
    (pending_tasks w) (stored_data w) (threshold_mb w) (threadpool w)
    (processpool w) (rss w) (random w) (random_calls w) (log w).

Definition set_max_workers (v : Z) (w : World) : World :=
  mkWorld (gen_objs w) (list_objs w) v (task_generators w)
    (pending_tasks w) (stored_data w) (threshold_mb w) (threadpool w)
    (processpool w) (rss w) (random w) (random_calls w) (log w).

Definition set_task_generators (v : list_ref) (w : World) : World :=
  mkWorld (gen_objs w) (list_objs w) (max_workers w) v
    (pending_tasks w) (stored_data w) (threshold_mb w) (threadpool w)
    (processpool w) (rss w) (random w) (random_calls w) (log w).

Definition set_pending_tasks (v : list Task) (w : World) : World :=
  mkWorld (gen_objs w) (list_objs w) (max_workers w) (task_generators w)
    v (stored_data w) (threshold_mb w) (threadpool w)
    (processpool w) (rss w) (random w) (random_calls w) (log w).

Definition set_stored_data (v : pydict StoredData) (w : World) : World :=
  mkWorld (gen_objs w) (list_objs w) (max_workers w) (task_generators w)
    (pending_tasks w) v (threshold_mb w) (threadpool w)
    (processpool w) (rss w) (random w) (random_calls w) (log w).

Definition set_threadpool (v : pool_state) (w : World) : World :=
  mkWorld (gen_objs w) (list_objs w) (max_workers w) (task_generators w)
    (pending_tasks w) (stored_data w) (threshold_mb w) v
    (processpool w) (rss w) (random w) (random_calls w) (log w).

Definition set_processpool (v : pool_state) (w : World) : World :=
  mkWorld (gen_objs w) (list_objs w) (max_workers w) (task_generators w)
    (pending_tasks w) (stored_data w) (threshold_mb w) (threadpool w)
    v (rss w) (random w) (random_calls w) (log w).

Definition set_random_calls (v : nat) (w : World) : World :=
  mkWorld (gen_objs w) (list_objs w) (max_workers w) (task_generators w)
    (pending_tasks w) (stored_data w) (threshold_mb w) (threadpool w)
    (processpool w) (rss w) (random w) v (log w).

Definition set_log (v : list event) (w : World) : World :=
  mkWorld (gen_objs w) (list_objs w) (max_workers w) (task_generators w)
    (pending_tasks w) (stored_data w) (threshold_mb w) (threadpool w)
    (processpool w) (rss w) (random w) (random_calls w) v.

(* --------------------------------------------------------------------- *)
(* The monad: state that outlives an exception                           *)
(* --------------------------------------------------------------------- *)

Definition M (A : Type) : Type := World -> World * result A.

Definition ret {A} (a : A) : M A := fun w => (w, Ok a).
Definition raise {A} (e : exn) : M A := fun w => (w, Raise e).
Definition bind {A B} (m : M A) (k : A -> M B) : M B :=
  fun w => match m w with
           | (w', Ok a) => k a w'
           | (w', Raise e) => (w', Raise e)
           end.

Notation "x <- m ;; k" := (bind m (fun x => k))
  (at level 100, m at next level, right associativity).
Notation "m ;; k" := (bind m (fun _ => k))
  (at level 100, right associativity).

Definition get_world : M World := fun w => (w, Ok w).
Definition modify (f : World -> World) : M unit := fun w => (f w, Ok tt).
Definition emit (e : event) : M unit :=
  modify (fun w => set_log (log w ++ [e])%list w).

(* assert c, msg *)
Definition assert (c : bool) (msg : string) : M unit :=
  if c then ret tt else raise (AssertionError msg).

(* Reading and writing an attribute of a generator object.  A reference
   that points nowhere cannot arise in Python; here it raises. *)
Definition get_gen (r : gen_ref) : M TaskGenerator :=
  fun w => match gen_objs w !! r with
           | Some g => (w, Ok g)
           | None => (w, Raise AttributeError)
           end.

Definition update_gen (r : gen_ref) (f : TaskGenerator -> TaskGenerator)
  : M unit :=
  g <- get_gen r ;;
  modify (fun w => set_gen_objs (<[r := f g]> (gen_objs w)) w).

Definition get_list (r : list_ref) : M (list gen_ref) :=
  fun w => match list_objs w !! r with
           | Some l => (w, Ok l)
           | None => (w, Raise AttributeError)
           end.

(* self.stored_data[dtype] *)
Definition get_stored_data (dtype : string) : M StoredData :=
  fun w => match dict_get dtype (stored_data w) with
           | Some d => (w, Ok d)
           | None => (w, Raise KeyError)
           end.

Definition update_stored_data (dtype : string)
  (f : StoredData -> StoredData) : M unit :=
  d <- get_stored_data dtype ;;
  modify (fun w => set_stored_data (dict_set dtype (f d) (stored_data w)) w).

(* not l, for a list l *)
Definition is_nil {A} (l : list A) : bool :=
  match l with [] => true | _ :: _ => false end.

(* A for loop whose body may leave the enclosing function with a value:
   the body yields [inl acc] to go on with the loop variables [acc] and
   [inr v] for [return v]. *)
Fixpoint for_each {A S R} (l : list A) (body : S -> A -> M (S + R)) (acc : S)
  : M (S + R) :=
  match l with
  | [] => ret (inl acc)
  | x :: l' =>
      r <- body acc x ;;
      match r with
      | inl acc' => for_each l' body acc'
      | inr v => ret (inr v)
      end
  end.

(* A for loop without return. *)
Fixpoint for_ {A} (l : list A) (body : A -> M unit) : M unit :=
  match l with
  | [] => ret tt
  | x :: l' => body x ;; for_ l' body
  end.

(* try: m  except Exception as e: handler e *)
Definition try_except {A} (m : M A) (handler : exn -> M A) : M A :=
  fun w => match m w with
           | (w', Ok a) => (w', Ok a)
           | (w', Raise e) => handler e w'
           end.

(* --------------------------------------------------------------------- *)
(* Task and TaskGenerator                                                *)
(* --------------------------------------------------------------------- *)

(* Task.__init__ *)
Definition Task_init (content : partial) (generator : gen_ref) (chunk : Z)
  (is_final : bool) (future : option Future) : M Task :=
  g <- get_gen generator ;;
  ret (mkTask content generator chunk (dtypes g) (submit_to g) is_final
         future).

(* The class attributes of TaskGenerator as the class body sets them, for a
   subclass that supplies [dtypes] and [wants_input] and nothing else. *)
Definition TaskGenerator_class (dts : list string) (wants : list (string * Z))
  : TaskGenerator :=
  {| dtypes := dts; wants_input := wants; is_source := false;
     submit_to := "thread"; parallel := false; input_delivery := "direct";
     priority := 0; depth := 0; chunk_i := 0; need_result_chunk := -1;
     has_final_task := false; has_finished := false; is_finished := None;
     finished := None; external_input_ready := true;
     external_inputs_exhausted := false; finish := None;
     defines_deliver_inputs := false |}.

(* TaskGenerator.__init__, on an object with the attributes of its class. *)
Definition TaskGenerator_init (self : TaskGenerator) : result unit :=
  if negb (String.eqb (input_delivery self) "direct") && negb (parallel self)
  then Raise (RuntimeError
    "Cannot parallelize a TaskGenerator with indirect input delivery.")
  else Ok tt.

(* [k in self.wants_input] for a key k of the inputs: k is a str and the
   elements of wants_input are [dtype, chunk_i] lists, and a str never equals
   a list. *)
Definition str_eq_want (k : string) (want : string * Z) : bool := false.

(* [k in inputs] for an element k of wants_input: k is a list, and looking
   up a list in a dict raises TypeError (unhashable), also in an empty dict. *)
Definition want_in_inputs (want : string * Z) (inputs : pydict pyval)
  : M bool := raise TypeError.

(* self.deliver_inputs with the inputs unpacked as keywords: the attribute
   is looked up first, then the mapping is unpacked, then the method of the
   subclass runs. *)
Definition deliver_inputs (self : gen_ref) (inputs : option (pydict pyval))
  : M unit :=
  g <- get_gen self ;;
  if negb (defines_deliver_inputs g) then raise AttributeError
  else match inputs with
       | None => raise TypeError
       | Some _ => ret tt
       end.

(* TaskGenerator.receive_inputs: pass *)
Definition receive_inputs (self : gen_ref) (chunk : Z)
  (inputs : pydict pyval) : M unit := ret tt.

(* A call with chunk_i=... and the inputs unpacked as keywords: a key
   chunk_i among the inputs is a duplicate keyword. *)
Definition kwargs_with_chunk_i (inputs : pydict pyval) : M unit :=
  if bool_decide ("chunk_i" ∈ dict_keys inputs) then raise TypeError
  else ret tt.

Fixpoint all_M {A} (l : list A) (f : A -> M bool) : M bool :=
  match l with
  | [] => ret true
  | x :: l' => b <- f x ;; r <- all_M l' f ;; ret (b && r)
  end.

(* TaskGenerator.task *)
Definition TaskGenerator_task (self : gen_ref)
  (inputs : option (pydict pyval)) : M Task :=
  update_gen self (fun g => set_chunk_i (chunk_i g + 1) g) ;;
  g <- get_gen self ;;
  assert (need_result_chunk g <? chunk_i g) "" ;;
  assert (negb (has_finished g)) "" ;;
  (if negb (parallel g) then
     update_gen self (set_need_result_chunk (chunk_i g)) ;;
     deliver_inputs self inputs
   else ret tt) ;;
  task_f <-
    (if is_source g then
       assert (bool_decide (inputs = None)) "Passed inputs to source" ;;
       ret (Partial (chunk_i g) [])
     else
       match inputs with
       | None => raise TypeError          (* for k in None *)
       | Some d =>
           assert (forallb (fun k => existsb (str_eq_want k) (wants_input g))
                     (dict_keys d)) "unwanted input" ;;
           present <- all_M (wants_input g) (fun k => want_in_inputs k d) ;;
           assert present "missing input" ;;
           if String.eqb (input_delivery g) "direct" then
             kwargs_with_chunk_i d ;;
             update_gen self
               (set_wants_input
                  ((fun '(dt, i) => (dt, i + 1)) <$> wants_input g)) ;;
             ret (Partial (chunk_i g) d)
           else
             kwargs_with_chunk_i d ;;
             receive_inputs self (chunk_i g) d ;;
             ret (Partial (chunk_i g) [])
       end) ;;
  Task_init task_f self (chunk_i g) false None.

(* TaskGenerator.final_task *)
Definition final_task (self : gen_ref) : M Task := raise NotImplementedError.

(* TaskGenerator.finish_on_exception: self.finish() *)
Definition finish_on_exception (self : gen_ref) (exception : exn) : M unit :=
  g <- get_gen self ;;
  emit (EvFinish self) ;;
  match finish g with
  | Some e => raise e
  | None => ret tt
  end.

(* --------------------------------------------------------------------- *)
(* StoredData                                                            *)
(* --------------------------------------------------------------------- *)

(* StoredData.__init__; last_contiguous and source_exhausted are class
   attributes. *)
Definition StoredData_init (dtype : string) (wanted_by : list gen_ref)
  : StoredData :=
  {| sd_dtype := dtype;
     stored := ∅;
     seen_by_consumers := foldl (fun m tg => <[tg := -1]> m) ∅ wanted_by;
     last_contiguous := -1;
     source_exhausted := false |}.

(* --------------------------------------------------------------------- *)
(* list.sort(key=...): stable, ascending in the key                      *)
(* --------------------------------------------------------------------- *)

(* (priority, depth), compared as tuples. *)
Definition sort_key : Type := (Z * Z)%type.

Definition key_leb (a b : sort_key) : bool :=
  (a.1 <? b.1) || ((a.1 =? b.1) && (a.2 <=? b.2)).

Fixpoint insert_by_key {A} (x : sort_key * A) (l : list (sort_key * A))
  : list (sort_key * A) :=
  match l with
  | [] => [x]
  | y :: l' =>
      if key_leb x.1 y.1 then x :: y :: l' else y :: insert_by_key x l'
  end.

Definition sort_by_key {A} (l : list (sort_key * A)) : list (sort_key * A) :=
  foldr insert_by_key [] l.

Fixpoint map_M {A B} (f : A -> M B) (l : list A) : M (list B) :=
  match l with
  | [] => ret []
  | x :: l' => y <- f x ;; ys <- map_M f l' ;; ret (y :: ys)
  end.

Fixpoint fold_M {A S} (f : S -> A -> M S) (l : list A) (acc : S) : M S :=
  match l with
  | [] => ret acc
  | x :: l' => acc' <- f acc x ;; fold_M f l' acc'
  end.

(* --------------------------------------------------------------------- *)
(* Scheduler                                                             *)
(* --------------------------------------------------------------------- *)

(* who_wants[dt].append(tg) on a defaultdict(list) *)
Definition who_wants_append (tg : gen_ref) (who_wants : pydict (list gen_ref))
  (dt : string) : pydict (list gen_ref) :=
  dict_set dt (default [] (dict_get dt who_wants) ++ [tg])%list who_wants.

Definition sort_key_of (tg : gen_ref) : M (sort_key * gen_ref) :=
  g <- get_gen tg ;; ret ((priority g, depth g), tg).

(* Scheduler.__init__.  [task_gens] is the reference the caller passes:
   self.task_generators is bound to that same list object, which is then
   sorted in place, and the loop over the argument reads it again. *)
(* cf.ProcessPoolExecutor(max_workers=n) and cf.ThreadPoolExecutor(
   max_workers=n): both constructors refuse n <= 0 with ValueError.  (On
   Windows a process pool also refuses more than 61 workers; the model is
   of the other platforms.) *)
Definition Executor_init (n : Z) : M pool_state :=
  if n <=? 0 then raise ValueError else ret PoolRunning.

Definition Scheduler_init (task_gens : list_ref) (workers : Z) : M unit :=
  modify (set_max_workers workers) ;;
  modify (set_task_generators task_gens) ;;
  self <- get_world ;;
  l <- get_list (task_generators self) ;;
  keyed <- map_M sort_key_of l ;;
  modify (fun w => set_list_objs
            (<[task_generators self := (sort_by_key keyed).*2]> (list_objs w))
            w) ;;
  modify (set_pending_tasks []) ;;
  self <- get_world ;;
  pool <- Executor_init (max_workers self) ;;
  modify (set_processpool pool) ;;
  self <- get_world ;;
  pool <- Executor_init (max_workers self) ;;
  modify (set_threadpool pool) ;;
  tgs <- get_list task_gens ;;
  who_wants <- fold_M (fun who tg =>
                         g <- get_gen tg ;;
                         ret (foldl (who_wants_append tg) who (dtypes g)))
                      tgs [] ;;
  modify (set_stored_data
            ((fun '(dt, tgs) => (dt, StoredData_init dt tgs)) <$> who_wants)).

(* min(d.seen_by_consumers.values()), None on an empty dict. *)
Definition min_seen (seen : gmap nat Z) : option Z :=
  match (map_to_list seen).*2 with
  | [] => None
  | x :: xs => Some (foldl Z.min x xs)
  end.

(* Scheduler._cleanup_cache: the loop over self.stored_data.values().  The
   stores before the one that raises keep their new [stored].  The message
   of the error carries the name of the datatype where Python prints the
   object. *)
Fixpoint cleanup_values (ds : pydict StoredData)
  : pydict StoredData * result unit :=
  match ds with
  | [] => ([], Ok tt)
  | (k, d) :: rest =>
      if (size (seen_by_consumers d) =? 0)%nat then
        ((k, d) :: rest,
         Raise (RuntimeError
                  (String.append (sd_dtype d) " is not consumed by anyone??")))
      else
        match min_seen (seen_by_consumers d) with
        | None => ((k, d) :: rest, Raise ValueError)
        | Some seen_by_all =>
            let d' := set_stored
                        (filter (fun kv => seen_by_all < kv.1) (stored d)) d in
            let '(rest', r) := cleanup_values rest in
            ((k, d') :: rest', r)
        end
  end.

Definition _cleanup_cache : M unit :=
  fun w => let '(ds, r) := cleanup_values (stored_data w) in
           (set_stored_data ds w, r).

(* Future.done, Future.exception, Future.result, Future.cancel *)
Definition future_done (f : Future) : bool :=
  match f with
  | FPending | FRunning => false
  | FCancelled | FFinished _ => true
  end.

(* Only called on a future that is done. *)
Definition future_exception (f : Future) : M (option exn) :=
  match f with
  | FFinished (Ok _) => ret None
  | FFinished (Raise e) => ret (Some e)
  | _ => raise CancelledError
  end.

Definition future_result (f : Future) : M (pydict pyval) :=
  match f with
  | FFinished (Ok r) => ret r
  | FFinished (Raise e) => raise e
  | _ => raise CancelledError
  end.

Definition future_cancel (f : Future) : Future :=
  match f with
  | FPending => FCancelled
  | other => other
  end.

(* for t in self.pending_tasks: t.future.cancel() *)
Fixpoint cancel_all (ts : list Task) : list Task * result unit :=
  match ts with
  | [] => ([], Ok tt)
  | t :: rest =>
      match task_future t with
      | None => (t :: rest, Raise AttributeError)
      | Some f =>
          let '(rest', r) := cancel_all rest in
          (set_task_future (Some (future_cancel f)) t :: rest', r)
      end
  end.

(* Scheduler.exit_with_exception.  The raise is the last statement of the
   body of the loop over the generators. *)
Definition exit_with_exception (exception : exn) (extra_message : string)
  : M unit :=
  emit (EvPrint extra_message) ;;
  self <- get_world ;;
  tgs <- get_list (task_generators self) ;;
  for_ tgs (fun tg =>
    g <- get_gen tg ;;
    match finished g with
    | None => raise AttributeError
    | Some fin =>
        (if negb fin then
           try_except (finish_on_exception tg exception)
             (fun e =>
                emit (EvPrint "Exceptional shutdown failed") ;;
                emit (EvPrint "Got eanother xception"))
         else ret tt) ;;
        raise exception
    end) ;;
  (fun w => let '(ts, r) := cancel_all (pending_tasks w) in
            (set_pending_tasks ts w, r)) ;;
  modify (set_threadpool PoolShutdown) ;;
  modify (set_processpool PoolShutdown).

(* Task.__repr__, f"{self.generator.dtypes[0]}:{self.chunk_i}": the index
   raises IndexError for a generator without dtypes.  The text itself is
   not kept. *)
Definition Task_repr (t : Task) : M unit :=
  g <- get_gen (task_generator t) ;;
  match dtypes g with
  | [] => raise IndexError
  | _ :: _ => ret tt
  end.

(* Scheduler._emit_status.  The second print formats self.pending_tasks,
   which takes the repr of every pending task, before it prints.  The
   events are labels of the two prints, without the formatted parts.
   (The caller in _get_new_task formats its list of waiting generators
   with TaskGenerator.__repr__, which guards both of its indexings.) *)
Definition _emit_status (msg : string) : M unit :=
  emit (EvPrint msg) ;;
  self <- get_world ;;
  for_ (pending_tasks self) Task_repr ;;
  emit (EvPrint "Pending tasks").

(* The body of the loop of Scheduler._receive_from_done_tasks for one
   task, as the loop finds it; the result says whether the task is
   appended to still_pending. *)
Definition receive_task (task : Task) : M bool :=
  match task_future task with
  | None => raise AttributeError
  | Some f =>
      if negb (future_done f) then ret true
      else
        (if task_is_final task then
           update_gen (task_generator task) (set_is_finished (Some true))
         else ret tt) ;;
        exc <- future_exception f ;;
        match exc with
        | Some e => exit_with_exception e "Exception while computing"
        | None => ret tt
        end ;;
        if is_nil (task_dtypes task) then ret false
        else
          res <- future_result f ;;
          for_ res (fun '(dtype, _) =>
            d <- get_stored_data dtype ;;
            let d1 := set_stored
                        (<[task_chunk_i task := PDict res]> (stored d)) d in
            let d2 := if last_contiguous d1 =? task_chunk_i task - 1
                      then set_last_contiguous (last_contiguous d1 + 1) d1
                      else d1 in
            update_stored_data dtype (fun _ => d2)) ;;
          ret false
  end.

(* One round of the loop.  The Task objects of self.pending_tasks are
   shared with still_pending and with exit_with_exception, which cancels
   their futures when it returns (a scheduler without generators): the
   loop iterates over the positions of the list and finds each task as it
   is when its turn comes, and [still_pending] holds positions.  The list
   itself is not resized while the loop runs, so every position is
   occupied. *)
Definition receive_one (still_pending : list nat) (i : nat) : M (list nat) :=
  self <- get_world ;;
  match pending_tasks self !! i with
  | None => raise IndexError
  | Some task =>
      stays <- receive_task task ;;
      ret (if stays : bool then (still_pending ++ [i])%list
           else still_pending)
  end.

(* Scheduler._receive_from_done_tasks.  The new list holds the objects
   that were appended, as they are at the end of the loop. *)
Definition _receive_from_done_tasks : M unit :=
  self <- get_world ;;
  still_pending <-
    fold_M receive_one (seq 0 (length (pending_tasks self))) [] ;;
  self <- get_world ;;
  modify (set_pending_tasks
            (omap (fun i => pending_tasks self !! i) still_pending)).

(* The variables of _get_new_task that its loop updates. *)
Record locals : Type := mkLocals {
  external_waits : list gen_ref;
  sources : list gen_ref;
  requests_for : pydict Z
}.

(* requests_for[dtype] += 1 on a defaultdict(int) *)
Definition request (dtype : string) (loc : locals) : locals :=
  mkLocals (external_waits loc) (sources loc)
    (dict_set dtype (default 0 (dict_get dtype (requests_for loc)) + 1)
       (requests_for loc)).

(* [chunk_id not in self.stored_data[dtype]]: StoredData has no
   __contains__, __iter__ or __getitem__, so the test raises TypeError. *)
Definition chunk_not_in (chunk_id : Z) (d : StoredData) : M bool :=
  raise TypeError.

(* The loop over tg.wants_input that counts requests; its continue belongs
   to this inner loop. *)
Definition count_requests (g : TaskGenerator) (loc : locals) : M locals :=
  fold_M (fun loc '(dtype, chunk_id) =>
            d <- get_stored_data dtype ;;
            missing <- chunk_not_in chunk_id d ;;
            if missing then ret (request dtype loc) else ret loc)
         (wants_input g) loc.

(* The loop that fills task_inputs and marks the chunks as seen. *)
Definition collect_inputs (tg : gen_ref) (g : TaskGenerator)
  : M (pydict pyval) :=
  fold_M (fun task_inputs '(dtype, chunk) =>
            update_stored_data dtype
              (fun d => set_seen_by_consumers
                          (<[tg := chunk]> (seen_by_consumers d)) d) ;;
            match str_index dtype chunk with
            | None => raise IndexError
            | Some c =>
                _ <- get_stored_data c ;;
                ret (dict_set dtype (PStoredData c) task_inputs)
            end)
         (wants_input g) [].

(* The body of the loop of _get_new_task over self.task_generators. *)
Definition admission_step (exhausted_inputs : list string) (loc : locals)
  (tg : gen_ref) : M (locals + Task) :=
  g <- get_gen tg ;;
  if negb (external_input_ready g) then
    ret (inl (mkLocals (external_waits loc ++ [tg])%list (sources loc)
                (requests_for loc)))
  else
    blocked <-
      (if negb (parallel g) then
         match dtypes g with
         | [] => raise IndexError
         | dt :: _ =>
             d <- get_stored_data dt ;;
             ret (last_contiguous d <? need_result_chunk g)
         end
       else ret false) ;;
    if blocked : bool then ret (inl loc)
    else if is_source g then
      ret (inl (mkLocals (external_waits loc) (sources loc ++ [tg])%list
                  (requests_for loc)))
    else if (negb (is_source g) || external_inputs_exhausted g)
            && forallb (fun dt => bool_decide (dt ∈ exhausted_inputs))
                 (dtypes g)
    then
      if negb (has_finished g) then
        if has_final_task g then
          t <- final_task tg ;; ret (inr t)
        else
          update_gen tg (set_has_finished true) ;; ret (inl loc)
      else ret (inl loc)
    else
      loc <- count_requests g loc ;;
      task_inputs <- collect_inputs tg g ;;
      _cleanup_cache ;;
      t <- TaskGenerator_task tg (Some task_inputs) ;;
      ret (inr t).

(* random() *)
Definition next_random : M Q :=
  w <- get_world ;;
  modify (set_random_calls (S (random_calls w))) ;;
  ret (random w (random_calls w)).

(* max(l, key=lambda q: q[1]) on a non-empty list: the first maximum. *)
Definition max_by_score (first : gen_ref * Q) (rest : list (gen_ref * Q))
  : gen_ref * Q :=
  foldl (fun best q => if Qle_bool q.2 best.2 then best else q) first rest.

Definition score_source (requests : pydict Z) (s : gen_ref)
  : M (gen_ref * Q) :=
  g <- get_gen s ;;
  r <- next_random ;;
  let requests_s :=
    foldr Z.add 0 ((fun dt => default 0 (dict_get dt requests)) <$> dtypes g) in
  ret (s, Qplus (inject_Z requests_s) r).

(* Scheduler._get_new_task.  [depth_left] is the room left on the Python
   stack: the method calls itself after the sleep, and running out raises
   RecursionError.  The resident set size in megabytes is compared in bytes. *)
Fixpoint _get_new_task (depth_left : nat) : M (option Task) :=
  match depth_left with
  | O => raise RecursionError
  | S depth_left' =>
      self <- get_world ;;
      tgs <- get_list (task_generators self) ;;
      all_dtypes <- map_M (fun tg => g <- get_gen tg ;; ret (dtypes g)) tgs ;;
      let exhausted_inputs := concat all_dtypes in
      r <- for_each tgs (admission_step exhausted_inputs) (mkLocals [] [] []) ;;
      match r with
      | inr t => ret (Some t)
      | inl loc =>
          self <- get_world ;;
          match sources loc with
          | s0 :: ss =>
              if (threshold_mb self * 1000000 <? rss self)
                 && negb (is_nil (pending_tasks self))
              then ret None
              else
                q0 <- score_source (requests_for loc) s0 ;;
                qs <- map_M (score_source (requests_for loc)) ss ;;
                t <- TaskGenerator_task (max_by_score q0 qs).1 None ;;
                ret (Some t)
          | [] =>
              match external_waits loc with
              | _ :: _ =>
                  if negb (is_nil (pending_tasks self)) then ret None
                  else
                    _emit_status "waiting on external condition" ;;
                    emit (EvSleep 5) ;;
                    _get_new_task depth_left'
              | [] => ret None
              end
          end
      end
  end.

(* --------------------------------------------------------------------- *)
(* A small pipeline: source S -> a -> transform T -> b -> sink K         *)
(* --------------------------------------------------------------------- *)

Definition blank_world : World :=
  {| gen_objs := ∅; list_objs := ∅; max_workers := 5;
     task_generators := 0%nat; pending_tasks := []; stored_data := [];
     threshold_mb := 1000; threadpool := PoolShutdown;
     processpool := PoolShutdown; rss := 0; random := fun _ => 0%Q;
     random_calls := 0%nat; log := [] |}.

(* Three subclasses that run tasks in parallel; everything they do not set
   is as in TaskGenerator. *)
Definition gen_S : TaskGenerator :=
  {| dtypes := ["a"]; wants_input := []; is_source := true;
     submit_to := "thread"; parallel := true; input_delivery := "direct";
     priority := 1; depth := 2; chunk_i := 0; need_result_chunk := -1;
     has_final_task := false; has_finished := false; is_finished := None;
     finished := None; external_input_ready := true;
     external_inputs_exhausted := false; finish := None;
     defines_deliver_inputs := false |}.

Definition gen_T : TaskGenerator :=
  {| dtypes := ["b"]; wants_input := [("a", 1)]; is_source := false;
     submit_to := "process"; parallel := true; input_delivery := "direct";
     priority := 2; depth := 1; chunk_i := 0; need_result_chunk := -1;
     has_final_task := false; has_finished := false; is_finished := None;
     finished := None; external_input_ready := true;
     external_inputs_exhausted := false; finish := None;
     defines_deliver_inputs := false |}.

Definition gen_K : TaskGenerator :=
  {| dtypes := []; wants_input := [("b", 1)]; is_source := false;
     submit_to := "user"; parallel := true; input_delivery := "direct";
     priority := 0; depth := 0; chunk_i := 0; need_result_chunk := -1;
     has_final_task := false; has_finished := false; is_finished := None;
     finished := None; external_input_ready := true;
     external_inputs_exhausted := false; finish := None;
     defines_deliver_inputs := false |}.

Definition ref_S : gen_ref := 0%nat.
Definition ref_T : gen_ref := 1%nat.
Definition ref_K : gen_ref := 2%nat.

(* The caller's list [S, T, K], before any Scheduler exists. *)
Definition world_objects : World :=
  set_list_objs {[ 7%nat := [ref_S; ref_T; ref_K] ]}
    (set_gen_objs {[ ref_S := gen_S; ref_T := gen_T; ref_K := gen_K ]}
       blank_world).

(* Scheduler(task_generators, max_workers=5) *)
Definition world_constructed : World := (Scheduler_init 7%nat 5 world_objects).1.

(* S.task(None), then the task handed to a pool and completed with the
   chunk [10] under its datatype. *)
Definition world_submitted : World :=
  match TaskGenerator_task ref_S None world_constructed with
  | (w, Ok t) =>
      set_pending_tasks
        [set_task_future (Some (FFinished (Ok [("a", PArray [10])]))) t] w
  | (w, Raise _) => w
  end.

Definition world_drained : World := (_receive_from_done_tasks world_submitted).1.

(* Two tasks of S in flight, for chunks 0 and 1; chunk 1 completes first and
   is drained, then chunk 0 completes and is drained. *)
Definition task_a (chunk : Z) (future : Future) : Task :=
  mkTask (Partial chunk []) ref_S chunk ["a"] "thread" false (Some future).

Definition world_second_first : World :=
  (_receive_from_done_tasks
     (set_pending_tasks
        [task_a 0 FRunning;
         task_a 1 (FFinished (Ok [("a", PArray [20])]))]
        world_constructed)).1.

Definition world_gap_filled : World :=
  (_receive_from_done_tasks
     (set_pending_tasks
        [task_a 0 (FFinished (Ok [("a", PArray [10])]))]
        world_second_first)).1.

(* The same three generators from subclasses that also define the
   attribute [finished], as False. *)
Definition with_finished (v : bool) (g : TaskGenerator) : TaskGenerator :=
  mkTaskGenerator (dtypes g) (wants_input g) (is_source g) (submit_to g)
    (parallel g) (input_delivery g) (priority g) (depth g) (chunk_i g)
    (need_result_chunk g) (has_final_task g) (has_finished g) (is_finished g)
    (Some v) (external_input_ready g) (external_inputs_exhausted g)
    (finish g) (defines_deliver_inputs g).

(* One task of T waiting in a pool when an error arrives. *)
Definition task_b_pending : Task :=
  mkTask (Partial 1 []) ref_T 1 ["b"] "process" false (Some FPending).

Definition world_in_flight : World :=
  set_pending_tasks [task_b_pending] world_constructed.

Definition world_in_flight_finished_attr : World :=
  set_gen_objs (with_finished false <$> gen_objs world_in_flight)
    world_in_flight.

(* A generator that is not parallel, from a subclass that defines
   deliver_inputs and needs no input. *)
Definition gen_N : TaskGenerator :=
  {| dtypes := ["n"]; wants_input := []; is_source := false;
     submit_to := "thread"; parallel := false; input_delivery := "direct";
     priority := 0; depth := 0; chunk_i := 0; need_result_chunk := -1;
     has_final_task := false; has_finished := false; is_finished := None;
     finished := None; external_input_ready := true;
     external_inputs_exhausted := false; finish := None;
     defines_deliver_inputs := true |}.

Definition ref_N : gen_ref := 3%nat.

Definition world_N : World :=
  (Scheduler_init 7%nat 5
     (set_list_objs {[ 7%nat := [ref_N] ]}
        (set_gen_objs {[ ref_N := gen_N ]} blank_world))).1.

(* A store whose consumers have seen chunks 2 and 4, and a store without
   consumers. *)
Definition store_seen : StoredData :=
  {| sd_dtype := "a";
     stored := {[ 1 := PArray [10]; 2 := PArray [20]; 3 := PArray [30] ]};
     seen_by_consumers := {[ ref_T := 2; ref_K := 4 ]};
     last_contiguous := 3;
     source_exhausted := false |}.

Definition store_unwanted : StoredData := StoredData_init "z" [].

Definition world_seen : World :=
  set_stored_data [("a", store_seen)] blank_world.

Definition world_dead_output : World :=
  set_stored_data [("a", store_seen); ("z", store_unwanted)] blank_world.

Definition world_N_waiting : World :=
  (TaskGenerator_task ref_N (Some []) world_N).1.

Definition gen_N_waiting : TaskGenerator :=
  set_need_result_chunk 1 (set_chunk_i 1 gen_N).

(* Two generators that ask for staged delivery of their inputs. *)
Definition staged (par : bool) : TaskGenerator :=
  {| dtypes := ["b"]; wants_input := [("a", 0)]; is_source := false;
     submit_to := "thread"; parallel := par; input_delivery := "separate";
     priority := 2; depth := 1; chunk_i := 0; need_result_chunk := -1;
     has_final_task := false; has_finished := false; is_finished := None;
     finished := None; external_input_ready := true;
     external_inputs_exhausted := false; finish := None;
     defines_deliver_inputs := true |}.

(* ===================================================================== *)
(* Vocabulary of the statements                                          *)
(* ===================================================================== *)

(* The payload stored for a chunk of a datatype, if any. *)
Definition chunk_of (w : World) (dt : string) (k : Z) : option pyval :=
  match dict_get dt (stored_data w) with
  | Some d => stored d !! k
  | None => None
  end.

(* The consumers registered for a datatype and the frontier each has seen. *)
Definition consumers_of (w : World) (dt : string) : option (gmap nat Z) :=
  seen_by_consumers <$> dict_get dt (stored_data w).

(* The contiguous frontier of a datatype, if it has a store. *)
Definition frontier_of (w : World) (dt : string) : option Z :=
  last_contiguous <$> dict_get dt (stored_data w).

(* Whether chunk [k] of the first datatype [g] produces has landed: the
   contiguous frontier of that datatype has reached [k]. *)
Definition landed (w : World) (g : TaskGenerator) (k : Z) : bool :=
  match dtypes g with
  | dt :: _ =>
      match frontier_of w dt with
      | Some f => k <=? f
      | None => false
      end
  | [] => false
  end.

(* [m] is the least of the chunk numbers the consumers of [d] have seen. *)
Definition is_min_seen (d : StoredData) (m : Z) : Prop :=
  (exists c, seen_by_consumers d !! c = Some m) /\
  forall c s, seen_by_consumers d !! c = Some s -> m <= s.

(* What one store looks like after a pass of _cleanup_cache. *)
Definition collected (d d' : StoredData) : Prop :=
  exists m, is_min_seen d m /\
            d' = set_stored (filter (fun kv => m < kv.1) (stored d)) d.

(* The store of one datatype after the drain wrote chunk [k] with [v]. *)
Definition landed_in (k : Z) (v : pyval) (d : StoredData) : StoredData :=
  let d1 := set_stored (<[k := v]> (stored d)) d in
  if last_contiguous d1 =? k - 1
  then set_last_contiguous (last_contiguous d1 + 1) d1
  else d1.

(* The order of the sort keys, and the sort on the elements themselves,
   without the computed keys. *)
Definition key_le (a b : sort_key) : Prop := key_leb a b = true.

Fixpoint insert_with {A} (key : A -> sort_key) (x : A) (l : list A)
  : list A :=
  match l with
  | [] => [x]
  | y :: l' =>
      if key_leb (key x) (key y) then x :: y :: l'
      else y :: insert_with key x l'
  end.

Definition sort_with {A} (key : A -> sort_key) (l : list A) : list A :=
  foldr (insert_with key) [] l.

Definition decorate {A} (key : A -> sort_key) (l : list A)
  : list (sort_key * A) :=
  (fun x => (key x, x)) <$> l.

Definition ascending {A} (key : A -> sort_key) : list A -> Prop :=
  StronglySorted (fun x y => key_le (key x) (key y)).

(* The sort key and the produced datatypes of the generator behind a
   reference. *)
Definition gen_key (w : World) (tg : gen_ref) : sort_key :=
  match gen_objs w !! tg with
  | Some g => (priority g, depth g)
  | None => (0, 0)
  end.

Definition gen_dtypes (w : World) (tg : gen_ref) : list string :=
  match gen_objs w !! tg with
  | Some g => dtypes g
  | None => []
  end.

(* Every reference of the list points to a generator. *)
Definition all_alive (w : World) (l : list gen_ref) : Prop :=
  Forall (fun tg => is_Some (gen_objs w !! tg)) l.

(* who_wants after the loop over the generators [tgs]. *)
Definition who_wants_of (w : World) (tgs : list gen_ref)
  (who : pydict (list gen_ref)) : pydict (list gen_ref) :=
  foldl (fun who tg => foldl (who_wants_append tg) who (gen_dtypes w tg))
    who tgs.

(* [tg] is on the list who_wants keeps for [dt]. *)
Definition listed (who : pydict (list gen_ref)) (dt : string) (tg : gen_ref)
  : Prop :=
  exists tgs, dict_get dt who = Some tgs /\ tg ∈ tgs.

(* The world Scheduler.__init__ leaves behind when it returns. *)
Definition after_init (w : World) (r : list_ref) (workers : Z)
  (l : list gen_ref) : World :=
  let sorted := sort_with (gen_key w) l in
  mkWorld (gen_objs w) (<[r := sorted]> (list_objs w)) workers r []
    ((fun '(dt, tgs) => (dt, StoredData_init dt tgs))
       <$> who_wants_of w sorted [])
    (threshold_mb w) PoolRunning PoolRunning (rss w) (random w)
    (random_calls w) (log w).

(* The world Scheduler.__init__ leaves behind when the pools refuse
   max_workers: the list is sorted, no pool and no store is assigned. *)
Definition init_refused (w : World) (r : list_ref) (workers : Z)
  (l : list gen_ref) : World :=
  mkWorld (gen_objs w) (<[r := sort_with (gen_key w) l]> (list_objs w))
    workers r [] (stored_data w) (threshold_mb w) (threadpool w)
    (processpool w) (rss w) (random w) (random_calls w) (log w).

(* What admission must not disturb while the generator [i], in state [g],
   is blocked: that generator and every frontier ([F] gives them). *)
Definition undisturbed (i : gen_ref) (g : TaskGenerator)
  (F : string -> option Z) (w : World) : Prop :=
  gen_objs w !! i = Some g /\ forall dt, frontier_of w dt = F dt.

(* [m] keeps the world undisturbed, whether it returns or raises, and what
   it returns satisfies [P]. *)
Definition keeps_for (i : gen_ref) (g : TaskGenerator)
  (F : string -> option Z) {A} (m : M A) (P : A -> Prop) : Prop :=
  forall w, undisturbed i g F w ->
            undisturbed i g F (m w).1 /\ forall a, (m w).2 = Ok a -> P a.

(* If [m] returns, the generator [self] went from a state in [Pre] to one
   that [Post] relates to the value returned. *)
Definition tracks_for (self : gen_ref) {A} (m : M A)
  (Pre : TaskGenerator -> Prop) (Post : A -> TaskGenerator -> Prop) : Prop :=
  forall w g, gen_objs w !! self = Some g -> Pre g ->
  forall w' a, m w = (w', Ok a) ->
  exists g', gen_objs w' !! self = Some g' /\ Post a g'.

(* --------------------------------------------------------------------- *)
(* Vocabulary of the further properties                                  *)
(* --------------------------------------------------------------------- *)

(* Whether task() returns a task, from the generator before the call and
   the inputs: both asserts hold; a generator that is not parallel has a
   deliver_inputs and gets a dict; a source gets None; any other generator
   gets an empty dict and wants nothing. *)
Definition task_returns (g : TaskGenerator) (inputs : option (pydict pyval))
  : bool :=
  (need_result_chunk g <? chunk_i g + 1) && negb (has_finished g) &&
  (parallel g ||
   (defines_deliver_inputs g &&
    match inputs with Some _ => true | None => false end)) &&
  (if is_source g
   then match inputs with None => true | Some _ => false end
   else match inputs with
        | Some d => is_nil d && is_nil (wants_input g)
        | None => false
        end).

(* The generator after a call of task() that got past both asserts. *)
Definition task_started (g : TaskGenerator) : TaskGenerator :=
  let g1 := set_chunk_i (chunk_i g + 1) g in
  if parallel g then g1 else set_need_result_chunk (chunk_i g + 1) g1.

(* The task that task() returns. *)
Definition task_made (self : gen_ref) (g : TaskGenerator) : Task :=
  mkTask (Partial (chunk_i g + 1) []) self (chunk_i g + 1) (dtypes g)
    (submit_to g) false None.

(* Whether the drain finds the task done (a task without a future makes
   the drain raise). *)
Definition task_done (t : Task) : bool :=
  match task_future t with
  | Some f => future_done f
  | None => false
  end.

(* The positions, counted from [k], of the tasks of [ts] that are not
   done. *)
Fixpoint kept_from (k : nat) (ts : list Task) : list nat :=
  match ts with
  | [] => []
  | t :: ts' =>
      if task_done t then kept_from (S k) ts' else k :: kept_from (S k) ts'
  end.

(* A task the drain takes off the list without an error: completed with a
   result, not final, and with a store for every datatype of the result
   (or without datatypes of its own, and then the result is not read). *)
Definition drained_quietly (w : World) (t : Task) : Prop :=
  exists res,
    task_future t = Some (FFinished (Ok res)) /\
    task_is_final t = false /\
    (task_dtypes t = [] \/
     forall dt, dt ∈ dict_keys res -> is_Some (dict_get dt (stored_data w))).

(* A task that stays on the list: its future is pending or running. *)
Definition still_running (t : Task) : Prop :=
  exists f, task_future t = Some f /\ future_done f = false.

(* What draining tasks can do to the store of a datatype: chunks are added
   or overwritten, and the frontier does not move back. *)
Definition store_grows (d d' : StoredData) : Prop :=
  sd_dtype d' = sd_dtype d /\
  seen_by_consumers d' = seen_by_consumers d /\
  source_exhausted d' = source_exhausted d /\
  last_contiguous d <= last_contiguous d' /\
  forall k, is_Some (stored d !! k) -> is_Some (stored d' !! k).

(* What the loop of _get_new_task can do to a generator: nothing, or mark
   a generator that is not a source as finished. *)
Definition passed_over (g g' : TaskGenerator) : Prop :=
  g' = g \/ (is_source g = false /\ g' = set_has_finished true g).

(* What a whole call of _get_new_task can do to a generator: the above, or
   call task() on a source, which returns or raises. *)
Definition pass_effect (g g' : TaskGenerator) : Prop :=
  passed_over g g' \/
  (is_source g = true /\
   (g' = set_chunk_i (chunk_i g + 1) g \/ g' = task_started g)).

(* The attributes of the scheduler and the caller's lists are the same in
   both worlds. *)
Definition same_scheduler (w w' : World) : Prop :=
  list_objs w' = list_objs w /\
  task_generators w' = task_generators w /\
  max_workers w' = max_workers w /\
  threshold_mb w' = threshold_mb w /\
  pending_tasks w' = pending_tasks w /\
  stored_data w' = stored_data w /\
  threadpool w' = threadpool w /\
  processpool w' = processpool w.

Definition pass_so_far (w0 w : World) : Prop :=
  same_scheduler w0 w /\
  forall i : gen_ref,
    option_Forall2 passed_over (gen_objs w0 !! i) (gen_objs w !! i).

Definition pass_done (w0 w : World) : Prop :=
  same_scheduler w0 w /\
  forall i : gen_ref,
    option_Forall2 pass_effect (gen_objs w0 !! i) (gen_objs w !! i).

(* [m] keeps the invariant [I], whether it returns or raises, and what it
   returns satisfies [P]. *)
Definition maintains (I : World -> Prop) {A} (m : M A) (P : A -> Prop)
  : Prop :=
  forall w, I w -> I (m w).1 /\ forall a, (m w).2 = Ok a -> P a.

(* A generator of the list [tgs] that the loop of _get_new_task puts
   among the sources. *)
Definition ready_source (w : World) (tgs : list gen_ref) (s : gen_ref)
  : Prop :=
  s ∈ tgs /\
  exists g, gen_objs w !! s = Some g /\ is_source g = true /\
            external_input_ready g = true.

(* The task [t] that a call of _get_new_task returned, from the world [w]
   to the world [w']. *)
Definition source_task (w w' : World) (t : Task) : Prop :=
  exists tgs g,
    list_objs w !! task_generators w = Some tgs /\
    ready_source w tgs (task_generator t) /\
    gen_objs w !! task_generator t = Some g /\
    task_returns g None = true /\
    t = task_made (task_generator t) g /\
    gen_objs w' !! task_generator t = Some (task_started g).

(* What a call of _get_new_task leaves and returns. *)
Definition pass_outcome (w0 : World) (out : World * result (option Task))
  : Prop :=
  pass_done w0 out.1 /\
  forall t, out.2 = Ok (Some t) -> source_task w0 out.1 t.

(* What _get_new_task prints and sleeps in one round of waiting for an
   external condition. *)
Definition waiting_round : list event :=
  [EvPrint "waiting on external condition"; EvPrint "Pending tasks";
   EvSleep 5].

(* A task after t.future.cancel(): only a future that has not started
   changes. *)
Definition cancelled (t : Task) : Task :=
  set_task_future (future_cancel <$> task_future t) t.

(* The world exit_with_exception leaves when it returns. *)
Definition after_exit (extra_message : string) (w : World) : World :=
  set_processpool PoolShutdown
    (set_threadpool PoolShutdown
       (set_pending_tasks (cancelled <$> pending_tasks w)
          (set_log (log w ++ [EvPrint extra_message])%list w))).

(* --------------------------------------------------------------------- *)
(* Runs of the scheduler                                                 *)
(* --------------------------------------------------------------------- *)

(* Modelled from the spec: Scheduler._submit_task, which the source leaves
   to a subclass (its body is raise NotImplementedError).  The spec says:
   submit the task to the selected pool, store the handle on the task, and
   append it to the pending set.  [future] is the handle the pool gives. *)
Definition submitted (t : Task) (future : Future) (w : World) : World :=
  set_pending_tasks
    (pending_tasks w ++ [set_task_future (Some future) t])%list w.

(* What the workers of the pools do while the scheduler runs: the futures
   of the pending tasks change state; nothing else changes. *)
Definition futures_move (w w' : World) : Prop :=
  exists ts',
    w' = set_pending_tasks ts' w /\
    Forall2 (fun t t' => exists f, t' = set_task_future f t)
      (pending_tasks w) ts'.

(* What Scheduler.main_loop and wait_until_task_done do to the scheduler,
   one call at a time; a run of main_loop is a sequence of these steps
   (the relation allows them in any order, so it allows the order of
   main_loop).  all_exhausted is left to a subclass and only answers a
   question; yielding a task to the caller changes nothing. *)
Inductive scheduler_step : World -> World -> Prop :=
  (* self._receive_from_done_tasks() *)
  | step_drain w :
      scheduler_step w (_receive_from_done_tasks w).1
  (* task = self._get_new_task(), and the task, if any, is yielded to the
     caller, or _submit_task raises as the one of the source does *)
  | step_admit depth_left w :
      scheduler_step w (_get_new_task depth_left w).1
  (* task = self._get_new_task(); self._submit_task(task) *)
  | step_submit depth_left w w' t future :
      _get_new_task depth_left w = (w', Ok (Some t)) ->
      task_submit_to t <> "user" ->
      scheduler_step w (submitted t future w')
  (* self.exit_with_exception(RuntimeError(...)) *)
  | step_exit e msg w :
      scheduler_step w (exit_with_exception e msg w).1
  (* self._emit_status("Waiting for a task to complete") *)
  | step_status msg w :
      scheduler_step w (_emit_status msg w).1
  (* the pools work on the tasks, at any time *)
  | step_futures w w' :
      futures_move w w' -> scheduler_step w w'
  (* self.threadpool.shutdown(); self.processpool.shutdown() *)
  | step_shutdown w :
      scheduler_step w
        (set_processpool PoolShutdown (set_threadpool PoolShutdown w)).

(* The tasks of the generator [i] in the pending set. *)
Definition in_flight (w : World) (i : gen_ref) : list Task :=
  filter (fun t => task_generator t = i) (pending_tasks w).

(* The generators are the same objects, parallel or not as before, and
   the pending tasks belong, position by position, to the same
   generators. *)
Definition same_crowd (w0 w : World) : Prop :=
  (forall (i : gen_ref) g, gen_objs w0 !! i = Some g ->
     exists g', gen_objs w !! i = Some g' /\ parallel g' = parallel g) /\
  task_generator <$> pending_tasks w = task_generator <$> pending_tasks w0.

(* As above, but pending tasks may have been taken off the list. *)
Definition no_new_tasks (w0 w : World) : Prop :=
  (forall (i : gen_ref) g, gen_objs w0 !! i = Some g ->
     exists g', gen_objs w !! i = Some g' /\ parallel g' = parallel g) /\
  (task_generator <$> pending_tasks w)
    `sublist_of` (task_generator <$> pending_tasks w0).

(* --------------------------------------------------------------------- *)
(* More worlds around the pipeline                                       *)
(* --------------------------------------------------------------------- *)

(* A source that is not parallel, alone in the object store. *)
Definition gen_L : TaskGenerator :=
  {| dtypes := ["l"]; wants_input := []; is_source := true;
     submit_to := "thread"; parallel := false; input_delivery := "direct";
     priority := 1; depth := 0; chunk_i := 0; need_result_chunk := -1;
     has_final_task := false; has_finished := false; is_finished := None;
     finished := None; external_input_ready := true;
     external_inputs_exhausted := false; finish := None;
     defines_deliver_inputs := true |}.

Definition ref_L : gen_ref := 4%nat.

Definition world_L : World := set_gen_objs {[ ref_L := gen_L ]} blank_world.

(* A source whose external input is not ready, and the scheduler of that
   source alone. *)
Definition gen_W : TaskGenerator :=
  {| dtypes := ["w"]; wants_input := []; is_source := true;
     submit_to := "thread"; parallel := true; input_delivery := "direct";
     priority := 1; depth := 0; chunk_i := 0; need_result_chunk := -1;
     has_final_task := false; has_finished := false; is_finished := None;
     finished := None; external_input_ready := false;
     external_inputs_exhausted := false; finish := None;
     defines_deliver_inputs := false |}.

Definition ref_W : gen_ref := 5%nat.

Definition world_W : World :=
  (Scheduler_init 7%nat 5
     (set_list_objs {[ 7%nat := [ref_W] ]}
        (set_gen_objs {[ ref_W := gen_W ]} blank_world))).1.

(* Scheduler([]) with one task waiting in a pool. *)
Definition world_no_generators : World :=
  set_pending_tasks [task_b_pending]
    (Scheduler_init 7%nat 5
       (set_list_objs {[ 7%nat := [] ]} world_objects)).1.

(* Scheduler([]) with a failed task that has no dtypes in front of a
   task that waits in a pool. *)
Definition task_failed_plain : Task :=
  mkTask (Partial 1 []) ref_K 1 [] "thread" false
    (Some (FFinished (Raise (Exception "boom")))).

Definition world_late_failure : World :=
  set_pending_tasks [task_failed_plain; task_b_pending] world_no_generators.

(* Two tasks of S in flight; the second has completed, with a result and
   with an error. *)
Definition world_two_in_flight : World :=
  set_pending_tasks
    [task_a 0 FRunning; task_a 1 (FFinished (Ok [("a", PArray [20])]))]
    world_constructed.

Definition world_second_failed : World :=
  set_pending_tasks
    [task_a 0 FRunning; task_a 1 (FFinished (Raise (Exception "boom")))]
    world_constructed.

(* ===================================================================== *)
(* Dicts, minima, sorting                                               *)
(* ===================================================================== *)

(* --------------------------------------------------------------------- *)
(* Dicts                                                                 *)
(* --------------------------------------------------------------------- *)

Section dict.
Context {V : Type}.
Implicit Types (d : pydict V) (k : string) (v : V).

Lemma dict_get_set_eq k v d : dict_get k (dict_set k v d) = Some v.
Proof.
  induction d as [|[k' v'] d IH]; simpl; repeat case_decide; simpl;
    repeat case_decide; try done.
Qed.

Lemma dict_get_set_ne k k' v d :
  k ≠ k' -> dict_get k' (dict_set k v d) = dict_get k' d.
Proof.
  intros Hne. induction d as [|[k0 v0] d IH]; simpl; repeat case_decide;
    simpl; repeat case_decide; subst; try done.
Qed.

End dict.

(* --------------------------------------------------------------------- *)
(* The minimum of the consumers' frontiers                               *)
(* --------------------------------------------------------------------- *)

Lemma foldl_min_spec (xs : list Z) (x : Z) :
  foldl Z.min x xs ∈ x :: xs /\ forall y, y ∈ x :: xs -> foldl Z.min x xs <= y.
Proof.
  revert x. induction xs as [|z xs IH]; intros x; simpl.
  - split; [left|]. intros y Hy. apply list_elem_of_singleton in Hy. lia.
  - destruct (IH (Z.min x z)) as [Hin Hle]. split.
    + apply elem_of_cons in Hin as [Heq|Hin].
      * rewrite Heq. destruct (Z.min_spec x z) as [[_ ->]|[_ ->]].
        -- left.
        -- right. left.
      * right. right. done.
    + intros y Hy.
      assert (foldl Z.min (Z.min x z) xs <= Z.min x z)
        by (apply Hle; left).
      apply elem_of_cons in Hy as [->|Hy]; [lia|].
      apply elem_of_cons in Hy as [->|Hy]; [lia|].
      apply Hle. by right.
Qed.

Lemma min_seen_None (seen : gmap nat Z) : min_seen seen = None <-> seen = ∅.
Proof.
  unfold min_seen. rewrite <- (map_to_list_empty_iff seen).
  destruct (map_to_list seen) as [|[c s] l]; simpl; split; done.
Qed.

Lemma min_seen_Some (d : StoredData) (m : Z) :
  min_seen (seen_by_consumers d) = Some m <-> is_min_seen d m.
Proof.
  unfold min_seen, is_min_seen.
  assert (Hin : forall s, s ∈ (map_to_list (seen_by_consumers d)).*2 <->
                          exists c, seen_by_consumers d !! c = Some s).
  { intros s. rewrite list_elem_of_fmap. split.
    - intros [[c s'] [-> Hcs]]. exists c. by apply elem_of_map_to_list.
    - intros [c Hc]. exists (c, s). split; [done|].
      by apply elem_of_map_to_list. }
  destruct ((map_to_list (seen_by_consumers d)).*2) as [|x xs] eqn:E.
  - split; [done|]. intros [[c Hc] _].
    assert (m ∈ @nil Z) as Hm by (apply Hin; eauto).
    by apply elem_of_nil in Hm.
  - destruct (foldl_min_spec xs x) as [Hmem Hle]. split.
    + intros [= <-]. split; [by apply Hin|].
      intros c s Hc. apply Hle, Hin. eauto.
    + intros [Hm Hall]. f_equal. apply Hin in Hm.
      apply Hin in Hmem as [c Hc].
      specialize (Hall _ _ Hc). specialize (Hle _ Hm). lia.
Qed.

(* --------------------------------------------------------------------- *)
(* _cleanup_cache                                                        *)
(* --------------------------------------------------------------------- *)

Lemma cleanup_values_spec (ds : pydict StoredData) :
  match cleanup_values ds with
  | (ds', Ok _) =>
      Forall2 (fun kd kd' => kd'.1 = kd.1 /\ collected kd.2 kd'.2) ds ds'
  | (ds', Raise e) =>
      exists key d, (key, d) ∈ ds /\ seen_by_consumers d = ∅ /\
                    e = RuntimeError (String.append (sd_dtype d)
                                        " is not consumed by anyone??")
  end.
Proof.
  induction ds as [|[k d] ds IH]; simpl; [constructor|].
  destruct (Nat.eqb_spec (size (seen_by_consumers d)) 0) as [Hsz|Hsz].
  - exists k, d. split; [left|]. split; [|done].
    by apply map_size_empty_iff.
  - destruct (min_seen (seen_by_consumers d)) as [m|] eqn:Hmin.
    + destruct (cleanup_values ds) as [ds' [[]|e]].
      * constructor; [|done]. simpl. split; [done|].
        exists m. split; [|done]. by apply min_seen_Some.
      * destruct IH as (key & d0 & Hin & Hempty & ->).
        exists key, d0. split; [by right|]. done.
    + apply min_seen_None in Hmin. rewrite Hmin in Hsz. done.
Qed.

Lemma collected_above d d' m k :
  collected d d' -> is_min_seen d' m -> is_Some (stored d' !! k) -> m < k.
Proof.
  intros (m0 & Hm0 & ->) Hm [v Hv]. simpl in Hv.
  apply map_lookup_filter_Some in Hv as [_ Hlt]. simpl in Hlt.
  assert (m = m0); [|lia].
  destruct Hm as [[c Hc] Hle], Hm0 as [[c0 Hc0] Hle0]. simpl in *.
  specialize (Hle _ _ Hc0). specialize (Hle0 _ _ Hc). lia.
Qed.


(* --------------------------------------------------------------------- *)
(* The sort                                                              *)
(* --------------------------------------------------------------------- *)

Lemma key_leb_total a b : key_leb a b = false -> key_leb b a = true.
Proof.
  unfold key_leb. destruct a as [a1 a2], b as [b1 b2]; simpl.
  destruct (Z.ltb_spec a1 b1), (Z.eqb_spec a1 b1), (Z.leb_spec a2 b2),
    (Z.ltb_spec b1 a1), (Z.eqb_spec b1 a1), (Z.leb_spec b2 a2);
    simpl; intros; try done; lia.
Qed.

Lemma key_leb_trans a b c :
  key_leb a b = true -> key_leb b c = true -> key_leb a c = true.
Proof.
  unfold key_leb. destruct a as [a1 a2], b as [b1 b2], c as [c1 c2]; simpl.
  destruct (Z.ltb_spec a1 b1), (Z.eqb_spec a1 b1), (Z.leb_spec a2 b2),
    (Z.ltb_spec b1 c1), (Z.eqb_spec b1 c1), (Z.leb_spec b2 c2),
    (Z.ltb_spec a1 c1), (Z.eqb_spec a1 c1), (Z.leb_spec a2 c2);
    simpl; intros; try done; lia.
Qed.

Lemma key_leb_refl a : key_leb a a = true.
Proof.
  unfold key_leb. destruct a as [a1 a2]; simpl.
  rewrite Z.eqb_refl, Z.leb_refl. by rewrite orb_true_r.
Qed.

Section sort.
Context {A : Type} (key : A -> sort_key).

Lemma insert_by_key_decorate x l :
  insert_by_key (key x, x) (decorate key l) = decorate key (insert_with key x l).
Proof.
  induction l as [|y l IH]; simpl; [done|].
  destruct (key_leb (key x) (key y)); simpl; [done|]. by rewrite IH.
Qed.

Lemma sort_by_key_decorate l :
  sort_by_key (decorate key l) = decorate key (sort_with key l).
Proof.
  induction l as [|x l IH]; simpl; [done|].
  unfold sort_by_key in *. rewrite IH. apply insert_by_key_decorate.
Qed.

Lemma decorate_snd l : (decorate key l).*2 = l.
Proof.
  unfold decorate. rewrite <- list_fmap_compose.
  induction l; simpl; [done|]. by f_equal.
Qed.

Lemma insert_with_perm x l : insert_with key x l ≡ₚ x :: l.
Proof.
  induction l as [|y l IH]; simpl; [done|].
  destruct (key_leb (key x) (key y)); [done|].
  rewrite IH. apply Permutation_swap.
Qed.

Lemma sort_with_perm l : sort_with key l ≡ₚ l.
Proof.
  induction l as [|x l IH]; simpl; [done|].
  rewrite insert_with_perm. by constructor.
Qed.

Lemma insert_with_ascending x l :
  ascending key l -> ascending key (insert_with key x l).
Proof.
  unfold ascending. induction 1 as [|y l Hl IH Hy]; simpl.
  - repeat constructor.
  - destruct (key_leb (key x) (key y)) eqn:Hxy.
    + constructor; [by constructor|]. constructor; [done|].
      eapply Forall_impl; [exact Hy|]. intros z Hz.
      unfold key_le in *. by eapply key_leb_trans.
    + constructor; [done|].
      rewrite insert_with_perm. constructor; [|done].
      by apply key_leb_total.
Qed.

Lemma sort_with_ascending l : ascending key (sort_with key l).
Proof.
  induction l as [|x l IH]; simpl; [constructor|].
  by apply insert_with_ascending.
Qed.

(* Elements with equal keys keep the order they had. *)
Lemma insert_with_stable k x l :
  filter (fun y => key y = k) (insert_with key x l)
  = filter (fun y => key y = k) (x :: l).
Proof.
  induction l as [|y l IH]; simpl; [done|].
  destruct (key_leb (key x) (key y)) eqn:Hxy; [done|].
  rewrite (filter_cons _ y (insert_with key x l)), IH.
  rewrite !filter_cons.
  destruct (decide (key y = k)) as [Hy|Hy],
           (decide (key x = k)) as [Hx|Hx]; try done.
  rewrite Hx, <- Hy, key_leb_refl in Hxy. done.
Qed.

Lemma sort_with_stable k l :
  filter (fun y => key y = k) (sort_with key l) = filter (fun y => key y = k) l.
Proof.
  induction l as [|x l IH]; simpl; [done|].
  rewrite insert_with_stable, !filter_cons, IH. done.
Qed.
End sort.

(* --------------------------------------------------------------------- *)
(* Scheduler.__init__                                                    *)
(* --------------------------------------------------------------------- *)

Lemma bind_Ok {A B} (m : M A) (k : A -> M B) w w1 a :
  m w = (w1, Ok a) -> bind m k w = k a w1.
Proof. unfold bind. by intros ->. Qed.

Lemma get_gen_Ok w tg g : gen_objs w !! tg = Some g -> get_gen tg w = (w, Ok g).
Proof. unfold get_gen. by intros ->. Qed.

Lemma map_M_sort_key_of w l :
  all_alive w l ->
  map_M sort_key_of l w = (w, Ok (decorate (gen_key w) l)).
Proof.
  induction l as [|tg l IH]; intros Hl; simpl; [done|].
  apply Forall_cons in Hl as [[g Hg] Hl].
  unfold sort_key_of at 1.
  rewrite (bind_Ok _ _ w w ((priority g, depth g), tg)).
  2:{ by rewrite (bind_Ok _ _ w w g (get_gen_Ok _ _ _ Hg)). }
  rewrite (bind_Ok _ _ w w _ (IH Hl)).
  unfold ret, gen_key. by rewrite Hg.
Qed.

Lemma fold_M_who_wants w l who :
  all_alive w l ->
  fold_M (fun who tg =>
            g <- get_gen tg ;;
            ret (foldl (who_wants_append tg) who (dtypes g))) l who w
  = (w, Ok (who_wants_of w l who)).
Proof.
  revert who. induction l as [|tg l IH]; intros who Hl; simpl; [done|].
  apply Forall_cons in Hl as [[g Hg] Hl].
  rewrite (bind_Ok _ _ w w (foldl (who_wants_append tg) who (dtypes g))).
  2:{ by rewrite (bind_Ok _ _ w w g (get_gen_Ok _ _ _ Hg)). }
  rewrite IH by done.
  unfold who_wants_of at 2. simpl. unfold gen_dtypes at 2. by rewrite Hg.
Qed.

(* __init__ up to the construction of the pools: the attributes are set
   and the list is sorted. *)
Lemma Scheduler_init_sorts w r workers l (k : M unit) :
  list_objs w !! r = Some l -> all_alive w l ->
  (modify (set_max_workers workers) ;;
   modify (set_task_generators r) ;;
   self <- get_world ;;
   l <- get_list (task_generators self) ;;
   keyed <- map_M sort_key_of l ;;
   modify (fun w => set_list_objs
             (<[task_generators self := (sort_by_key keyed).*2]> (list_objs w))
             w) ;;
   modify (set_pending_tasks []) ;;
   k) w
  = k (init_refused w r workers l).
Proof.
  intros Hr Hl.
  unfold bind at 1 2 3 4; simpl. unfold get_list at 1; simpl. rewrite Hr.
  erewrite bind_Ok; [|apply map_M_sort_key_of; exact Hl].
  unfold bind at 1 2; simpl.
  change (gen_key (set_task_generators r (set_max_workers workers w)))
    with (gen_key w).
  by rewrite sort_by_key_decorate, decorate_snd.
Qed.

Lemma Scheduler_init_run w r workers l :
  list_objs w !! r = Some l -> all_alive w l -> 0 < workers ->
  Scheduler_init r workers w = (after_init w r workers l, Ok tt).
Proof.
  intros Hr Hl Hworkers. unfold Scheduler_init.
  rewrite (Scheduler_init_sorts w r workers l _ Hr Hl).
  assert ((workers <=? 0) = false) as Hpool by lia.
  unfold Executor_init.
  do 2 (rewrite (bind_Ok get_world _ _ _ _ eq_refl); simpl;
        rewrite Hpool; do 2 (erewrite bind_Ok by reflexivity)).
  unfold bind at 1, get_list at 1; simpl. rewrite lookup_insert_eq.
  erewrite bind_Ok.
  2:{ apply fold_M_who_wants. unfold all_alive.
      by rewrite (sort_with_perm (gen_key w) l). }
  done.
Qed.

Lemma Scheduler_init_refuses w r workers l :
  list_objs w !! r = Some l -> all_alive w l -> workers <= 0 ->
  Scheduler_init r workers w = (init_refused w r workers l, Raise ValueError).
Proof.
  intros Hr Hl Hworkers. unfold Scheduler_init.
  rewrite (Scheduler_init_sorts w r workers l _ Hr Hl).
  assert ((workers <=? 0) = true) as Hpool by lia.
  unfold bind at 1 2, Executor_init; simpl. by rewrite Hpool.
Qed.

(** C10. Scheduler.__init__ keeps the reference the caller passed as
    self.task_generators and sorts the list behind it in place: after the
    constructor, the caller's list object holds the same generators in
    ascending (priority, depth) order, generators with equal keys in the
    order the caller gave them, and no generator object has changed.  The
    constructor returns when max_workers is positive; otherwise the pools
    refuse it with ValueError, and the caller's list has been sorted all
    the same, because the sort comes first. *)
Theorem Scheduler_init_sorts_in_place (w : World) (r : list_ref)
  (workers : Z) (l : list gen_ref) :
  list_objs w !! r = Some l ->
  all_alive w l ->
  exists w' l',
    Scheduler_init r workers w
    = (w', if 0 <? workers then Ok tt else Raise ValueError) /\
    task_generators w' = r /\
    list_objs w' !! r = Some l' /\
    l' ≡ₚ l /\
    ascending (gen_key w') l' /\
    (forall k, filter (fun tg => gen_key w' tg = k) l'
               = filter (fun tg => gen_key w' tg = k) l) /\
    gen_objs w' = gen_objs w.
Proof.
  intros Hr Hl.
  exists (if 0 <? workers then after_init w r workers l
          else init_refused w r workers l), (sort_with (gen_key w) l).
  split.
  { destruct (0 <? workers) eqn:Hworkers.
    - apply Scheduler_init_run; [done..|lia].
    - apply Scheduler_init_refuses; [done..|lia]. }
  destruct (0 <? workers).
  all: split; [done|].
  all: split; [apply lookup_insert_eq|].
  all: split; [apply sort_with_perm|].
  all: split; [apply (sort_with_ascending (gen_key w))|].
  all: split; [|done].
  all: intros k; apply (sort_with_stable (gen_key w)).
Qed.

(* --------------------------------------------------------------------- *)
(* Scheduler.__init__: who is registered as a consumer                   *)
(* --------------------------------------------------------------------- *)

Lemma listed_append who tg dt0 dt tg' :
  listed (who_wants_append tg who dt0) dt tg' <->
  listed who dt tg' \/ (dt = dt0 /\ tg' = tg).
Proof.
  unfold listed, who_wants_append.
  destruct (decide (dt0 = dt)) as [->|Hne].
  - rewrite dict_get_set_eq. split.
    + intros (tgs & [= <-] & Hin). apply elem_of_app in Hin as [Hin|Hin].
      * left. destruct (dict_get dt who) as [tgs|]; simpl in *; [eauto|].
        by apply elem_of_nil in Hin.
      * right. by apply list_elem_of_singleton in Hin.
    + intros [(tgs & Hget & Hin)|[_ ->]]; eexists; (split; [done|]).
      * rewrite Hget. simpl. apply elem_of_app. by left.
      * apply elem_of_app. right. by apply list_elem_of_singleton.
  - rewrite dict_get_set_ne by done. split; [by left|].
    intros [?|[? ?]]; [done|congruence].
Qed.

Lemma listed_append_all who tg dts dt tg' :
  listed (foldl (who_wants_append tg) who dts) dt tg' <->
  listed who dt tg' \/ (dt ∈ dts /\ tg' = tg).
Proof.
  revert who. induction dts as [|dt0 dts IH]; intros who; simpl.
  - split; [by left|]. intros [?|[Hin _]]; [done|].
    by apply elem_of_nil in Hin.
  - rewrite IH, listed_append, elem_of_cons. tauto.
Qed.

Lemma listed_who_wants_of w l who dt tg :
  listed (who_wants_of w l who) dt tg <->
  listed who dt tg \/ (tg ∈ l /\ dt ∈ gen_dtypes w tg).
Proof.
  unfold who_wants_of. revert who.
  induction l as [|tg0 l IH]; intros who; simpl.
  - split; [by left|]. intros [?|[Hin _]]; [done|].
    by apply elem_of_nil in Hin.
  - rewrite IH, listed_append_all, elem_of_cons.
    split; [|intros [?|[[->|?] ?]]; tauto].
    intros [[?|[? ->]]|[? ?]]; tauto.
Qed.

Lemma dict_get_stores (who : pydict (list gen_ref)) dt :
  dict_get dt ((fun '(dt, tgs) => (dt, StoredData_init dt tgs)) <$> who)
  = StoredData_init dt <$> dict_get dt who.
Proof.
  induction who as [|[k tgs] who IH]; simpl; [done|].
  case_decide; [by subst|done].
Qed.

Lemma StoredData_init_consumers dt wanted_by tg :
  seen_by_consumers (StoredData_init dt wanted_by) !! tg
  = if decide (tg ∈ wanted_by) then Some (-1) else None.
Proof.
  unfold StoredData_init; simpl.
  assert (forall (m : gmap nat Z),
            foldl (fun m tg => <[tg := -1]> m) m wanted_by !! tg
            = if decide (tg ∈ wanted_by) then Some (-1) else m !! tg) as H.
  { induction wanted_by as [|x l IH]; intros m.
    - destruct (decide (tg ∈ @nil gen_ref)) as [Hin|_]; [|done].
      by apply elem_of_nil in Hin.
    - change (foldl (fun m tg => <[tg := -1]> m) m (x :: l))
        with (foldl (fun m tg => <[tg := -1]> m) (<[x := -1]> m) l).
      rewrite IH.
      destruct (decide (tg ∈ l)) as [Hl|Hl].
      + rewrite decide_True; [done|by right].
      + destruct (decide (tg = x)) as [->|Hne].
        * rewrite lookup_insert_eq. rewrite decide_True; [done|left].
        * rewrite lookup_insert_ne by done. rewrite decide_False; [done|].
          intros Hin. apply elem_of_cons in Hin as [?|?]; done. }
  rewrite H. destruct (decide (tg ∈ wanted_by)); [done|apply lookup_empty].
Qed.

(* After the constructor (which returns when max_workers is positive), the
   generators registered as consumers of a datatype are those of the list
   that have it among their [dtypes], the datatypes they produce;
   [wants_input] plays no part. *)
Lemma Scheduler_init_registers (w : World) (r : list_ref) (workers : Z)
  (l : list gen_ref) (dt : string) (tg : gen_ref) :
  list_objs w !! r = Some l ->
  all_alive w l ->
  0 < workers ->
  exists w', Scheduler_init r workers w = (w', Ok tt) /\
    ((exists c, consumers_of w' dt = Some c /\ is_Some (c !! tg)) <->
     tg ∈ l /\ dt ∈ gen_dtypes w tg).
Proof.
  intros Hr Hl Hworkers. exists (after_init w r workers l).
  split; [by apply Scheduler_init_run|].
  unfold consumers_of, after_init; simpl. rewrite dict_get_stores.
  assert (listed (who_wants_of w (sort_with (gen_key w) l) []) dt tg <->
          tg ∈ l /\ dt ∈ gen_dtypes w tg) as Hlisted.
  { rewrite listed_who_wants_of. split.
    - intros [(tgs & [=] & _)|[Hin Hdt]]. split; [|done].
      by rewrite <- (sort_with_perm (gen_key w) l).
    - intros [Hin Hdt]. right. split; [|done].
      by rewrite (sort_with_perm (gen_key w) l). }
  rewrite <- Hlisted.
  unfold listed.
  destruct (dict_get dt (who_wants_of w (sort_with (gen_key w) l) []))
    as [tgs|]; simpl.
  - split.
    + intros (c & [= <-] & Hc).
      change (is_Some (seen_by_consumers (StoredData_init dt tgs) !! tg))
        in Hc.
      rewrite StoredData_init_consumers in Hc.
      destruct (decide (tg ∈ tgs)) as [Hin|Hout]; [eauto|].
      rewrite decide_False in Hc by done. by destruct Hc.
    + intros (tgs' & [= <-] & Hin). eexists. split; [done|].
      change (is_Some (seen_by_consumers (StoredData_init dt tgs) !! tg)).
      rewrite StoredData_init_consumers. rewrite decide_True by done. eauto.
  - split; [intros (c & [=] & _)|intros (tgs & [=] & _)].
Qed.

(* --------------------------------------------------------------------- *)
(* _receive_from_done_tasks: what a completed task leaves in the stores  *)
(* --------------------------------------------------------------------- *)

Lemma landed_in_stored k v d : stored (landed_in k v d) !! k = Some v.
Proof.
  unfold landed_in. simpl. destruct (_ =? _); simpl; apply lookup_insert_eq.
Qed.

Lemma landed_in_frontier k v d :
  last_contiguous (landed_in k v d)
  = if last_contiguous d =? k - 1 then k else last_contiguous d.
Proof.
  unfold landed_in. simpl.
  destruct (Z.eqb_spec (last_contiguous d) (k - 1)); simpl; lia.
Qed.

Lemma landed_in_again k v d :
  landed_in k v (landed_in k v d) = landed_in k v d.
Proof.
  unfold landed_in. simpl.
  destruct (Z.eqb_spec (last_contiguous d) (k - 1)) as [Heq|Hne]; simpl.
  - destruct (Z.eqb_spec (last_contiguous d + 1) (k - 1)); [lia|].
    unfold set_stored; simpl. by rewrite insert_insert_eq.
  - destruct (Z.eqb_spec (last_contiguous d) (k - 1)); [lia|].
    unfold set_stored; simpl. by rewrite insert_insert_eq.
Qed.

(* The loop over the items of the result, for the items [items]: every
   datatype among them has the whole result [res] under chunk [k], and its
   frontier went up by one exactly if it stood at [k - 1]. *)
Lemma drain_items (k : Z) (res : pydict pyval) (items : pydict pyval)
  (w : World) :
  (forall dt, dt ∈ dict_keys items -> is_Some (dict_get dt (stored_data w))) ->
  exists w',
    for_ items (fun '(dtype, _) =>
      d <- get_stored_data dtype ;;
      let d1 := set_stored (<[k := PDict res]> (stored d)) d in
      let d2 := if last_contiguous d1 =? k - 1
                then set_last_contiguous (last_contiguous d1 + 1) d1
                else d1 in
      update_stored_data dtype (fun _ => d2)) w = (w', Ok tt) /\
    gen_objs w' = gen_objs w /\
    pending_tasks w' = pending_tasks w /\
    forall dt,
      dict_get dt (stored_data w')
      = if decide (dt ∈ dict_keys items)
        then landed_in k (PDict res) <$> dict_get dt (stored_data w)
        else dict_get dt (stored_data w).
Proof.
  revert w. induction items as [|[dtype v] items IH]; intros w Hstores.
  - exists w. split; [done|]. split; [done|]. split; [done|]. intros dt.
    rewrite decide_False; [done|]. apply not_elem_of_nil.
  - destruct (Hstores dtype) as [d Hd]; [left|].
    set (w1 := set_stored_data
                 (dict_set dtype (landed_in k (PDict res) d) (stored_data w))
                 w).
    destruct (IH w1) as (w' & Hrun & Hgen & Hpend & Hget).
    { intros dt Hdt. unfold w1; simpl.
      destruct (decide (dtype = dt)) as [->|Hne].
      - rewrite dict_get_set_eq. eauto.
      - rewrite dict_get_set_ne by done. apply Hstores. by right. }
    exists w'. split; [|split; [done|split; [done|]]].
    + simpl. erewrite bind_Ok; [exact Hrun|].
      unfold bind, get_stored_data, update_stored_data, bind, get_stored_data.
      rewrite Hd. simpl. by rewrite Hd.
    + intros dt. rewrite Hget. unfold w1; simpl.
      destruct (decide (dtype = dt)) as [->|Hne].
      * rewrite dict_get_set_eq, Hd. rewrite (decide_True (P := dt ∈ dt :: _))
          by left. simpl.
        destruct (decide (dt ∈ dict_keys items)); simpl; [|done].
        by rewrite landed_in_again.
      * rewrite dict_get_set_ne by done.
        destruct (decide (dt ∈ dict_keys items)) as [Hin|Hout].
        -- rewrite decide_True; [done|by right].
        -- rewrite decide_False; [done|].
           intros Hin. apply elem_of_cons in Hin as [?|?]; done.
Qed.

(* One completed task that is not final: its whole result map lands under
   its chunk index in the store of every datatype of the result. *)
Lemma receive_one_at (still_pending : list nat) (i : nat) (task : Task)
  (w : World) :
  pending_tasks w !! i = Some task ->
  receive_one still_pending i w
  = (stays <- receive_task task ;;
     ret (if stays : bool then (still_pending ++ [i])%list
          else still_pending)) w.
Proof.
  intros Hi. unfold receive_one.
  rewrite (bind_Ok get_world _ w w w eq_refl). by rewrite Hi.
Qed.

Lemma receive_one_stores_result (still_pending : list nat) (i : nat)
  (task : Task) (res : pydict pyval) (w : World) :
  pending_tasks w !! i = Some task ->
  task_future task = Some (FFinished (Ok res)) ->
  task_is_final task = false ->
  task_dtypes task ≠ [] ->
  (forall dt, dt ∈ dict_keys res -> is_Some (dict_get dt (stored_data w))) ->
  exists w',
    receive_one still_pending i w = (w', Ok still_pending) /\
    forall dt, dt ∈ dict_keys res ->
      chunk_of w' dt (task_chunk_i task) = Some (PDict res) /\
      exists f, frontier_of w dt = Some f /\
                frontier_of w' dt
                = Some (if f =? task_chunk_i task - 1
                        then task_chunk_i task else f).
Proof.
  intros Hi Hfut Hfinal Hdtypes Hstores.
  destruct (drain_items (task_chunk_i task) res res w Hstores)
    as (w' & Hrun & _ & _ & Hget).
  exists w'. split.
  - assert (receive_task task w = (w', Ok false)) as Htask.
    { unfold receive_task. rewrite Hfut, Hfinal. simpl.
      destruct (task_dtypes task); [done|]. simpl.
      do 4 (erewrite bind_Ok by reflexivity).
      by erewrite bind_Ok by exact Hrun. }
    by rewrite (receive_one_at _ _ _ _ Hi), (bind_Ok _ _ _ _ _ Htask).
  - intros dt Hdt. destruct (Hstores dt Hdt) as [d Hd].
    specialize (Hget dt). rewrite decide_True, Hd in Hget by done.
    unfold chunk_of, frontier_of. rewrite Hget, Hd. simpl.
    split; [apply landed_in_stored|].
    eexists. split; [done|]. by rewrite landed_in_frontier.
Qed.

(* --------------------------------------------------------------------- *)
(* _get_new_task: the generators that are not sources                    *)
(* --------------------------------------------------------------------- *)

(* exhausted_inputs holds the datatypes of every generator of the
   scheduler, so for each of them the test on its datatypes succeeds. *)
Lemma own_dtypes_exhausted (w : World) (tgs : list gen_ref) (tg : gen_ref)
  (g : TaskGenerator) :
  tg ∈ tgs -> gen_objs w !! tg = Some g ->
  forallb (fun dt => bool_decide (dt ∈ concat (gen_dtypes w <$> tgs)))
    (dtypes g) = true.
Proof.
  intros Hin Hg. apply forallb_forall. intros dt Hdt.
  apply bool_decide_eq_true. apply list_elem_of_In, in_concat.
  exists (dtypes g). split; [|done].
  apply list_elem_of_In, list_elem_of_fmap. exists tg. split; [|done].
  unfold gen_dtypes. by rewrite Hg.
Qed.

(* The list _get_new_task concatenates into exhausted_inputs. *)
Lemma map_M_dtypes (w : World) (tgs : list gen_ref) :
  all_alive w tgs ->
  map_M (fun tg => g <- get_gen tg ;; ret (dtypes g)) tgs w
  = (w, Ok (gen_dtypes w <$> tgs)).
Proof.
  induction tgs as [|tg tgs IH]; intros Htgs; simpl; [done|].
  apply Forall_cons in Htgs as [[g Hg] Htgs].
  rewrite (bind_Ok _ _ w w (dtypes g)).
  2:{ by rewrite (bind_Ok _ _ w w g (get_gen_Ok _ _ _ Hg)). }
  rewrite (bind_Ok _ _ w w _ (IH Htgs)).
  assert (gen_dtypes w tg = dtypes g) as Hdts
    by (unfold gen_dtypes; by rewrite Hg).
  unfold ret. simpl. by rewrite Hdts.
Qed.

(* The step of the admission loop for a generator of the scheduler that is
   not a source never returns a task and never records a request: the
   generator is passed over, marked as finished, or the step raises. *)
Lemma admission_step_passes_over (w : World) (tgs : list gen_ref)
  (loc : locals) (tg : gen_ref) (g : TaskGenerator) :
  tg ∈ tgs -> gen_objs w !! tg = Some g -> is_source g = false ->
  forall w' r,
    admission_step (concat (gen_dtypes w <$> tgs)) loc tg w = (w', r) ->
    (forall t, r <> Ok (inr t)) /\
    (forall loc', r = Ok (inl loc') -> requests_for loc' = requests_for loc).
Proof.
  intros Hin Hg Hsrc w' r. unfold admission_step.
  rewrite (bind_Ok _ _ w w g (get_gen_Ok _ _ _ Hg)).
  destruct (negb (external_input_ready g)).
  { intros [= <- <-]. split; [done|]. by intros ? [= <-]. }
  unfold bind at 1.
  destruct ((if negb (parallel g)
             then match dtypes g with
                  | [] => raise IndexError
                  | dt :: _ =>
                      d <- get_stored_data dt ;;
                      ret (last_contiguous d <? need_result_chunk g)
                  end
             else ret false) w) as [w1 [blocked|e]] eqn:Hblocked.
  2:{ intros [= <- <-]. split; done. }
  assert (w1 = w) as ->.
  { destruct (negb (parallel g)); [|by injection Hblocked].
    destruct (dtypes g); [done|].
    unfold bind, get_stored_data, ret in Hblocked.
    destruct (dict_get s (stored_data w)); by injection Hblocked. }
  destruct blocked.
  { intros [= <- <-]. split; [done|]. by intros ? [= <-]. }
  rewrite Hsrc, (own_dtypes_exhausted w tgs tg g Hin Hg). simpl.
  destruct (negb (has_finished g)).
  2:{ intros [= <- <-]. split; [done|]. by intros ? [= <-]. }
  destruct (has_final_task g).
  { intros [= <- <-]. split; done. }
  unfold bind, update_gen, bind. rewrite (get_gen_Ok _ _ _ Hg). simpl.
  intros [= <- <-]. split; [done|]. by intros ? [= <-].
Qed.

(* --------------------------------------------------------------------- *)
(* Admission leaves a blocked generator alone                            *)
(* --------------------------------------------------------------------- *)

Section blocked.
Variables (i : gen_ref) (g : TaskGenerator) (F : string -> option Z).
Hypothesis g_not_parallel : parallel g = false.
Hypothesis g_blocked :
  forall dt dts k, dtypes g = dt :: dts -> F dt = Some k ->
                   k < need_result_chunk g.

Local Abbreviation keeps := (keeps_for i g F).

Lemma keeps_ret {A} (a : A) (P : A -> Prop) : P a -> keeps (ret a) P.
Proof. intros Ha w Hw. split; [done|]. by intros ? [= <-]. Qed.

Lemma keeps_raise {A} e (P : A -> Prop) : keeps (raise e) P.
Proof. intros w Hw. split; done. Qed.

Lemma keeps_bind {A B} (m : M A) (k : A -> M B) (P : A -> Prop) Q :
  keeps m P -> (forall a, P a -> keeps (k a) Q) -> keeps (bind m k) Q.
Proof.
  intros Hm Hk w Hw. unfold bind. destruct (Hm w Hw) as [Hw1 Ha].
  destruct (m w) as [w1 [a|e]]; simpl in *; [|done].
  apply (Hk a); auto.
Qed.

Lemma keeps_seq {A B} (m : M A) (k : A -> M B) (P : A -> Prop) Q :
  keeps m P -> (forall a, keeps (k a) Q) -> keeps (bind m k) Q.
Proof. intros Hm Hk. eapply keeps_bind; [exact Hm|]. auto. Qed.

(* One statement of a method: [L] shows that it keeps the world
   undisturbed, and the proof goes on with what follows it. *)
Tactic Notation "keep" uconstr(L) "as" simple_intropattern(x) :=
  eapply keeps_seq; [by apply L|]; intros x.

Lemma keeps_get_world : keeps get_world (fun _ => True).
Proof. intros w Hw. done. Qed.

Lemma keeps_modify (f : World -> World) :
  (forall w, gen_objs (f w) = gen_objs w /\ stored_data (f w) = stored_data w) ->
  keeps (modify f) (fun _ => True).
Proof.
  intros Hf w [Hg HF]. destruct (Hf w) as [Hg' Hs']. split; [|done]. simpl.
  split; [by rewrite Hg'|]. intros dt. unfold frontier_of. rewrite Hs'.
  apply HF.
Qed.

Lemma keeps_emit e : keeps (emit e) (fun _ => True).
Proof. by apply keeps_modify. Qed.

Lemma keeps_assert c msg : keeps (assert c msg) (fun _ => True).
Proof. destruct c; [by apply keeps_ret|apply keeps_raise]. Qed.

Lemma keeps_get_list r : keeps (get_list r) (fun _ => True).
Proof.
  intros w Hw. unfold get_list. by destruct (list_objs w !! r).
Qed.

Lemma keeps_get_gen tg : keeps (get_gen tg) (fun a => tg = i -> a = g).
Proof.
  intros w [Hg HF]. unfold get_gen.
  destruct (gen_objs w !! tg) as [a|] eqn:E; simpl; [|done].
  split; [done|]. intros ? [= <-] ->. congruence.
Qed.

Lemma keeps_update_gen tg f :
  tg ≠ i -> keeps (update_gen tg f) (fun _ => True).
Proof.
  intros Hne w [Hg HF]. unfold update_gen, bind, get_gen.
  destruct (gen_objs w !! tg) as [a|]; simpl; [|done].
  split; [|done]. split; [|done]. simpl. by rewrite lookup_insert_ne.
Qed.

Lemma keeps_get_stored_data dt :
  keeps (get_stored_data dt) (fun d => F dt = Some (last_contiguous d)).
Proof.
  intros w [Hg HF]. unfold get_stored_data.
  pose proof (HF dt) as Hdt. unfold frontier_of in Hdt.
  destruct (dict_get dt (stored_data w)) as [d|]; simpl in *; [|done].
  split; [done|]. by intros ? [= <-].
Qed.

Lemma keeps_update_stored_data dt f :
  (forall d, last_contiguous (f d) = last_contiguous d) ->
  keeps (update_stored_data dt f) (fun _ => True).
Proof.
  intros Hf w [Hg HF]. unfold update_stored_data, bind, get_stored_data.
  destruct (dict_get dt (stored_data w)) as [d|] eqn:E; simpl; [|done].
  split; [|done]. split; [done|]. intros dt'. rewrite <- HF.
  unfold frontier_of. simpl. destruct (decide (dt = dt')) as [<-|Hne].
  - rewrite dict_get_set_eq, E. simpl. by rewrite Hf.
  - by rewrite dict_get_set_ne.
Qed.

Lemma cleanup_values_frontier ds dt :
  last_contiguous <$> dict_get dt (cleanup_values ds).1
  = last_contiguous <$> dict_get dt ds.
Proof.
  induction ds as [|[k d] ds IH]; simpl; [done|].
  destruct (size (seen_by_consumers d) =? 0)%nat; [done|].
  destruct (min_seen (seen_by_consumers d)); [|done].
  destruct (cleanup_values ds) as [ds' r]; simpl in *.
  case_decide; [done|]. apply IH.
Qed.

Lemma keeps_cleanup_cache : keeps _cleanup_cache (fun _ => True).
Proof.
  intros w [Hg HF]. unfold _cleanup_cache.
  pose proof (cleanup_values_frontier (stored_data w)) as Hfr.
  destruct (cleanup_values (stored_data w)) as [ds r]; simpl in *.
  split; [|done]. split; [done|]. intros dt. rewrite <- HF. apply Hfr.
Qed.

Lemma keeps_for_each {A S R} (l : list A) (body : S -> A -> M (S + R))
  (Pacc : S -> Prop) (Pret : R -> Prop) acc :
  (forall acc x, Pacc acc ->
     keeps (body acc x)
       (fun r => match r with inl acc' => Pacc acc' | inr v => Pret v end)) ->
  Pacc acc ->
  keeps (for_each l body acc)
    (fun r => match r with inl acc' => Pacc acc' | inr v => Pret v end).
Proof.
  intros Hbody. revert acc. induction l as [|x l IH]; intros acc Hacc; simpl.
  - by apply keeps_ret.
  - eapply keeps_bind; [by apply Hbody|].
    intros [acc'|v] Hr; [by apply IH|by apply keeps_ret].
Qed.

Lemma keeps_fold_M {A S} (f : S -> A -> M S) (l : list A) acc :
  (forall acc x, keeps (f acc x) (fun _ => True)) ->
  keeps (fold_M f l acc) (fun _ => True).
Proof.
  intros Hf. revert acc. induction l as [|x l IH]; intros acc; simpl.
  - by apply keeps_ret.
  - keep Hf as a. apply IH.
Qed.

Lemma keeps_map_M {A B} (f : A -> M B) (P : A -> B -> Prop) (l : list A) :
  (forall x, keeps (f x) (P x)) -> keeps (map_M f l) (Forall2 P l).
Proof.
  intros Hf. induction l as [|x l IH]; simpl.
  - apply keeps_ret. constructor.
  - eapply keeps_bind; [apply Hf|]. intros y Hy.
    eapply keeps_bind; [apply IH|]. intros ys Hys.
    apply keeps_ret. by constructor.
Qed.

Lemma keeps_all_M {A} (f : A -> M bool) (l : list A) :
  (forall x, keeps (f x) (fun _ => True)) ->
  keeps (all_M l f) (fun _ => True).
Proof.
  intros Hf. induction l as [|x l IH]; simpl.
  - by apply keeps_ret.
  - keep Hf as b.
    keep IH as r. by apply keeps_ret.
Qed.

Lemma keeps_for_ {A} (l : list A) (body : A -> M unit) :
  (forall x, keeps (body x) (fun _ => True)) ->
  keeps (for_ l body) (fun _ => True).
Proof.
  intros Hbody. induction l as [|x l IH]; simpl.
  - by apply keeps_ret.
  - keep Hbody as u. apply IH.
Qed.

Lemma keeps_emit_status msg : keeps (_emit_status msg) (fun _ => True).
Proof.
  unfold _emit_status.
  keep keeps_emit as u.
  keep keeps_get_world as self.
  eapply keeps_seq with (P := fun _ => True); [|intros; apply keeps_emit].
  apply keeps_for_. intros t. unfold Task_repr.
  keep keeps_get_gen as a.
  destruct (dtypes a); [apply keeps_raise|by apply keeps_ret].
Qed.

Lemma keeps_Task_init content tg chunk fin fut :
  keeps (Task_init content tg chunk fin fut)
    (fun t => task_generator t = tg).
Proof.
  unfold Task_init. eapply keeps_seq; [apply keeps_get_gen|].
  intros a. by apply keeps_ret.
Qed.

Lemma keeps_deliver_inputs tg inputs :
  keeps (deliver_inputs tg inputs) (fun _ => True).
Proof.
  unfold deliver_inputs. eapply keeps_seq; [apply keeps_get_gen|].
  intros a. destruct (negb (defines_deliver_inputs a)); [apply keeps_raise|].
  destruct inputs; [by apply keeps_ret|apply keeps_raise].
Qed.

Lemma keeps_kwargs d : keeps (kwargs_with_chunk_i d) (fun _ => True).
Proof.
  unfold kwargs_with_chunk_i. case_bool_decide;
    [apply keeps_raise|by apply keeps_ret].
Qed.

Lemma keeps_task tg inputs :
  tg ≠ i ->
  keeps (TaskGenerator_task tg inputs) (fun t => task_generator t = tg).
Proof.
  intros Hne. unfold TaskGenerator_task.
  keep keeps_update_gen as _.
  keep keeps_get_gen as a.
  keep keeps_assert as _.
  keep keeps_assert as _.
  eapply keeps_seq with (P := fun _ => True).
  { destruct (negb (parallel a)); [|by apply keeps_ret].
    keep keeps_update_gen as _.
    apply keeps_deliver_inputs. }
  intros _.
  eapply keeps_seq with (P := fun _ => True); [|intros; apply keeps_Task_init].
  destruct (is_source a).
  { keep keeps_assert as _. by apply keeps_ret. }
  destruct inputs as [d|]; [|apply keeps_raise].
  keep keeps_assert as _.
  eapply keeps_seq with (P := fun _ => True).
  { apply keeps_all_M. intros x. apply keeps_raise. }
  intros present.
  keep keeps_assert as _.
  destruct (String.eqb (input_delivery a) "direct").
  - keep keeps_kwargs as _.
    keep keeps_update_gen as _.
    by apply keeps_ret.
  - keep keeps_kwargs as _.
    eapply keeps_seq with (P := fun _ => True); [by apply keeps_ret|].
    intros _. by apply keeps_ret.
Qed.

Lemma max_by_score_elem first rest : max_by_score first rest ∈ first :: rest.
Proof.
  unfold max_by_score. revert first.
  induction rest as [|q rest IH]; intros first; simpl; [left|].
  specialize (IH (if Qle_bool q.2 first.2 then first else q)).
  apply elem_of_cons in IH as [->|IH].
  - destruct (Qle_bool q.2 first.2); [left|right; left].
  - right. by right.
Qed.

Lemma keeps_score_source requests s :
  keeps (score_source requests s) (fun q => q.1 = s).
Proof.
  unfold score_source. keep keeps_get_gen as a.
  eapply keeps_seq with (P := fun _ => True); [|intros; by apply keeps_ret].
  unfold next_random. keep keeps_get_world as w.
  keep keeps_modify as _. by apply keeps_ret.
Qed.

Lemma keeps_count_requests a loc :
  keeps (count_requests a loc) (fun _ => True).
Proof.
  unfold count_requests. apply keeps_fold_M. intros acc [dtype chunk_id].
  keep keeps_get_stored_data as d.
  eapply keeps_seq with (P := fun _ => True); [apply keeps_raise|].
  intros []; by apply keeps_ret.
Qed.

Lemma keeps_collect_inputs tg a :
  keeps (collect_inputs tg a) (fun _ => True).
Proof.
  unfold collect_inputs. apply keeps_fold_M. intros acc [dtype chunk].
  keep keeps_update_stored_data as _.
  destruct (str_index dtype chunk); [|apply keeps_raise].
  keep keeps_get_stored_data as _.
  by apply keeps_ret.
Qed.

(* One step of the admission loop: a generator that is blocked is passed
   over, and a task that leaves the loop belongs to another generator. *)
Lemma keeps_admission_step exhausted_inputs loc tg :
  i ∉ sources loc ->
  keeps (admission_step exhausted_inputs loc tg)
    (fun r => match r with
              | inl loc' => i ∉ sources loc'
              | inr t => task_generator t ≠ i
              end).
Proof.
  intros Hloc. unfold admission_step.
  eapply keeps_bind; [apply keeps_get_gen|]. intros a Ha.
  destruct (negb (external_input_ready a)); [by apply keeps_ret|].
  eapply keeps_bind with (P := fun blocked : bool => tg = i -> blocked = true).
  { destruct (decide (tg = i)) as [Heq|Hne].
    - rewrite (Ha Heq), g_not_parallel. simpl.
      destruct (dtypes g) as [|dt dts] eqn:Hdts; [apply keeps_raise|].
      eapply keeps_bind; [apply keeps_get_stored_data|]. intros d Hd.
      apply keeps_ret. intros _. apply Z.ltb_lt. by eapply g_blocked.
    - destruct (negb (parallel a)); [|by apply keeps_ret].
      destruct (dtypes a); [apply keeps_raise|].
      keep keeps_get_stored_data as d.
      by apply keeps_ret. }
  intros [|] Hblocked; [by apply keeps_ret|].
  assert (tg ≠ i) as Hne by (intros Heq; by specialize (Hblocked Heq)).
  destruct (is_source a).
  { apply keeps_ret. simpl. rewrite elem_of_app, list_elem_of_singleton.
    intros [?|?]; done. }
  destruct (_ && _).
  { destruct (negb (has_finished a)); [|by apply keeps_ret].
    destruct (has_final_task a).
    - eapply keeps_bind with (P := fun _ => False); [apply keeps_raise|].
      intros t [].
    - keep keeps_update_gen as _.
      by apply keeps_ret. }
  keep keeps_count_requests as loc'.
  keep keeps_collect_inputs as task_inputs.
  keep keeps_cleanup_cache as _.
  eapply keeps_bind; [by apply keeps_task|]. intros t Ht.
  apply keeps_ret. by rewrite Ht.
Qed.

Lemma keeps_get_new_task depth_left :
  keeps (_get_new_task depth_left)
    (fun r => forall t, r = Some t -> task_generator t ≠ i).
Proof.
  induction depth_left as [|depth_left IH]; simpl; [apply keeps_raise|].
  keep keeps_get_world as self.
  keep keeps_get_list as tgs.
  eapply keeps_seq with (P := Forall2 (fun _ _ => True) tgs).
  { apply keeps_map_M. intros tg.
    keep keeps_get_gen as a. by apply keeps_ret. }
  intros all_dtypes.
  eapply keeps_bind.
  { apply keeps_for_each
      with (Pacc := fun loc => i ∉ sources loc)
           (Pret := fun t => task_generator t ≠ i).
    - intros acc x Hacc. by apply keeps_admission_step.
    - simpl. apply not_elem_of_nil. }
  intros [loc|t] Hr.
  2:{ apply keeps_ret. by intros ? [= <-]. }
  keep keeps_get_world as self'.
  destruct (sources loc) as [|s0 ss] eqn:Hsources.
  - destruct (external_waits loc); [by apply keeps_ret|].
    destruct (negb (is_nil (pending_tasks self'))); [by apply keeps_ret|].
    keep keeps_emit_status as _.
    keep keeps_emit as _. apply IH.
  - destruct (_ && _); [by apply keeps_ret|].
    eapply keeps_bind; [apply keeps_score_source|]. intros q0 Hq0.
    eapply keeps_bind; [apply keeps_map_M, keeps_score_source|].
    intros qs Hqs.
    assert ((max_by_score q0 qs).1 ≠ i) as Hne.
    { intros Heq. apply Hr. rewrite <- Heq.
      assert ((q0 :: qs).*1 = s0 :: ss) as <-.
      { simpl. f_equal; [done|]. clear -Hqs.
        induction Hqs; simpl; [done|]. by f_equal. }
      apply list_elem_of_fmap. eexists. split; [done|].
      apply max_by_score_elem. }
    eapply keeps_bind; [by apply keeps_task|]. intros t Ht.
    apply keeps_ret. intros ? [= <-]. by rewrite Ht.
Qed.
End blocked.

(* --------------------------------------------------------------------- *)
(* TaskGenerator.task: what it does to the generator                     *)
(* --------------------------------------------------------------------- *)

Section tracks.
Variable self : gen_ref.

Local Abbreviation tracks := (tracks_for self).

Lemma tracks_bind {A B} (m : M A) (k : A -> M B) Pre Mid Post :
  tracks m Pre Mid -> (forall a, tracks (k a) (Mid a) Post) ->
  tracks (bind m k) Pre Post.
Proof.
  intros Hm Hk w g Hg Hpre w' b. unfold bind.
  destruct (m w) as [w1 [a|e]] eqn:E; [|done]. intros Hrun.
  destruct (Hm w g Hg Hpre w1 a E) as (g1 & Hg1 & Hmid).
  by apply (Hk a w1 g1).
Qed.

(* One statement of a method, by the lemma [L] about it. *)
Tactic Notation "track" uconstr(L) :=
  eapply tracks_bind; [apply L|]; intros [].

Lemma tracks_ret {A} (a : A) (Pre : TaskGenerator -> Prop) Post :
  (forall g, Pre g -> Post a g) -> tracks (ret a) Pre Post.
Proof. intros H w g Hg Hpre w' a' [= <- <-]. eauto. Qed.

Lemma tracks_raise {A} e Pre (Post : A -> TaskGenerator -> Prop) :
  tracks (raise e) Pre Post.
Proof. intros w g Hg Hpre w' a' [=]. Qed.

Lemma tracks_weaken {A} (m : M A) (Pre Pre' : TaskGenerator -> Prop)
  (Post Post' : A -> TaskGenerator -> Prop) :
  tracks m Pre Post -> (forall g, Pre' g -> Pre g) ->
  (forall a g, Post a g -> Post' a g) -> tracks m Pre' Post'.
Proof.
  intros Hm H1 H2 w g Hg Hpre w' a Hrun.
  destruct (Hm w g Hg (H1 _ Hpre) w' a Hrun) as (g' & ? & ?). eauto.
Qed.

Lemma tracks_update_gen f Pre :
  tracks (update_gen self f) Pre (fun _ g' => exists g, Pre g /\ g' = f g).
Proof.
  intros w g Hg Hpre w' a. unfold update_gen, bind, get_gen. rewrite Hg.
  simpl. intros [= <- <-]. simpl. exists (f g).
  split; [apply lookup_insert_eq|eauto].
Qed.

Lemma tracks_get_gen Pre :
  tracks (get_gen self) Pre (fun a g' => a = g' /\ Pre g').
Proof.
  intros w g Hg Hpre w' a. unfold get_gen. rewrite Hg.
  intros [= <- <-]. eauto.
Qed.

Lemma tracks_assert c msg Pre :
  tracks (assert c msg) Pre (fun _ g' => c = true /\ Pre g').
Proof.
  intros w g Hg Hpre w' a. destruct c; simpl; [|done].
  intros [= <- <-]. eauto.
Qed.

(* A computation that leaves the object store alone. *)
Lemma tracks_frame {A} (m : M A) Pre :
  (forall w w' a, m w = (w', Ok a) -> gen_objs w' = gen_objs w) ->
  tracks m Pre (fun _ g' => Pre g').
Proof.
  intros Hm w g Hg Hpre w' a Hrun. exists g.
  by rewrite (Hm _ _ _ Hrun).
Qed.

Lemma deliver_inputs_frame r inputs w w' a :
  deliver_inputs r inputs w = (w', Ok a) -> gen_objs w' = gen_objs w.
Proof.
  unfold deliver_inputs, bind, get_gen.
  destruct (gen_objs w !! r) as [g|]; [|done].
  destruct (negb (defines_deliver_inputs g)); [done|].
  destruct inputs; [|done]. by intros [= <- <-].
Qed.

Lemma kwargs_frame d w w' a :
  kwargs_with_chunk_i d w = (w', Ok a) -> gen_objs w' = gen_objs w.
Proof.
  unfold kwargs_with_chunk_i. case_bool_decide; [done|]. by intros [= <- <-].
Qed.

Lemma all_M_raise_frame {A} (l : list A) (f : A -> M bool) w w' b :
  (forall x, f x = raise TypeError) ->
  all_M l f w = (w', Ok b) -> gen_objs w' = gen_objs w.
Proof.
  intros Hf. destruct l as [|x l]; simpl; [by intros [= <- <-]|].
  unfold bind. rewrite Hf. done.
Qed.

(* The generator after task() returned a task, in terms of the generator
   before: the chunk counter went up by one, the task carries the new
   count, and a generator that is not parallel waits for that chunk. *)
Lemma task_tracks (inputs : option (pydict pyval)) (g0 : TaskGenerator) :
  tracks (TaskGenerator_task self inputs) (fun g => g = g0)
    (fun t g' =>
       task_generator t = self /\
       task_chunk_i t = chunk_i g0 + 1 /\
       task_is_final t = false /\
       chunk_i g' = chunk_i g0 + 1 /\
       need_result_chunk g0 < chunk_i g0 + 1 /\
       parallel g' = parallel g0 /\
       dtypes g' = dtypes g0 /\
       need_result_chunk g' =
         (if parallel g0 then need_result_chunk g0 else chunk_i g0 + 1)).
Proof.
  unfold TaskGenerator_task.
  track tracks_update_gen.
  eapply tracks_bind; [apply tracks_get_gen|]. intros a.
  track tracks_assert.
  track tracks_assert.
  eapply tracks_bind
    with (Mid := fun _ g' =>
            g' = (if parallel g0 then set_chunk_i (chunk_i g0 + 1) g0
                  else set_need_result_chunk (chunk_i g0 + 1)
                         (set_chunk_i (chunk_i g0 + 1) g0)) /\
            a = set_chunk_i (chunk_i g0 + 1) g0 /\
            need_result_chunk g0 < chunk_i g0 + 1).
  { destruct (parallel a) eqn:Hpar; simpl.
    - apply tracks_ret. intros g (_ & Hlt & -> & g1 & -> & ->).
      simpl in *. rewrite Hpar. apply Z.ltb_lt in Hlt. done.
    - track tracks_update_gen.
      eapply tracks_weaken;
        [apply tracks_frame, deliver_inputs_frame|intros g Hg; exact Hg|].
      intros _ g (g1 & (_ & Hlt & -> & g2 & -> & ->) & ->).
      simpl in *. rewrite Hpar. apply Z.ltb_lt in Hlt. done. }
  intros [].
  eapply tracks_bind
    with (Mid := fun _ g' =>
            chunk_i g' = chunk_i g0 + 1 /\
            need_result_chunk g0 < chunk_i g0 + 1 /\
            parallel g' = parallel g0 /\
            dtypes g' = dtypes g0 /\
            need_result_chunk g' =
              (if parallel g0 then need_result_chunk g0
               else chunk_i g0 + 1) /\
            chunk_i a = chunk_i g0 + 1).
  2:{ intros task_f. unfold Task_init.
      eapply tracks_bind; [apply tracks_get_gen|]. intros a'.
      apply tracks_ret. intros g (-> & H). simpl. tauto. }
  assert (forall g,
            g = (if parallel g0 then set_chunk_i (chunk_i g0 + 1) g0
                 else set_need_result_chunk (chunk_i g0 + 1)
                        (set_chunk_i (chunk_i g0 + 1) g0)) /\
            a = set_chunk_i (chunk_i g0 + 1) g0 /\
            need_result_chunk g0 < chunk_i g0 + 1 ->
            chunk_i g = chunk_i g0 + 1 /\
            need_result_chunk g0 < chunk_i g0 + 1 /\
            parallel g = parallel g0 /\
            dtypes g = dtypes g0 /\
            need_result_chunk g =
              (if parallel g0 then need_result_chunk g0
               else chunk_i g0 + 1) /\
            chunk_i a = chunk_i g0 + 1) as Hstate.
  { intros g (-> & -> & Hlt).
    destruct (parallel g0) eqn:Hpar; simpl; rewrite ?Hpar; done. }
  destruct (is_source a).
  { track tracks_assert.
    apply tracks_ret. intros g [_ Hg]. by apply Hstate. }
  destruct inputs as [d|]; [|apply tracks_raise].
  track tracks_assert.
  eapply tracks_bind.
  { apply tracks_frame. intros w w' b. by apply all_M_raise_frame. }
  intros present.
  track tracks_assert.
  destruct (String.eqb (input_delivery a) "direct").
  - eapply tracks_bind; [apply tracks_frame, kwargs_frame|]. intros [].
    track tracks_update_gen.
    apply tracks_ret. intros g (g1 & (_ & _ & Hg1) & Hg).
    apply Hstate in Hg1. rewrite Hg. exact Hg1.
  - eapply tracks_bind; [apply tracks_frame, kwargs_frame|]. intros [].
    eapply tracks_bind.
    { apply tracks_frame. intros w w' u. unfold receive_inputs, ret.
      by intros [= <- _]. }
    intros []. apply tracks_ret. intros g (_ & _ & Hg). by apply Hstate.
Qed.
End tracks.

Lemma task_Ok_alive self inputs w w1 t :
  TaskGenerator_task self inputs w = (w1, Ok t) ->
  is_Some (gen_objs w !! self).
Proof.
  unfold TaskGenerator_task. unfold bind at 1. unfold update_gen, bind, get_gen.
  destruct (gen_objs w !! self); [eauto|done].
Qed.

Lemma not_landed_blocked (w : World) (g : TaskGenerator) :
  landed w g (need_result_chunk g) = false ->
  forall dt dts k, dtypes g = dt :: dts -> frontier_of w dt = Some k ->
                   k < need_result_chunk g.
Proof.
  unfold landed. intros Hl dt dts k Hd Hf. rewrite Hd, Hf in Hl.
  by apply Z.leb_gt in Hl.
Qed.

(* ===================================================================== *)
(* The pipeline S -> T -> K, step by step                                *)
(* ===================================================================== *)

(* TaskGenerator.__init__ raises exactly for a generator that is not
   parallel and whose input delivery is not direct. *)
Lemma TaskGenerator_init_raises (self : TaskGenerator) :
  (exists e, TaskGenerator_init self = Raise e) <->
  input_delivery self ≠ "direct" /\ parallel self = false.
Proof.
  unfold TaskGenerator_init.
  destruct (String.eqb_spec (input_delivery self) "direct") as [->|Hne];
    destruct (parallel self); simpl; split;
    try (intros [e [=]]); try (intros [? ?]); try done; eauto.
Qed.

(** C9 (the code at the two staged generators). A parallel generator with
    staged delivery is constructed without an error, and a generator that
    is not parallel is refused staged delivery. *)
Theorem init_refuses_sequential_staged :
  TaskGenerator_init (staged true) = Ok tt /\
  TaskGenerator_init (staged false) =
    Raise (RuntimeError
      "Cannot parallelize a TaskGenerator with indirect input delivery.").
Proof. split; reflexivity. Qed.

(* Each task carries the count of the generator plus one, and the count
   follows. *)
Lemma task_chunk_i_next (w : World) (self : gen_ref)
  (inputs : option (pydict pyval)) (g0 : TaskGenerator) (w1 : World)
  (t : Task) :
  gen_objs w !! self = Some g0 ->
  TaskGenerator_task self inputs w = (w1, Ok t) ->
  task_chunk_i t = chunk_i g0 + 1 /\
  exists g1, gen_objs w1 !! self = Some g1 /\ chunk_i g1 = task_chunk_i t.
Proof.
  intros Hg0 Hrun.
  destruct (task_tracks self inputs g0 w g0 Hg0 eq_refl w1 t Hrun)
    as (g1 & Hg1 & _ & Hchunk & _ & Hcount & _).
  split; [done|]. exists g1. split; [done|]. congruence.
Qed.

(** C5 (the code at a fresh generator). The first task of the source S,
    whose chunk_i is the 0 of the class, carries chunk index 1; and once
    that chunk is drained into the store, the contiguous frontier, which
    waits for chunk 0, is still -1. *)
Theorem first_task_carries_chunk_one :
  (forall dts wants, chunk_i (TaskGenerator_class dts wants) = 0) /\
  chunk_i gen_S = 0 /\
  (exists w t,
     TaskGenerator_task ref_S None world_constructed = (w, Ok t) /\
     task_chunk_i t = 1) /\
  chunk_of world_drained "a" 1 <> None /\
  frontier_of world_drained "a" = Some (-1).
Proof.
  split; [reflexivity|].
  split; [reflexivity|]. split; [|split; [by vm_compute|reflexivity]].
  eexists _, _. split; [vm_compute; reflexivity|reflexivity].
Qed.

(** C1 (the code at the pipeline S, T, K). After the constructor, the store
    of a has S, which produces a, as its only registered consumer, and T,
    which wants a, is not registered; likewise the store of b has its
    producer T and not its consumer K. *)
Theorem init_registers_producers :
  dict_keys (stored_data world_constructed) = ["a"; "b"] /\
  wants_input gen_S = [] /\
  wants_input gen_T = [("a", 1)] /\
  wants_input gen_K = [("b", 1)] /\
  consumers_of world_constructed "a" = Some {[ ref_S := -1 ]} /\
  consumers_of world_constructed "b" = Some {[ ref_T := -1 ]}.
Proof. repeat split; by vm_compute. Qed.

(** C2 (the code at two drains). The drain stores the whole result map of
    the task under the chunk index, not the payload of the datatype; and
    when chunk 1 has landed before chunk 0, the drain of chunk 0 moves the
    frontier to 0 although chunks 0 and 1 are both present. *)
Theorem drain_stores_result_map :
  chunk_of world_drained "a" 1 = Some (PDict [("a", PArray [10])]) /\
  chunk_of world_drained "a" 1 <> Some (PArray [10]) /\
  chunk_of world_gap_filled "a" 0 = Some (PDict [("a", PArray [10])]) /\
  chunk_of world_gap_filled "a" 1 = Some (PDict [("a", PArray [20])]) /\
  frontier_of world_gap_filled "a" = Some 0.
Proof. repeat split; by vm_compute. Qed.

(** C3 (the code with the input of T present). Chunk 1 of a, the one chunk
    T wants, is in the store; the admission pass marks T as finished, gives
    it no task, marks nothing as seen by T, and returns the next task of
    the source instead.  Taken alone, the test for missing inputs raises
    TypeError and the fetch of the input raises IndexError. *)
Theorem admission_skips_ready_transform :
  wants_input gen_T = [("a", 1)] /\
  chunk_of world_drained "a" 1 <> None /\
  (exists w t,
     _get_new_task 10 world_drained = (w, Ok (Some t)) /\
     task_generator t = ref_S /\
     task_chunk_i t = 2 /\
     (has_finished <$> gen_objs w !! ref_T) = Some true /\
     (chunk_i <$> gen_objs w !! ref_T) = Some 0 /\
     consumers_of w "a" = Some {[ ref_S := -1 ]}) /\
  (count_requests gen_T (mkLocals [] [] []) world_drained).2
    = Raise TypeError /\
  (collect_inputs ref_T gen_T world_drained).2 = Raise IndexError.
Proof.
  split; [reflexivity|]. split; [by vm_compute|].
  split; [|split; reflexivity].
  eexists _, _. split; [vm_compute; reflexivity|]. repeat split; by vm_compute.
Qed.

(** C4 (the code with the input of T missing). Chunk 1 of a is not in the
    store; the step of the admission loop for T, with the exhausted_inputs
    of the pass, goes on to the next generator with no request recorded, and
    the loop that would record it raises TypeError at its membership
    test. *)
Theorem missing_input_records_no_request :
  wants_input gen_T = [("a", 1)] /\
  chunk_of world_constructed "a" 1 = None /\
  list_objs world_constructed !! 7%nat = Some [ref_K; ref_S; ref_T] /\
  (admission_step
     (concat (gen_dtypes world_constructed <$> [ref_K; ref_S; ref_T]))
     (mkLocals [] [] []) ref_T world_constructed).2
    = Ok (inl (mkLocals [] [] [])) /\
  (count_requests gen_T (mkLocals [] [] []) world_constructed).2
    = Raise TypeError.
Proof. repeat split; by vm_compute. Qed.

(** C6 (the code with a task in flight). With generators that have the
    attribute finished, exit_with_exception notifies the first generator
    and raises at once: the other two are not notified, the pending task is
    not cancelled and both pools keep running.  With the generators of this
    file, which have no such attribute, it raises AttributeError instead of
    the error it was given. *)
Theorem exit_with_exception_stops_early :
  (forall dts wants, finished (TaskGenerator_class dts wants) = None) /\
  (exists w,
     exit_with_exception (Exception "boom") "" world_in_flight_finished_attr
       = (w, Raise (Exception "boom")) /\
     log w = [EvPrint ""; EvFinish ref_K] /\
     pending_tasks w = [task_b_pending] /\
     threadpool w = PoolRunning /\
     processpool w = PoolRunning) /\
  (exit_with_exception (Exception "boom") "" world_in_flight).2
    = Raise AttributeError.
Proof.
  split; [reflexivity|]. split; [|reflexivity].
  eexists. split; [vm_compute; reflexivity|]. repeat split; by vm_compute.
Qed.

(* ===================================================================== *)
(* The general theorems at the pipeline                                  *)
(* ===================================================================== *)


Lemma Scheduler_init_sorts_in_place_witness :
  exists w' l',
    Scheduler_init 7%nat 5 world_objects = (w', Ok tt) /\
    task_generators w' = 7%nat /\
    list_objs w' !! 7%nat = Some l' /\
    l' ≡ₚ [ref_S; ref_T; ref_K] /\
    ascending (gen_key w') l' /\
    (forall k, filter (fun tg => gen_key w' tg = k) l'
               = filter (fun tg => gen_key w' tg = k) [ref_S; ref_T; ref_K]) /\
    gen_objs w' = gen_objs world_objects.
Proof.
  apply (Scheduler_init_sorts_in_place world_objects 7%nat 5
           [ref_S; ref_T; ref_K]).
  - reflexivity.
  - repeat constructor; by eexists.
Defined.


(* ===================================================================== *)
(* Further properties of the code                                        *)
(* ===================================================================== *)

(* --------------------------------------------------------------------- *)
(* Scheduler.__init__: the stores it creates                             *)
(* --------------------------------------------------------------------- *)

Lemma dict_get_None {V} (k : string) (d : pydict V) :
  dict_get k d = None <-> k ∉ dict_keys d.
Proof.
  induction d as [|[k' v] d IH]; simpl.
  - split; [intros _; apply not_elem_of_nil|done].
  - case_decide as Hk.
    + subst. split; [done|]. intros Hnot. exfalso. apply Hnot. left.
    + rewrite IH. rewrite not_elem_of_cons. tauto.
Qed.

Lemma dict_keys_set {V} (k : string) (v : V) (d : pydict V) :
  dict_keys (dict_set k v d)
  = if decide (k ∈ dict_keys d) then dict_keys d
    else (dict_keys d ++ [k])%list.
Proof.
  induction d as [|[k' v'] d IH].
  - destruct (decide (k ∈ dict_keys (@nil (string * V)))) as [Hin|_];
      [|done].
    by apply elem_of_nil in Hin.
  - change (dict_keys ((k', v') :: d)) with (k' :: dict_keys d).
    change (dict_set k v ((k', v') :: d))
      with (if decide (k = k') then (k, v) :: d
            else (k', v') :: dict_set k v d).
    destruct (decide (k = k')) as [->|Hk].
    + destruct (decide (k' ∈ k' :: dict_keys d)) as [_|Hout]; [done|].
      exfalso. apply Hout. left.
    + change (dict_keys ((k', v') :: dict_set k v d))
        with (k' :: dict_keys (dict_set k v d)).
      rewrite IH.
      destruct (decide (k ∈ dict_keys d)) as [Hin|Hout];
        destruct (decide (k ∈ k' :: dict_keys d)) as [Hin'|Hout'];
        try done.
      * exfalso. apply Hout'. by right.
      * apply elem_of_cons in Hin' as [?|?]; done.
Qed.

Lemma dict_set_NoDup {V} (k : string) (v : V) (d : pydict V) :
  NoDup (dict_keys d) -> NoDup (dict_keys (dict_set k v d)).
Proof.
  intros Hd. rewrite dict_keys_set. case_decide as Hk; [done|].
  apply NoDup_app. split; [done|]. split; [|apply NoDup_singleton].
  intros x Hx Hx'. apply list_elem_of_singleton in Hx'. by subst.
Qed.

Lemma who_wants_of_NoDup w l who :
  NoDup (dict_keys who) -> NoDup (dict_keys (who_wants_of w l who)).
Proof.
  unfold who_wants_of. revert who.
  induction l as [|tg l IH]; intros who Hwho; simpl; [done|].
  apply IH. generalize (gen_dtypes w tg). intros dts. revert who Hwho.
  induction dts as [|dt dts IHd]; intros who Hwho; simpl; [done|].
  apply IHd. by apply dict_set_NoDup.
Qed.

Lemma who_wants_of_nonempty w l who dt tgs :
  (forall dt tgs, dict_get dt who = Some tgs -> tgs ≠ []) ->
  dict_get dt (who_wants_of w l who) = Some tgs -> tgs ≠ [].
Proof.
  unfold who_wants_of. revert who.
  induction l as [|tg l IH]; intros who Hwho; simpl; [apply Hwho|].
  apply IH. generalize (gen_dtypes w tg). intros dts. revert who Hwho.
  induction dts as [|dt0 dts IHd]; intros who Hwho; simpl; [done|].
  apply IHd. intros dt' tgs'. unfold who_wants_append.
  destruct (decide (dt0 = dt')) as [->|Hne].
  - rewrite dict_get_set_eq. intros [= <-].
    by destruct (default [] (dict_get dt' who)).
  - rewrite dict_get_set_ne by done. apply Hwho.
Qed.

(** X1. With max_workers positive, Scheduler.__init__ returns for a list
    of live generators and leaves max_workers as given, no pending task,
    one store per produced datatype and no other,
    each under its own name, without chunks, with the frontier at -1, and
    with a consumer entry, at -1, for exactly the generators of the list
    that have the datatype among their dtypes. *)
Theorem Scheduler_init_fresh_stores (w : World) (r : list_ref)
  (workers : Z) (l : list gen_ref) :
  list_objs w !! r = Some l ->
  all_alive w l ->
  0 < workers ->
  exists w',
    Scheduler_init r workers w = (w', Ok tt) /\
    pending_tasks w' = [] /\
    max_workers w' = workers /\
    NoDup (dict_keys (stored_data w')) /\
    forall dt,
      match dict_get dt (stored_data w') with
      | Some d =>
          (exists tg, tg ∈ l /\ dt ∈ gen_dtypes w tg) /\
          sd_dtype d = dt /\ stored d = ∅ /\ last_contiguous d = -1 /\
          source_exhausted d = false /\
          forall tg, seen_by_consumers d !! tg
                     = if decide (tg ∈ l /\ dt ∈ gen_dtypes w tg)
                       then Some (-1) else None
      | None => forall tg, tg ∈ l -> dt ∉ gen_dtypes w tg
      end.
Proof.
  intros Hr Hl Hworkers. exists (after_init w r workers l).
  split; [by apply Scheduler_init_run|].
  split; [done|]. split; [done|].
  set (who := who_wants_of w (sort_with (gen_key w) l) []).
  assert (forall dt tg, listed who dt tg <-> tg ∈ l /\ dt ∈ gen_dtypes w tg)
    as Hlisted.
  { intros dt tg. unfold who. rewrite listed_who_wants_of. split.
    - intros [(tgs & [=] & _)|[Hin Hdt]]. split; [|done].
      by rewrite <- (sort_with_perm (gen_key w) l).
    - intros [Hin Hdt]. right. split; [|done].
      by rewrite (sort_with_perm (gen_key w) l). }
  split.
  - unfold after_init; simpl. fold who.
    assert (dict_keys ((fun '(dt, tgs) => (dt, StoredData_init dt tgs))
                         <$> who) = dict_keys who) as ->.
    { unfold dict_keys. rewrite <- list_fmap_compose.
      apply list_fmap_ext. by intros i [dt tgs] _. }
    apply who_wants_of_NoDup. constructor.
  - intros dt. unfold after_init; simpl. fold who. rewrite dict_get_stores.
    destruct (dict_get dt who) as [tgs|] eqn:Hget; simpl.
    + assert (tgs ≠ []) as Hne.
      { eapply (who_wants_of_nonempty w _ [] dt); [done|exact Hget]. }
      split.
      { destruct tgs as [|tg tgs]; [done|]. exists tg.
        apply Hlisted. exists (tg :: tgs). split; [done|left]. }
      repeat (split; [done|]). intros tg.
      change (seen_by_consumers (StoredData_init dt tgs) !! tg
              = if decide (tg ∈ l /\ dt ∈ gen_dtypes w tg)
                then Some (-1) else None).
      rewrite StoredData_init_consumers.
      destruct (decide (tg ∈ tgs)) as [Hin|Hout].
      * rewrite decide_True by done.
        rewrite decide_True; [done|]. apply Hlisted. by exists tgs.
      * rewrite decide_False by done.
        rewrite decide_False; [done|]. intros Hp. apply Hlisted in Hp.
        destruct Hp as (tgs' & Hget' & Hin'). congruence.
    + intros tg Hin Hdt.
      assert (listed who dt tg) as (tgs & Hget' & _) by by apply Hlisted.
      congruence.
Qed.

(** X17. With max_workers zero or negative, Scheduler.__init__ does not
    return: the constructor of the process pool raises ValueError.  By
    then max_workers and task_generators are assigned, the caller's list
    is sorted and pending_tasks is empty; no pool and no store has been
    assigned, and no generator has changed. *)
Theorem init_without_workers_raises (w : World) (r : list_ref)
  (workers : Z) (l : list gen_ref) :
  list_objs w !! r = Some l ->
  all_alive w l ->
  workers <= 0 ->
  exists w',
    Scheduler_init r workers w = (w', Raise ValueError) /\
    max_workers w' = workers /\
    task_generators w' = r /\
    list_objs w' !! r = Some (sort_with (gen_key w) l) /\
    pending_tasks w' = [] /\
    stored_data w' = stored_data w /\
    threadpool w' = threadpool w /\
    processpool w' = processpool w /\
    gen_objs w' = gen_objs w.
Proof.
  intros Hr Hl Hworkers. exists (init_refused w r workers l).
  split; [by apply Scheduler_init_refuses|].
  split_and!; first [done|apply lookup_insert_eq].
Qed.

(* --------------------------------------------------------------------- *)
(* _cleanup_cache: what a pass keeps                                     *)
(* --------------------------------------------------------------------- *)

Lemma cleanup_values_Ok (ds ds' : pydict StoredData) :
  cleanup_values ds = (ds', Ok tt) ->
  Forall2 (fun kd kd' => kd'.1 = kd.1 /\ collected kd.2 kd'.2) ds ds'.
Proof.
  intros Hrun. pose proof (cleanup_values_spec ds) as Hspec.
  by rewrite Hrun in Hspec.
Qed.

Lemma Forall2_dict_get {V} (R : V -> V -> Prop) (ds ds' : pydict V) k d :
  Forall2 (fun kd kd' => kd'.1 = kd.1 /\ R kd.2 kd'.2) ds ds' ->
  dict_get k ds = Some d ->
  exists d', dict_get k ds' = Some d' /\ R d d'.
Proof.
  induction 1 as [|[k1 d1] [k2 d2] ds ds' [Hk HR] _ IH]; simpl; [done|].
  simpl in Hk, HR. subst k2. case_decide; [|done].
  intros [= <-]. eauto.
Qed.

Lemma Forall2_dict_keys {V} (R : V -> V -> Prop) (ds ds' : pydict V) :
  Forall2 (fun kd kd' => kd'.1 = kd.1 /\ R kd.2 kd'.2) ds ds' ->
  dict_keys ds' = dict_keys ds.
Proof.
  induction 1 as [|[k1 d1] [k2 d2] ds ds' [Hk _] _ IH]; simpl; [done|].
  simpl in Hk. by f_equal.
Qed.

(** X2. A garbage-collection pass that completes changes nothing but the
    chunks of the stores: every store keeps its place, its consumers, its
    frontier, and exactly the chunks whose index is above the least
    frontier its consumers have seen, each with the payload it had. *)
Theorem cleanup_cache_keeps_unseen (w w' : World) :
  _cleanup_cache w = (w', Ok tt) ->
  w' = set_stored_data (stored_data w') w /\
  dict_keys (stored_data w') = dict_keys (stored_data w) /\
  forall dt d, dict_get dt (stored_data w) = Some d ->
    exists d' m,
      dict_get dt (stored_data w') = Some d' /\
      is_min_seen d m /\
      sd_dtype d' = sd_dtype d /\
      seen_by_consumers d' = seen_by_consumers d /\
      last_contiguous d' = last_contiguous d /\
      source_exhausted d' = source_exhausted d /\
      forall k, stored d' !! k
                = if decide (m < k) then stored d !! k else None.
Proof.
  unfold _cleanup_cache.
  destruct (cleanup_values (stored_data w)) as [ds r] eqn:Hrun.
  intros [= <- ->]. apply cleanup_values_Ok in Hrun.
  split; [done|]. split; [by eapply Forall2_dict_keys|].
  intros dt d Hd.
  destruct (Forall2_dict_get _ _ _ _ _ Hrun Hd) as (d' & Hd' & m & Hm & ->).
  eexists _, m. split; [exact Hd'|]. split; [done|].
  repeat (split; [done|]). intros k. simpl.
  destruct (stored d !! k) as [v|] eqn:Hk.
  - destruct (decide (m < k)) as [Hlt|Hge].
    + by apply map_lookup_filter_Some.
    + apply map_lookup_filter_None. right. intros v' Hv'. simpl.
      by intros ?.
  - assert (filter (fun kv : Z * pyval => m < kv.1) (stored d) !! k = None)
      as ->; [|by destruct (decide (m < k))].
    apply map_lookup_filter_None. by left.
Qed.

Lemma cleanup_values_again (ds ds' : pydict StoredData) :
  cleanup_values ds = (ds', Ok tt) -> cleanup_values ds' = (ds', Ok tt).
Proof.
  revert ds'. induction ds as [|[k d] ds IH]; intros ds'; simpl.
  - by intros [= <-].
  - destruct (size (seen_by_consumers d) =? 0)%nat eqn:Hsz; [done|].
    destruct (min_seen (seen_by_consumers d)) as [m|] eqn:Hmin; [|done].
    destruct (cleanup_values ds) as [rest [[]|e]]; [|done].
    intros [= <-]. simpl. rewrite Hsz, Hmin, (IH rest eq_refl).
    do 3 f_equal. unfold set_stored; simpl. f_equal.
    apply map_filter_id. intros i x Hx.
    by apply map_lookup_filter_Some in Hx as [_ ?].
Qed.

(** X3. Garbage collection is idempotent: a second pass right after a
    pass that completed completes too and changes nothing. *)
Theorem cleanup_cache_idempotent (w w' : World) :
  _cleanup_cache w = (w', Ok tt) -> _cleanup_cache w' = (w', Ok tt).
Proof.
  unfold _cleanup_cache.
  destruct (cleanup_values (stored_data w)) as [ds r] eqn:Hrun.
  intros [= <- ->]. simpl. by rewrite (cleanup_values_again _ _ Hrun).
Qed.

(* --------------------------------------------------------------------- *)
(* TaskGenerator.task: when it returns, and what it leaves               *)
(* --------------------------------------------------------------------- *)

Lemma set_wants_input_same (g : TaskGenerator) :
  set_wants_input (wants_input g) g = g.
Proof. by destruct g. Qed.

Lemma update_gen_Ok (w : World) (r : gen_ref) (g : TaskGenerator) f :
  gen_objs w !! r = Some g ->
  update_gen r f w = (set_gen_objs (<[r := f g]> (gen_objs w)) w, Ok tt).
Proof.
  intros Hg. unfold update_gen.
  by rewrite (bind_Ok _ _ _ _ _ (get_gen_Ok _ _ _ Hg)).
Qed.

Lemma bind_Raise {A B} (m : M A) (k : A -> M B) w w1 e :
  m w = (w1, Raise e) -> bind m k w = (w1, Raise e).
Proof. unfold bind. by intros ->. Qed.

Lemma deliver_inputs_run (w : World) (r : gen_ref) (g : TaskGenerator)
  (inputs : option (pydict pyval)) :
  gen_objs w !! r = Some g ->
  deliver_inputs r inputs w
  = if negb (defines_deliver_inputs g) then (w, Raise AttributeError)
    else match inputs with
         | None => (w, Raise TypeError)
         | Some _ => (w, Ok tt)
         end.
Proof.
  intros Hg. unfold deliver_inputs.
  rewrite (bind_Ok _ _ _ _ _ (get_gen_Ok _ _ _ Hg)).
  destruct (negb (defines_deliver_inputs g)); [done|]. by destruct inputs.
Qed.

Lemma Task_init_run (w : World) (r : gen_ref) (g : TaskGenerator) content
  chunk is_final future :
  gen_objs w !! r = Some g ->
  Task_init content r chunk is_final future w
  = (w, Ok (mkTask content r chunk (dtypes g) (submit_to g) is_final future)).
Proof.
  intros Hg. unfold Task_init.
  by rewrite (bind_Ok _ _ _ _ _ (get_gen_Ok _ _ _ Hg)).
Qed.

Lemma existsb_str_eq_want (k : string) (l : list (string * Z)) :
  existsb (str_eq_want k) l = false.
Proof. induction l as [|x l IH]; simpl; [done|]. exact IH. Qed.

(* A call that raised after the counter has advanced. *)
Local Ltac raised :=
  eexists _, _; split; [reflexivity|first [by left|by right]].

Lemma task_run (w : World) (self : gen_ref) (g : TaskGenerator)
  (inputs : option (pydict pyval)) :
  gen_objs w !! self = Some g ->
  if task_returns g inputs
  then TaskGenerator_task self inputs w
       = (set_gen_objs (<[self := task_started g]> (gen_objs w)) w,
          Ok (task_made self g))
  else exists e g',
         TaskGenerator_task self inputs w
         = (set_gen_objs (<[self := g']> (gen_objs w)) w, Raise e) /\
         (g' = set_chunk_i (chunk_i g + 1) g \/ g' = task_started g).
Proof.
  intros Hg. unfold task_returns, TaskGenerator_task, task_started.
  set (g1 := set_chunk_i (chunk_i g + 1) g).
  set (w1 := set_gen_objs (<[self := g1]> (gen_objs w)) w).
  assert (gen_objs w1 !! self = Some g1) as Hg1 by apply lookup_insert_eq.
  rewrite (bind_Ok _ _ w w1 tt
             (update_gen_Ok w self g
                (fun g => set_chunk_i (chunk_i g + 1) g) Hg)).
  rewrite (bind_Ok _ _ _ _ _ (get_gen_Ok _ _ _ Hg1)).
  change (need_result_chunk g1) with (need_result_chunk g).
  change (chunk_i g1) with (chunk_i g + 1).
  change (has_finished g1) with (has_finished g).
  change (parallel g1) with (parallel g).
  change (is_source g1) with (is_source g).
  change (wants_input g1) with (wants_input g).
  change (input_delivery g1) with (input_delivery g).
  destruct (need_result_chunk g <? chunk_i g + 1); simpl; [|raised].
  destruct (has_finished g); simpl; [raised|].
  do 2 (erewrite bind_Ok by reflexivity).
  (* the block of a generator that is not parallel *)
  set (g2 := if parallel g then g1
             else set_need_result_chunk (chunk_i g + 1) g1).
  set (w2 := set_gen_objs (<[self := g2]> (gen_objs w)) w).
  assert (gen_objs w2 !! self = Some g2) as Hg2 by apply lookup_insert_eq.
  assert (if parallel g ||
             defines_deliver_inputs g &&
             match inputs with Some _ => true | None => false end
          then (if negb (parallel g)
                then update_gen self (set_need_result_chunk (chunk_i g + 1));;
                     deliver_inputs self inputs
                else ret ()) w1 = (w2, Ok tt)
          else exists e,
                 (if negb (parallel g)
                  then update_gen self
                         (set_need_result_chunk (chunk_i g + 1));;
                       deliver_inputs self inputs
                  else ret ()) w1 = (w2, Raise e)) as Hblock.
  { unfold w2, g2. destruct (parallel g); simpl.
    - reflexivity.
    - set (w2' := set_gen_objs
                    (<[self := set_need_result_chunk (chunk_i g + 1) g1]>
                       (gen_objs w1)) w1).
      assert (gen_objs w2' !! self
              = Some (set_need_result_chunk (chunk_i g + 1) g1)) as Hg2'
        by apply lookup_insert_eq.
      rewrite (bind_Ok _ _ w1 w2' tt (update_gen_Ok w1 self g1 _ Hg1)).
      rewrite (deliver_inputs_run _ _ _ inputs Hg2').
      change (defines_deliver_inputs
                (set_need_result_chunk (chunk_i g + 1) g1))
        with (defines_deliver_inputs g).
      assert (w2' = w2) as ->
        by (unfold w2', w1; simpl; by rewrite insert_insert_eq).
      destruct (defines_deliver_inputs g); simpl; [|by eexists].
      destruct inputs; [done|by eexists]. }
  destruct (parallel g ||
            defines_deliver_inputs g &&
            match inputs with Some _ => true | None => false end);
    simpl.
  2:{ destruct Hblock as (e & Hblock).
      rewrite (bind_Raise _ _ _ _ _ Hblock). raised. }
  rewrite (bind_Ok _ _ _ _ _ Hblock). clear Hblock.
  assert (dtypes g2 = dtypes g /\ submit_to g2 = submit_to g /\
          wants_input g2 = wants_input g /\ chunk_i g2 = chunk_i g + 1)
    as (Hdt2 & Hsub2 & Hwants2 & Hchunk2)
    by (unfold g2; by destruct (parallel g)).
  destruct (is_source g).
  { destruct inputs as [d|]; simpl.
    - erewrite bind_Raise by reflexivity. raised.
    - erewrite bind_Ok by reflexivity.
      rewrite (Task_init_run _ _ _ _ _ _ _ Hg2). unfold task_made.
      by rewrite Hdt2, Hsub2. }
  destruct inputs as [d|]; simpl.
  2:{ erewrite bind_Raise by reflexivity. raised. }
  destruct d as [|[k v] d]; simpl.
  2:{ rewrite existsb_str_eq_want.
      simpl. erewrite bind_Raise by reflexivity. raised. }
  destruct (wants_input g) as [|want wants] eqn:Hwants; simpl.
  2:{ erewrite bind_Raise by reflexivity. raised. }
  destruct (String.eqb (input_delivery g) "direct").
  - erewrite bind_Ok.
    2:{ do 4 (erewrite bind_Ok by reflexivity).
        erewrite bind_Ok by (apply update_gen_Ok; exact Hg2). reflexivity. }
    erewrite Task_init_run by apply lookup_insert_eq.
    unfold task_made, w2; simpl. rewrite insert_insert_eq.
    assert (set_wants_input [] g2 = g2) as ->.
    { transitivity (set_wants_input (wants_input g2) g2);
        [by rewrite Hwants2|apply set_wants_input_same]. }
    by rewrite Hdt2, Hsub2.
  - erewrite bind_Ok by reflexivity.
    rewrite (Task_init_run _ _ _ _ _ _ _ Hg2). unfold task_made.
    by rewrite Hdt2, Hsub2.
Qed.

(* What a call of task() that returned started from, and what it did. *)
Lemma task_Ok_inv (w : World) (self : gen_ref)
  (inputs : option (pydict pyval)) (w' : World) (t : Task) :
  TaskGenerator_task self inputs w = (w', Ok t) ->
  exists g,
    gen_objs w !! self = Some g /\
    task_returns g inputs = true /\
    t = task_made self g /\
    w' = set_gen_objs (<[self := task_started g]> (gen_objs w)) w.
Proof.
  intros Hrun. destruct (task_Ok_alive _ _ _ _ _ Hrun) as [g Hg].
  exists g. pose proof (task_run w self g inputs Hg) as Hcase.
  destruct (task_returns g inputs).
  - rewrite Hrun in Hcase. injection Hcase as -> ->. done.
  - destruct Hcase as (e & g' & Hraise & _). congruence.
Qed.

(** X4. task() returns a task exactly when the generator exists, both of
    its asserts hold, a generator that is not parallel has a deliver_inputs
    and is given a dict, a source is given None, and any other generator is
    given an empty dict and wants no input.  It then returns the task for
    the next chunk index, not final and without a future, and changes
    nothing but the generator: its counter, and need_result_chunk if it is
    not parallel. *)
Theorem task_returns_exactly (w : World) (self : gen_ref)
  (inputs : option (pydict pyval)) (w' : World) (t : Task) :
  TaskGenerator_task self inputs w = (w', Ok t) <->
  exists g,
    gen_objs w !! self = Some g /\
    task_returns g inputs = true /\
    t = task_made self g /\
    w' = set_gen_objs (<[self := task_started g]> (gen_objs w)) w.
Proof.
  split; [apply task_Ok_inv|].
  intros (g & Hg & Hret & -> & ->).
  pose proof (task_run w self g inputs Hg) as Hcase.
  by rewrite Hret in Hcase.
Qed.

(** X5. A source that is not parallel can never produce a task: task()
    raises for it, whatever inputs it is given and whatever else holds of
    it. *)
Theorem sequential_source_never_starts (w : World) (self : gen_ref)
  (g : TaskGenerator) :
  gen_objs w !! self = Some g ->
  is_source g = true ->
  parallel g = false ->
  forall inputs, exists w' e,
    TaskGenerator_task self inputs w = (w', Raise e).
Proof.
  intros Hg Hsrc Hpar inputs.
  pose proof (task_run w self g inputs Hg) as Hcase.
  assert (task_returns g inputs = false) as Hret.
  { unfold task_returns. rewrite Hsrc, Hpar.
    destruct inputs; simpl; [apply andb_false_r|].
    by rewrite !andb_false_r. }
  rewrite Hret in Hcase. destruct Hcase as (e & g' & Hraise & _). eauto.
Qed.

(** X6. Whatever task() does, it has used up a chunk index: also when it
    raises, the counter of the generator is one more than before, so the
    index of the call that failed is never given to a task. *)
Theorem task_always_counts (w : World) (self : gen_ref) (g : TaskGenerator)
  (inputs : option (pydict pyval)) (w' : World) (r : result Task) :
  gen_objs w !! self = Some g ->
  TaskGenerator_task self inputs w = (w', r) ->
  exists g', gen_objs w' !! self = Some g' /\ chunk_i g' = chunk_i g + 1.
Proof.
  intros Hg Hrun. pose proof (task_run w self g inputs Hg) as Hcase.
  destruct (task_returns g inputs).
  - rewrite Hrun in Hcase. injection Hcase as -> _. eexists.
    split; [apply lookup_insert_eq|]. unfold task_started.
    by destruct (parallel g).
  - destruct Hcase as (e & g' & Hraise & Hg').
    rewrite Hrun in Hraise. injection Hraise as -> _. exists g'.
    split; [apply lookup_insert_eq|]. unfold task_started in Hg'.
    destruct Hg' as [->| ->]; [done|]. by destruct (parallel g).
Qed.

(** X7. Two calls of task() on the same generator that both return, one
    right after the other, give consecutive chunk indices. *)
Theorem task_twice_consecutive (w : World) (self : gen_ref)
  (inputs1 inputs2 : option (pydict pyval)) (w1 w2 : World) (t1 t2 : Task) :
  TaskGenerator_task self inputs1 w = (w1, Ok t1) ->
  TaskGenerator_task self inputs2 w1 = (w2, Ok t2) ->
  task_chunk_i t2 = task_chunk_i t1 + 1.
Proof.
  intros Hrun1 Hrun2.
  apply task_Ok_inv in Hrun1 as (g & Hg & _ & -> & ->).
  apply task_Ok_inv in Hrun2 as (g1 & Hg1 & _ & -> & _).
  simpl in Hg1. rewrite lookup_insert_eq in Hg1. injection Hg1 as <-.
  simpl. unfold task_started. by destruct (parallel g).
Qed.

(* --------------------------------------------------------------------- *)
(* exit_with_exception                                                   *)
(* --------------------------------------------------------------------- *)

Lemma get_list_Ok (w : World) (r : list_ref) (l : list gen_ref) :
  list_objs w !! r = Some l -> get_list r w = (w, Ok l).
Proof. unfold get_list. by intros ->. Qed.

Lemma finish_on_exception_run (w : World) (tg : gen_ref)
  (g : TaskGenerator) (e : exn) :
  gen_objs w !! tg = Some g ->
  finish_on_exception tg e w
  = (set_log (log w ++ [EvFinish tg])%list w,
     match finish g with Some e2 => Raise e2 | None => Ok tt end).
Proof.
  intros Hg. unfold finish_on_exception.
  rewrite (bind_Ok _ _ w w g (get_gen_Ok _ _ _ Hg)).
  erewrite bind_Ok by reflexivity. by destruct (finish g).
Qed.

(* exit_with_exception with a generator in the list. *)
Lemma exit_raises (w : World) (exception : exn)
  (extra_message : string) (tg : gen_ref) (tgs : list gen_ref) :
  list_objs w !! task_generators w = Some (tg :: tgs) ->
  exists w' e,
    exit_with_exception exception extra_message w = (w', Raise e) /\
    (e = exception \/ e = AttributeError) /\
    pending_tasks w' = pending_tasks w /\
    threadpool w' = threadpool w /\
    processpool w' = processpool w /\
    stored_data w' = stored_data w /\
    gen_objs w' = gen_objs w /\
    forall tg', EvFinish tg' ∈ log w' -> EvFinish tg' ∈ log w \/ tg' = tg.
Proof.
  intros Hlist. unfold exit_with_exception.
  set (w1 := set_log (log w ++ [EvPrint extra_message])%list w).
  rewrite (bind_Ok (emit (EvPrint extra_message)) _ w w1 tt eq_refl).
  rewrite (bind_Ok get_world _ w1 w1 w1 eq_refl).
  rewrite (bind_Ok _ _ w1 w1 (tg :: tgs)
             (get_list_Ok w1 (task_generators w1) _ Hlist)).
  assert (forall tg', EvFinish tg' ∈ log w1 -> EvFinish tg' ∈ log w) as Hlog1.
  { intros tg' Hin. unfold w1 in Hin; simpl in Hin.
    apply elem_of_app in Hin as [?|Hin]; [done|].
    by apply list_elem_of_singleton in Hin. }
  assert (exists w' e,
            (g <- get_gen tg ;;
             match finished g return M unit with
             | None => raise AttributeError
             | Some fin =>
                 (if negb fin then
                    try_except (finish_on_exception tg exception)
                      (fun e =>
                         emit (EvPrint "Exceptional shutdown failed") ;;
                         emit (EvPrint "Got eanother xception"))
                  else ret tt) ;;
                 raise exception
             end) w1 = (w', Raise e) /\
            (e = exception \/ e = AttributeError) /\
            pending_tasks w' = pending_tasks w /\
            threadpool w' = threadpool w /\
            processpool w' = processpool w /\
            stored_data w' = stored_data w /\
            gen_objs w' = gen_objs w /\
            forall tg', EvFinish tg' ∈ log w' ->
                        EvFinish tg' ∈ log w \/ tg' = tg) as Hbody.
  { destruct (gen_objs w1 !! tg) as [g|] eqn:Hg.
    2:{ exists w1, AttributeError. split.
        - unfold bind, get_gen. by rewrite Hg.
        - repeat (split; [by auto|]). auto. }
    rewrite (bind_Ok _ _ w1 w1 g (get_gen_Ok _ _ _ Hg)).
    destruct (finished g) as [[|]|].
    - exists w1, exception. split; [reflexivity|].
      repeat (split; [by auto|]). auto.
    - unfold bind, try_except. cbn [negb].
      rewrite (finish_on_exception_run _ _ _ exception Hg).
      set (w2 := set_log (log w1 ++ [EvFinish tg])%list w1).
      assert (forall tg', EvFinish tg' ∈ log w2 ->
                          EvFinish tg' ∈ log w \/ tg' = tg) as Hlog2.
      { intros tg' Hin. unfold w2 in Hin; simpl in Hin.
        apply elem_of_app in Hin as [?|Hin]; [left; by apply Hlog1|].
        apply list_elem_of_singleton in Hin. right. congruence. }
      destruct (finish g) as [e2|]; simpl.
      + eexists _, exception. split; [reflexivity|].
        repeat (split; [by auto|]). simpl. intros tg' Hin.
        rewrite !elem_of_app, !list_elem_of_singleton in Hin.
        destruct_or!; first [by auto|right; congruence].
      + exists w2, exception. split; [reflexivity|].
        repeat (split; [by auto|]). auto.
    - exists w1, AttributeError. split; [reflexivity|].
      repeat (split; [by auto|]). auto. }
  destruct Hbody as (w' & e & Hbody & Hrest). exists w', e.
  split; [|exact Hrest].
  apply bind_Raise. simpl. apply bind_Raise. exact Hbody.
Qed.

(** X8. With at least one generator in the list, exit_with_exception never
    returns and never gets to its cleanup: it raises, either the error it
    was given or AttributeError, with the pending tasks, both pools, the
    stores and the generators as they were, and finish has been called at
    most on the first generator of the list. *)
Theorem exit_with_exception_always_raises (w : World) (exception : exn)
  (extra_message : string) (tg : gen_ref) (tgs : list gen_ref) :
  list_objs w !! task_generators w = Some (tg :: tgs) ->
  exists w' e,
    exit_with_exception exception extra_message w = (w', Raise e) /\
    (e = exception \/ e = AttributeError) /\
    pending_tasks w' = pending_tasks w /\
    threadpool w' = threadpool w /\
    processpool w' = processpool w /\
    stored_data w' = stored_data w /\
    gen_objs w' = gen_objs w /\
    forall tg', EvFinish tg' ∈ log w' -> EvFinish tg' ∈ log w \/ tg' = tg.
Proof. apply exit_raises. Qed.

Lemma cancel_all_run (ts : list Task) :
  Forall (fun t => is_Some (task_future t)) ts ->
  cancel_all ts
  = ((fun t => set_task_future (future_cancel <$> task_future t) t) <$> ts,
     Ok tt).
Proof.
  induction 1 as [|t ts [f Hf] _ IH]; simpl; [done|].
  by rewrite Hf, IH.
Qed.

Lemma exit_returns (w : World) (exception : exn) (extra_message : string) :
  list_objs w !! task_generators w = Some [] ->
  Forall (fun t => is_Some (task_future t)) (pending_tasks w) ->
  exit_with_exception exception extra_message w
  = (after_exit extra_message w, Ok tt).
Proof.
  intros Hlist Hfutures. unfold exit_with_exception.
  set (w1 := set_log (log w ++ [EvPrint extra_message])%list w).
  rewrite (bind_Ok (emit (EvPrint extra_message)) _ w w1 tt eq_refl).
  rewrite (bind_Ok get_world _ w1 w1 w1 eq_refl).
  rewrite (bind_Ok _ _ w1 w1 []
             (get_list_Ok w1 (task_generators w1) _ Hlist)).
  erewrite bind_Ok by reflexivity.
  unfold bind at 1. simpl. by rewrite (cancel_all_run _ Hfutures).
Qed.


(* --------------------------------------------------------------------- *)
(* _receive_from_done_tasks                                              *)
(* --------------------------------------------------------------------- *)

Lemma store_grows_refl (d : StoredData) : store_grows d d.
Proof. unfold store_grows. split_and!; [done..|lia|done]. Qed.

Lemma store_grows_trans (d1 d2 d3 : StoredData) :
  store_grows d1 d2 -> store_grows d2 d3 -> store_grows d1 d3.
Proof.
  intros (? & ? & ? & ? & H12) (? & ? & ? & ? & H23).
  unfold store_grows. split_and!; [congruence..|lia|auto].
Qed.

Lemma store_grows_landed_in (k : Z) (v : pyval) (d : StoredData) :
  store_grows d (landed_in k v d).
Proof.
  unfold store_grows, landed_in. simpl.
  destruct (last_contiguous d =? k - 1); simpl;
    (split_and!; [done..|lia|]); intros k' Hk';
    (destruct (decide (k = k')) as [->|Hne];
     [rewrite lookup_insert_eq; eauto|by rewrite lookup_insert_ne]).
Qed.

Lemma stores_grow_refl (ds : pydict StoredData) (dt : string) :
  option_Forall2 store_grows (dict_get dt ds) (dict_get dt ds).
Proof.
  destruct (dict_get dt ds); constructor. apply store_grows_refl.
Qed.

Lemma stores_grow_trans (o1 o2 o3 : option StoredData) :
  option_Forall2 store_grows o1 o2 -> option_Forall2 store_grows o2 o3 ->
  option_Forall2 store_grows o1 o3.
Proof.
  intros [d1 d2 H12|] H23; inversion H23; subst; constructor.
  by eapply store_grows_trans.
Qed.

Lemma receive_task_running (task : Task) (w : World) :
  still_running task -> receive_task task w = (w, Ok true).
Proof.
  intros (f & Hf & Hdone). unfold receive_task. by rewrite Hf, Hdone.
Qed.

(* A task that completed with a result: what the loop does with it. *)
Lemma receive_task_completed (task : Task) (res : pydict pyval) (w : World) :
  task_future task = Some (FFinished (Ok res)) ->
  (task_is_final task = true ->
   is_Some (gen_objs w !! task_generator task)) ->
  (task_dtypes task <> [] ->
   forall dt, dt ∈ dict_keys res -> is_Some (dict_get dt (stored_data w))) ->
  exists w',
    receive_task task w = (w', Ok false) /\
    pending_tasks w' = pending_tasks w /\
    gen_objs w'
    = (if task_is_final task
       then alter (set_is_finished (Some true)) (task_generator task)
              (gen_objs w)
       else gen_objs w) /\
    forall dt,
      dict_get dt (stored_data w')
      = if decide (task_dtypes task <> [] /\ dt ∈ dict_keys res)
        then landed_in (task_chunk_i task) (PDict res)
               <$> dict_get dt (stored_data w)
        else dict_get dt (stored_data w).
Proof.
  intros Hfut Hgen Hstores. unfold receive_task. rewrite Hfut. simpl.
  assert (exists w0,
            (if task_is_final task
             then update_gen (task_generator task)
                    (set_is_finished (Some true))
             else ret tt) w = (w0, Ok tt) /\
            pending_tasks w0 = pending_tasks w /\
            stored_data w0 = stored_data w /\
            gen_objs w0
            = (if task_is_final task
               then alter (set_is_finished (Some true)) (task_generator task)
                      (gen_objs w)
               else gen_objs w))
    as (w0 & Hmark & Hpend0 & Hstores0 & Hgens0).
  { destruct (task_is_final task); [|by exists w].
    destruct Hgen as [g Hg]; [done|].
    eexists. split; [by apply update_gen_Ok|]. simpl. split_and!; [done..|].
    apply map_eq. intros j.
    destruct (decide (task_generator task = j)) as [<-|Hne].
    - rewrite lookup_insert_eq, lookup_alter_eq. symmetry.
      exact (f_equal (fmap (set_is_finished (Some true))) Hg).
    - by rewrite lookup_insert_ne, lookup_alter_ne. }
  rewrite (bind_Ok _ _ _ _ _ Hmark).
  do 2 (erewrite bind_Ok by reflexivity).
  destruct (task_dtypes task) as [|dt0 dts] eqn:Hdts; simpl.
  { exists w0. split; [done|]. split_and!; [done..|]. intros dt.
    by rewrite Hstores0. }
  destruct (drain_items (task_chunk_i task) res res w0)
    as (w' & Hrun & Hgen' & Hpend' & Hget).
  { rewrite Hstores0. by apply Hstores. }
  exists w'. split.
  { erewrite bind_Ok by reflexivity. by erewrite bind_Ok by exact Hrun. }
  split_and!; [congruence..|]. intros dt. rewrite Hget, Hstores0.
  destruct (decide (dt ∈ dict_keys res)); case_decide as Hcase;
    [done| |by destruct Hcase|done].
  exfalso. by apply Hcase.
Qed.

Lemma receive_task_quietly (task : Task) (w : World) :
  drained_quietly w task ->
  exists w',
    receive_task task w = (w', Ok false) /\
    gen_objs w' = gen_objs w /\
    pending_tasks w' = pending_tasks w /\
    forall dt, option_Forall2 store_grows (dict_get dt (stored_data w))
                 (dict_get dt (stored_data w')).
Proof.
  intros (res & Hfut & Hfinal & Hstores).
  destruct (receive_task_completed task res w Hfut)
    as (w' & Hrun & Hpend & Hgens & Hget).
  { by rewrite Hfinal. }
  { intros Hdts. by destruct Hstores. }
  exists w'. rewrite Hfinal in Hgens. split_and!; [done..|].
  intros dt. rewrite Hget. case_decide; [|apply stores_grow_refl].
  destruct (dict_get dt (stored_data w)); constructor.
  apply store_grows_landed_in.
Qed.

Lemma task_done_running (t : Task) : still_running t -> task_done t = false.
Proof. intros (f & Hf & Hdone). unfold task_done. by rewrite Hf. Qed.

Lemma task_done_quietly (w : World) (t : Task) :
  drained_quietly w t -> task_done t = true.
Proof. intros (res & Hf & _). unfold task_done. by rewrite Hf. Qed.

Lemma drained_quietly_later (w w' : World) (t : Task) :
  (forall dt, option_Forall2 store_grows (dict_get dt (stored_data w))
                (dict_get dt (stored_data w'))) ->
  drained_quietly w t -> drained_quietly w' t.
Proof.
  intros Hgrow (res & Hf & Hfinal & Hstores). exists res.
  split_and!; [done..|]. destruct Hstores as [?|Hstores]; [by left|right].
  intros dt Hdt. destruct (Hstores dt Hdt) as [d Hd].
  specialize (Hgrow dt). rewrite Hd in Hgrow. inversion Hgrow. eauto.
Qed.

Lemma receive_one_Ok (still_pending : list nat) (i : nat) (task : Task)
  (w w1 : World) (stays : bool) :
  pending_tasks w !! i = Some task ->
  receive_task task w = (w1, Ok stays) ->
  receive_one still_pending i w
  = (w1, Ok (if stays then (still_pending ++ [i])%list else still_pending)).
Proof.
  intros Hi Hrun. by rewrite (receive_one_at _ _ _ _ Hi), (bind_Ok _ _ _ _ _ Hrun).
Qed.

(* Positions and the tasks at them. *)
Lemma length_snoc {A} (l : list A) (x : A) : length (l ++ [x]) = S (length l).
Proof. rewrite length_app. simpl. lia. Qed.

Lemma omap_lookup_kept (pre ts post : list Task) :
  omap (fun i => (pre ++ ts ++ post)%list !! i) (kept_from (length pre) ts)
  = filter (fun t => task_done t = false) ts.
Proof.
  revert pre. induction ts as [|t ts IH]; intros pre; simpl; [done|].
  specialize (IH (pre ++ [t])%list).
  rewrite length_snoc, <- app_assoc in IH. simpl in IH.
  destruct (task_done t) eqn:Hdone.
  - rewrite filter_cons_False by (by rewrite Hdone). exact IH.
  - rewrite filter_cons_True by done. simpl.
    rewrite list_lookup_middle by done. simpl. f_equal. exact IH.
Qed.

Lemma omap_lookup_seq (pre ts post : list Task) :
  omap (fun i => (pre ++ ts ++ post)%list !! i) (seq (length pre) (length ts))
  = ts.
Proof.
  revert pre. induction ts as [|t ts IH]; intros pre; simpl; [done|].
  specialize (IH (pre ++ [t])%list).
  rewrite length_snoc, <- app_assoc in IH. simpl in IH.
  rewrite list_lookup_middle by done. simpl. f_equal. exact IH.
Qed.

Lemma kept_from_running (k : nat) (ts : list Task) :
  Forall still_running ts -> kept_from k ts = seq k (length ts).
Proof.
  intros Hts. revert k. induction Hts as [|t ts Ht Hts IH]; intros k; simpl.
  - done.
  - by rewrite (task_done_running _ Ht), IH.
Qed.

(* The loop of the drain over a stretch of tasks that are running or end
   quietly. *)
Lemma drain_loop (pre ts post : list Task) (still_pending : list nat)
  (w : World) :
  pending_tasks w = (pre ++ ts ++ post)%list ->
  Forall (fun t => still_running t \/ drained_quietly w t) ts ->
  exists w',
    fold_M receive_one (seq (length pre) (length ts)) still_pending w
    = (w', Ok (still_pending ++ kept_from (length pre) ts)%list) /\
    gen_objs w' = gen_objs w /\
    pending_tasks w' = pending_tasks w /\
    forall dt, option_Forall2 store_grows (dict_get dt (stored_data w))
                 (dict_get dt (stored_data w')).
Proof.
  revert pre still_pending w.
  induction ts as [|t ts IH]; intros pre still_pending w Hpending Hts.
  { exists w. simpl. rewrite app_nil_r. split_and!; [done..|].
    intros dt. apply stores_grow_refl. }
  apply Forall_cons in Hts as [Ht Hts].
  assert (pending_tasks w !! length pre = Some t) as Hi
    by (rewrite Hpending; by apply list_lookup_middle).
  assert (exists w1 stays,
            receive_task t w = (w1, Ok stays) /\
            stays = negb (task_done t) /\
            gen_objs w1 = gen_objs w /\
            pending_tasks w1 = pending_tasks w /\
            forall dt, option_Forall2 store_grows
                         (dict_get dt (stored_data w))
                         (dict_get dt (stored_data w1)))
    as (w1 & stays & Hrun1 & -> & Hgen1 & Hpend1 & Hgrow1).
  { destruct Ht as [Ht|Ht].
    - exists w, true. rewrite (task_done_running _ Ht).
      split; [by apply receive_task_running|]. split_and!; [done..|].
      intros dt. apply stores_grow_refl.
    - destruct (receive_task_quietly t w Ht) as (w1 & ? & ? & ? & ?).
      exists w1, false. by rewrite (task_done_quietly _ _ Ht). }
  destruct (IH (pre ++ [t])%list
              (if negb (task_done t) then (still_pending ++ [length pre])%list
               else still_pending) w1)
    as (w' & Hrun & Hgen & Hpend & Hgrow).
  { rewrite Hpend1, Hpending. by rewrite <- app_assoc. }
  { eapply Forall_impl; [exact Hts|]. intros t' [?|?]; [by left|right].
    by eapply drained_quietly_later. }
  rewrite length_snoc in Hrun.
  exists w'. split_and!; [|congruence..|].
  - cbn [length seq fold_M].
    rewrite (bind_Ok _ _ _ _ _ (receive_one_Ok _ _ _ _ _ _ Hi Hrun1)), Hrun.
    cbn [kept_from].
    destruct (task_done t); simpl; [done|]. by rewrite <- app_assoc.
  - intros dt. eapply stores_grow_trans; [apply Hgrow1|apply Hgrow].
Qed.

(** X10. When every pending task is either still running or has completed
    with a result whose datatypes all have a store (and is not final), the
    drain returns, keeps exactly the tasks that are not done, in their
    order, leaves the generators alone, and no store loses a chunk or has
    its frontier moved back. *)
Theorem drain_keeps_running_tasks (w : World) :
  Forall (fun t => still_running t \/ drained_quietly w t)
    (pending_tasks w) ->
  exists w',
    _receive_from_done_tasks w = (w', Ok tt) /\
    pending_tasks w' = filter (fun t => task_done t = false)
                         (pending_tasks w) /\
    gen_objs w' = gen_objs w /\
    forall dt, option_Forall2 store_grows (dict_get dt (stored_data w))
                 (dict_get dt (stored_data w')).
Proof.
  intros Hts.
  destruct (drain_loop [] (pending_tasks w) [] [] w)
    as (w1 & Hrun & Hgen & Hpend & Hgrow); [by rewrite app_nil_r|done|].
  eexists. unfold _receive_from_done_tasks.
  rewrite (bind_Ok get_world _ w w w eq_refl).
  rewrite (bind_Ok _ _ _ _ _ Hrun).
  rewrite (bind_Ok get_world _ w1 w1 w1 eq_refl).
  split; [reflexivity|]. simpl. split_and!; [|done..].
  rewrite Hpend.
  pose proof (omap_lookup_kept [] (pending_tasks w) []) as Hkept.
  by rewrite app_nil_r in Hkept.
Qed.

Lemma drain_loop_running (pre ts post : list Task)
  (still_pending : list nat) (w : World) :
  pending_tasks w = (pre ++ ts ++ post)%list ->
  Forall still_running ts ->
  fold_M receive_one (seq (length pre) (length ts)) still_pending w
  = (w, Ok (still_pending ++ seq (length pre) (length ts))%list).
Proof.
  revert pre still_pending.
  induction ts as [|t ts IH]; intros pre still_pending Hpending Hts.
  { simpl. by rewrite app_nil_r. }
  apply Forall_cons in Hts as [Ht Hts].
  assert (pending_tasks w !! length pre = Some t) as Hi
    by (rewrite Hpending; by apply list_lookup_middle).
  cbn [length seq fold_M].
  rewrite (bind_Ok _ _ _ _ _
             (receive_one_Ok still_pending _ _ _ _ _ Hi
                (receive_task_running t w Ht))).
  specialize (IH (pre ++ [t])%list (still_pending ++ [length pre])%list).
  rewrite length_snoc in IH. rewrite IH; [|by rewrite <- app_assoc|done].
  by rewrite <- app_assoc.
Qed.

Lemma fold_M_app {A S} (f : S -> A -> M S) (l1 l2 : list A) (acc : S)
  (w : World) :
  fold_M f (l1 ++ l2) acc w
  = (acc' <- fold_M f l1 acc ;; fold_M f l2 acc') w.
Proof.
  revert acc w. induction l1 as [|x l1 IH]; intros acc w; simpl; [done|].
  unfold bind. destruct (f acc x w) as [w1 [a|e]]; [|done].
  rewrite IH. done.
Qed.

(* The drain up to the first task that is done. *)
Lemma drain_reaches (before after : list Task) (task : Task) (w : World) :
  pending_tasks w = (before ++ task :: after)%list ->
  Forall still_running before ->
  fold_M receive_one (seq 0 (length (pending_tasks w))) [] w
  = (stays <- receive_task task ;;
     fold_M receive_one (seq (S (length before)) (length after))
       (if stays : bool then seq 0 (length before) ++ [length before]
        else seq 0 (length before))%list) w.
Proof.
  intros Hpending Hbefore.
  assert (pending_tasks w !! length before = Some task) as Hi
    by (rewrite Hpending; by apply list_lookup_middle).
  rewrite Hpending at 1. rewrite length_app, seq_app, fold_M_app. simpl.
  rewrite (bind_Ok _ _ _ _ _
             (drain_loop_running [] before (task :: after) [] w
                Hpending Hbefore)).
  cbn [length seq fold_M app]. unfold bind at 1.
  rewrite (receive_one_at _ _ _ _ Hi).
  unfold bind. by destruct (receive_task task w) as [w1 [[|]|e]].
Qed.

(** X11. A task that completed with a result, among tasks that are still
    running (a final task has its generator in the object store, and a
    task with dtypes has a store for every key of its result): the drain
    returns, takes the task off the list and keeps the others in their
    order; a final task has is_finished set on its generator and the
    generators are otherwise as before; if the task has dtypes, each
    datatype among the keys of the result gets the whole result map under
    the chunk index of the task, and its frontier moves up by one if it
    was at the chunk before and stays otherwise; all other stores, and
    every store if the task has no dtypes, are as before. *)
Theorem drain_lands_completed_task (w : World) (before after : list Task)
  (task : Task) (res : pydict pyval) :
  pending_tasks w = (before ++ task :: after)%list ->
  Forall still_running before ->
  Forall still_running after ->
  task_future task = Some (FFinished (Ok res)) ->
  (task_is_final task = true ->
   is_Some (gen_objs w !! task_generator task)) ->
  (task_dtypes task <> [] ->
   forall dt, dt ∈ dict_keys res -> is_Some (dict_get dt (stored_data w))) ->
  exists w',
    _receive_from_done_tasks w = (w', Ok tt) /\
    pending_tasks w' = (before ++ after)%list /\
    gen_objs w'
    = (if task_is_final task
       then alter (set_is_finished (Some true)) (task_generator task)
              (gen_objs w)
       else gen_objs w) /\
    forall dt,
      dict_get dt (stored_data w')
      = if decide (task_dtypes task <> [] /\ dt ∈ dict_keys res)
        then landed_in (task_chunk_i task) (PDict res)
               <$> dict_get dt (stored_data w)
        else dict_get dt (stored_data w).
Proof.
  intros Hpending Hbefore Hafter Hfut Hgen Hstores.
  destruct (receive_task_completed task res w Hfut Hgen Hstores)
    as (w1 & Hone & Hpend1 & Hgens1 & Hget).
  assert (pending_tasks w1 = ((before ++ [task]) ++ after ++ [])%list)
    as Hpending1.
  { rewrite Hpend1, Hpending, app_nil_r. by rewrite <- app_assoc. }
  eexists. unfold _receive_from_done_tasks.
  rewrite (bind_Ok get_world _ w w w eq_refl).
  erewrite bind_Ok.
  2:{ rewrite (drain_reaches _ _ _ _ Hpending Hbefore).
      rewrite (bind_Ok _ _ _ _ _ Hone).
      pose proof (drain_loop_running (before ++ [task])%list after []
                    (seq 0 (length before)) w1 Hpending1 Hafter) as Hrest.
      rewrite length_snoc in Hrest. exact Hrest. }
  rewrite (bind_Ok get_world _ w1 w1 w1 eq_refl).
  split; [reflexivity|]. simpl. split_and!; [|done..].
  rewrite Hpend1, Hpending, omap_app.
  pose proof (omap_lookup_seq [] before (task :: after)) as Hfirst.
  pose proof (omap_lookup_seq (before ++ [task])%list after []) as Hsecond.
  rewrite length_snoc, app_nil_r, <- app_assoc in Hsecond.
  simpl in Hfirst, Hsecond. by rewrite Hfirst, Hsecond.
Qed.

(** X12. A task that failed, behind tasks that are still running, in a
    scheduler with at least one generator: the drain raises, either the
    error of the task or the AttributeError of the lookup of finished, and
    the pending tasks, the pools and the stores are left as they were: no
    task is taken off the list, none is cancelled, and the tasks behind the
    failed one are not looked at. *)
Theorem drain_raises_on_failed_task (w : World) (before after : list Task)
  (task : Task) (e : exn) (tg : gen_ref) (tgs : list gen_ref) :
  pending_tasks w = (before ++ task :: after)%list ->
  Forall still_running before ->
  task_future task = Some (FFinished (Raise e)) ->
  list_objs w !! task_generators w = Some (tg :: tgs) ->
  exists w' e',
    _receive_from_done_tasks w = (w', Raise e') /\
    (e' = e \/ e' = AttributeError) /\
    pending_tasks w' = pending_tasks w /\
    threadpool w' = threadpool w /\
    processpool w' = processpool w /\
    stored_data w' = stored_data w.
Proof.
  intros Hpending Hbefore Hfut Hlist.
  assert (exists w' e',
            receive_task task w = (w', Raise e') /\
            (e' = e \/ e' = AttributeError) /\
            pending_tasks w' = pending_tasks w /\
            threadpool w' = threadpool w /\
            processpool w' = processpool w /\
            stored_data w' = stored_data w) as (w' & e' & Hone & Hrest).
  { unfold receive_task. rewrite Hfut. simpl.
    assert (exists w1,
              ((if task_is_final task
                then update_gen (task_generator task)
                       (set_is_finished (Some true))
                else ret tt) w = (w1, Ok tt) \/
               (if task_is_final task
                then update_gen (task_generator task)
                       (set_is_finished (Some true))
                else ret tt) w = (w1, Raise AttributeError)) /\
              list_objs w1 = list_objs w /\
              task_generators w1 = task_generators w /\
              pending_tasks w1 = pending_tasks w /\
              threadpool w1 = threadpool w /\
              processpool w1 = processpool w /\
              stored_data w1 = stored_data w)
      as (w1 & [Hmark|Hmark] & Hl1 & Ht1 & Hp1 & Hth1 & Hpr1 & Hs1).
    { destruct (task_is_final task); [|exists w; by split; [left|]].
      unfold update_gen, bind, get_gen.
      destruct (gen_objs w !! task_generator task);
        eexists; (split; [by (left + right)|done]). }
    2:{ exists w1, AttributeError.
        rewrite (bind_Raise _ _ _ _ _ Hmark). split; [done|].
        split; [by right|]. done. }
    rewrite (bind_Ok _ _ _ _ _ Hmark).
    erewrite bind_Ok by reflexivity.
    destruct (exit_raises w1 e "Exception while computing" tg tgs)
      as (w' & e' & Hexit & He' & Hp & Hth & Hpr & Hs & _).
    { by rewrite Hl1, Ht1. }
    exists w', e'. rewrite (bind_Raise _ _ _ _ _ Hexit).
    split; [done|]. split; [done|]. split_and!; congruence. }
  exists w', e'. split; [|done]. unfold _receive_from_done_tasks.
  rewrite (bind_Ok get_world _ w w w eq_refl).
  apply bind_Raise. rewrite (drain_reaches _ _ _ _ Hpending Hbefore).
  by apply bind_Raise.
Qed.


(* --------------------------------------------------------------------- *)
(* _get_new_task: what a call can change, and what it can return         *)
(* --------------------------------------------------------------------- *)

Lemma same_scheduler_refl (w : World) : same_scheduler w w.
Proof. by unfold same_scheduler. Qed.

Lemma same_scheduler_trans (w1 w2 w3 : World) :
  same_scheduler w1 w2 -> same_scheduler w2 w3 -> same_scheduler w1 w3.
Proof.
  unfold same_scheduler.
  intros (? & ? & ? & ? & ? & ? & ? & ?) (? & ? & ? & ? & ? & ? & ? & ?).
  split_and!; congruence.
Qed.

Lemma set_has_finished_twice (g : TaskGenerator) :
  set_has_finished true (set_has_finished true g) = set_has_finished true g.
Proof. done. Qed.

Lemma passed_over_static (g g' : TaskGenerator) :
  passed_over g g' ->
  dtypes g' = dtypes g /\ is_source g' = is_source g /\
  external_input_ready g' = external_input_ready g.
Proof. by intros [->|[_ ->]]. Qed.

Lemma passed_over_source (g g' : TaskGenerator) :
  passed_over g g' -> is_source g' = true -> g' = g.
Proof. intros [->|[Hsrc ->]]; [done|]. simpl. congruence. Qed.

Lemma passed_over_finish (g g' : TaskGenerator) :
  passed_over g g' -> is_source g' = false ->
  passed_over g (set_has_finished true g').
Proof.
  intros [->|[Hsrc ->]] Hsrc'; right; [done|]. split; done.
Qed.

Lemma pass_so_far_refl (w : World) : pass_so_far w w.
Proof.
  split; [apply same_scheduler_refl|]. intros i.
  destruct (gen_objs w !! i); constructor. by left.
Qed.

Lemma pass_so_far_done (w0 w : World) : pass_so_far w0 w -> pass_done w0 w.
Proof.
  intros [Hsame Hgens]. split; [done|]. intros i.
  destruct (Hgens i); constructor. by left.
Qed.

Lemma pass_so_far_then_done (w0 w1 w2 : World) :
  pass_so_far w0 w1 -> pass_done w1 w2 -> pass_done w0 w2.
Proof.
  intros [Hsame1 Hgens1] [Hsame2 Hgens2].
  split; [by eapply same_scheduler_trans|]. intros i.
  specialize (Hgens1 i). specialize (Hgens2 i).
  destruct Hgens1 as [g g1 H1|]; inversion Hgens2 as [? g2 H2|]; subst;
    constructor.
  destruct H1 as [->|[Hsrc ->]]; [done|].
  destruct H2 as [[->|[_ ->]]|[Hsrc2 _]].
  - left. by right.
  - left. by right.
  - simpl in Hsrc2. congruence.
Qed.

Section pass.
Variable w0 : World.

Local Abbreviation holds := (maintains (pass_so_far w0)).

Lemma holds_ret {A} (a : A) (P : A -> Prop) : P a -> holds (ret a) P.
Proof. intros Ha w Hw. split; [done|]. by intros ? [= <-]. Qed.

Lemma holds_raise {A} e (P : A -> Prop) : holds (raise e) P.
Proof. intros w Hw. split; done. Qed.

Lemma holds_bind {A B} (m : M A) (k : A -> M B) (P : A -> Prop) Q :
  holds m P -> (forall a, P a -> holds (k a) Q) -> holds (bind m k) Q.
Proof.
  intros Hm Hk w Hw. unfold bind. destruct (Hm w Hw) as [Hw1 Ha].
  destruct (m w) as [w1 [a|e]]; simpl in *; [|done].
  apply (Hk a); auto.
Qed.

Lemma holds_weaken {A} (m : M A) (P Q : A -> Prop) :
  holds m P -> (forall a, P a -> Q a) -> holds m Q.
Proof.
  intros Hm HPQ w Hw. destruct (Hm w Hw) as [Hw1 Ha]. split; [done|].
  intros a Hr. auto.
Qed.

Lemma holds_get_world : holds get_world (same_scheduler w0).
Proof. intros w Hw. split; [done|]. intros ? [= <-]. apply Hw. Qed.

Lemma holds_modify (f : World -> World) :
  (forall w, gen_objs (f w) = gen_objs w /\ same_scheduler w (f w)) ->
  holds (modify f) (fun _ => True).
Proof.
  intros Hf w [Hsame Hgens]. destruct (Hf w) as [Hg' Hs']. split; [|done].
  simpl. split; [by eapply same_scheduler_trans|]. by rewrite Hg'.
Qed.

Lemma holds_emit e : holds (emit e) (fun _ => True).
Proof. by apply holds_modify. Qed.

Lemma holds_get_list r :
  holds (get_list r) (fun l => list_objs w0 !! r = Some l).
Proof.
  intros w Hw. unfold get_list.
  destruct (list_objs w !! r) as [l|] eqn:Hl; [|done]. split; [done|].
  intros ? [= <-]. destruct Hw as [(Hlists & _) _]. by rewrite <- Hlists.
Qed.

Lemma holds_get_gen tg :
  holds (get_gen tg)
    (fun a => exists g, gen_objs w0 !! tg = Some g /\ passed_over g a).
Proof.
  intros w Hw. unfold get_gen.
  destruct (gen_objs w !! tg) as [a|] eqn:Ha; [|done]. split; [done|].
  intros ? [= <-]. destruct Hw as [_ Hgens]. specialize (Hgens tg).
  rewrite Ha in Hgens. inversion Hgens. eauto.
Qed.

Lemma holds_get_stored_data dt : holds (get_stored_data dt) (fun _ => True).
Proof.
  intros w Hw. unfold get_stored_data.
  by destruct (dict_get dt (stored_data w)).
Qed.

(* Marking a generator that is not a source as finished. *)
Lemma holds_finish tg :
  holds (a <- get_gen tg ;;
         if is_source a then raise TypeError
         else modify (fun w =>
                set_gen_objs (<[tg := set_has_finished true a]> (gen_objs w))
                  w))
    (fun _ => True).
Proof.
  intros w Hw. unfold bind, get_gen.
  destruct (gen_objs w !! tg) as [a|] eqn:Ha; [|done].
  destruct (is_source a) eqn:Hsrc; [done|]. split; [|done]. simpl.
  destruct Hw as [Hsame Hgens]. split; [done|]. intros i. simpl.
  destruct (decide (tg = i)) as [<-|Hne];
    [|by rewrite lookup_insert_ne by done].
  rewrite lookup_insert_eq. specialize (Hgens tg). rewrite Ha in Hgens.
  inversion Hgens; subst. constructor. by apply passed_over_finish.
Qed.

Lemma holds_for_each {A S R} (l : list A) (body : S -> A -> M (S + R))
  (Pelem : A -> Prop) (Pacc : S -> Prop) (Pret : R -> Prop) acc :
  (forall acc x, Pelem x -> Pacc acc ->
     holds (body acc x)
       (fun r => match r with inl acc' => Pacc acc' | inr v => Pret v end)) ->
  Forall Pelem l ->
  Pacc acc ->
  holds (for_each l body acc)
    (fun r => match r with inl acc' => Pacc acc' | inr v => Pret v end).
Proof.
  intros Hbody Hl. revert acc.
  induction Hl as [|x l Hx Hl IH]; intros acc Hacc; simpl.
  - by apply holds_ret.
  - eapply holds_bind; [by apply Hbody|].
    intros [acc'|v] Hr; [by apply IH|by apply holds_ret].
Qed.

Lemma holds_map_M {A B} (f : A -> M B) (P : A -> B -> Prop) (l : list A) :
  (forall x, holds (f x) (P x)) -> holds (map_M f l) (Forall2 P l).
Proof.
  intros Hf. induction l as [|x l IH]; simpl.
  - apply holds_ret. constructor.
  - eapply holds_bind; [apply Hf|]. intros y Hy.
    eapply holds_bind; [apply IH|]. intros ys Hys.
    apply holds_ret. by constructor.
Qed.

Lemma holds_emit_status msg : holds (_emit_status msg) (fun _ => True).
Proof.
  unfold _emit_status.
  eapply holds_bind; [apply holds_emit|]. intros _ _.
  eapply holds_bind; [apply holds_get_world|]. intros self _.
  eapply holds_bind with (P := fun _ => True);
    [|intros; apply holds_emit].
  induction (pending_tasks self) as [|t ts IH]; simpl; [by apply holds_ret|].
  eapply holds_bind with (P := fun _ => True); [|intros; apply IH].
  unfold Task_repr. eapply holds_bind; [apply holds_get_gen|]. intros a _.
  destruct (dtypes a); [apply holds_raise|by apply holds_ret].
Qed.

Lemma holds_score_source requests s :
  holds (score_source requests s) (fun q => q.1 = s).
Proof.
  unfold score_source.
  eapply holds_bind; [apply holds_get_gen|]. intros a _.
  eapply holds_bind with (P := fun _ => True); [|intros; by apply holds_ret].
  unfold next_random.
  eapply holds_bind; [apply holds_get_world|]. intros w _.
  eapply holds_bind; [by apply holds_modify|]. intros _ _.
  by apply holds_ret.
Qed.

(* The dtypes the call concatenates into exhausted_inputs. *)
Lemma holds_dtypes tgs :
  holds (map_M (fun tg => g <- get_gen tg ;; ret (dtypes g)) tgs)
    (fun all_dtypes => all_dtypes = gen_dtypes w0 <$> tgs).
Proof.
  eapply holds_weaken.
  { apply holds_map_M with (P := fun tg dts => dts = gen_dtypes w0 tg).
    intros tg. eapply holds_bind; [apply holds_get_gen|].
    intros a (g & Hg & Hover). apply holds_ret.
    unfold gen_dtypes. rewrite Hg.
    by destruct (passed_over_static _ _ Hover) as (-> & _). }
  intros all_dtypes Hall. induction Hall; simpl; [done|]. by f_equal.
Qed.

(* One step of the loop over the generators of the scheduler: it never
   leaves the loop with a task, it touches no store, and what it adds to
   the sources is a source that is ready. *)
Lemma holds_admission_step tgs loc tg :
  tg ∈ tgs ->
  Forall (ready_source w0 tgs) (sources loc) ->
  holds (admission_step (concat (gen_dtypes w0 <$> tgs)) loc tg)
    (fun r => match r with
              | inl loc' => Forall (ready_source w0 tgs) (sources loc')
              | inr t => False
              end).
Proof.
  intros Hin Hloc. unfold admission_step.
  eapply holds_bind; [apply holds_get_gen|]. intros a (g & Hg & Hover).
  destruct (passed_over_static _ _ Hover) as (Hdts & Hsrc & Hready).
  destruct (external_input_ready a) eqn:Hready'; simpl;
    [|by apply holds_ret].
  eapply holds_bind with (P := fun _ => True).
  { destruct (negb (parallel a)); [|by apply holds_ret].
    destruct (dtypes a); [apply holds_raise|].
    eapply holds_bind; [apply holds_get_stored_data|]. intros d _.
    by apply holds_ret. }
  intros [|] _; [by apply holds_ret|].
  destruct (is_source a) eqn:Hsrc'.
  { apply holds_ret. simpl. apply Forall_app. split; [done|].
    apply Forall_singleton. split; [done|]. exists g.
    split_and!; congruence. }
  rewrite Hdts, (own_dtypes_exhausted w0 tgs tg g Hin Hg). simpl.
  destruct (negb (has_finished a)); [|by apply holds_ret].
  destruct (has_final_task a).
  { eapply holds_bind with (P := fun _ => False); [apply holds_raise|].
    intros t []. }
  eapply holds_bind with (P := fun _ => True); [|intros; by apply holds_ret].
  intros w Hw. pose proof (holds_finish tg w Hw) as Hfin.
  unfold update_gen. unfold bind, get_gen in *.
  destruct (gen_objs w !! tg) as [a'|] eqn:Ha'; [|done].
  destruct (is_source a') eqn:Hsrc''; [|done].
  (* the generator read at the start of the step is the one updated *)
  exfalso. destruct Hw as [_ Hgens]. specialize (Hgens tg).
  rewrite Hg, Ha' in Hgens. inversion Hgens as [? ? Hover'|]; subst.
  destruct (passed_over_static _ _ Hover') as (_ & Hsrc3 & _). congruence.
Qed.

End pass.

Lemma pass_step {A} (w0 : World) (m : M A) (k : A -> M (option Task))
  (P : A -> Prop) (w : World) :
  maintains (pass_so_far w0) m P ->
  pass_so_far w0 w ->
  (forall w1 a, pass_so_far w0 w1 -> P a -> pass_outcome w0 (k a w1)) ->
  pass_outcome w0 (bind m k w).
Proof.
  intros Hm Hw Hk. unfold bind. destruct (Hm w Hw) as [Hw1 Ha].
  destruct (m w) as [w1 [a|e]]; simpl in *.
  - apply Hk; auto.
  - split; [by apply pass_so_far_done|done].
Qed.

Lemma pass_outcome_None (w0 w : World) :
  pass_so_far w0 w -> pass_outcome w0 (ret None w).
Proof. intros Hw. split; [by apply pass_so_far_done|done]. Qed.

(* The loop leaves the sources as they are. *)
Lemma pass_so_far_source (w0 w : World) (s : gen_ref) (g : TaskGenerator) :
  pass_so_far w0 w -> is_source g = true ->
  gen_objs w0 !! s = Some g <-> gen_objs w !! s = Some g.
Proof.
  intros [_ Hgens] Hsrc. specialize (Hgens s).
  destruct Hgens as [g0 g1 Hover|]; [|done].
  destruct (passed_over_static _ _ Hover) as (_ & Hsrc1 & _).
  split; intros [= ->]; f_equal.
  - apply (passed_over_source _ _ Hover). congruence.
  - symmetry. by apply (passed_over_source _ _ Hover).
Qed.

Lemma ready_source_earlier (w0 w : World) (tgs : list gen_ref) (s : gen_ref) :
  pass_so_far w0 w -> ready_source w tgs s -> ready_source w0 tgs s.
Proof.
  intros Hw (Hin & g & Hg & Hsrc & Hready). split; [done|].
  exists g. by rewrite (pass_so_far_source _ _ _ _ Hw Hsrc).
Qed.

Lemma pass_outcome_later (w0 w : World) out :
  pass_so_far w0 w -> pass_outcome w out -> pass_outcome w0 out.
Proof.
  intros Hw [Hdone Htask]. split; [by eapply pass_so_far_then_done|].
  intros t Ht.
  destruct (Htask t Ht) as (tgs & g & Hlist & Hsrc & Hg & Hret & Hmade & Hg').
  pose proof (ready_source_earlier _ _ _ _ Hw Hsrc) as Hsrc0.
  exists tgs, g. destruct Hsrc as (_ & g1 & Hg1 & Hsrc1 & _).
  assert (g1 = g) as -> by congruence.
  split_and!; [|done| |done..].
  - destruct Hw as [(Hlists & Htgs & _) _]. congruence.
  - by rewrite (pass_so_far_source _ _ _ _ Hw Hsrc1).
Qed.

(* task(None) on a source the loop has left as it was. *)
Lemma pass_outcome_task (w0 w : World) (tgs : list gen_ref) (s : gen_ref) :
  list_objs w0 !! task_generators w0 = Some tgs ->
  ready_source w0 tgs s ->
  pass_so_far w0 w ->
  pass_outcome w0 ((t <- TaskGenerator_task s None ;; ret (Some t)) w).
Proof.
  intros Hlist Hsrc Hw. pose proof Hsrc as (Hin & g & Hg & Hsource & Hready).
  assert (gen_objs w !! s = Some g) as Hgw.
  { by rewrite <- (pass_so_far_source _ _ _ _ Hw Hsource). }
  assert (forall g',
            g' = set_chunk_i (chunk_i g + 1) g \/ g' = task_started g ->
            pass_done w0 (set_gen_objs (<[s := g']> (gen_objs w)) w))
    as Hdone.
  { intros g' Hg'. destruct Hw as [Hsame Hgens]. split; [done|].
    intros i. simpl. destruct (decide (s = i)) as [<-|Hne].
    - rewrite lookup_insert_eq, Hg. constructor. by right.
    - rewrite lookup_insert_ne by done. destruct (Hgens i); constructor.
      by left. }
  pose proof (task_run w s g None Hgw) as Hrun.
  destruct (task_returns g None) eqn:Hret.
  - rewrite (bind_Ok _ _ _ _ _ Hrun). split; [apply Hdone; by right|].
    intros t [= <-]. exists tgs, g. simpl.
    split_and!; [done..|apply lookup_insert_eq].
  - destruct Hrun as (e & g' & Hrun & Hg').
    rewrite (bind_Raise _ _ _ _ _ Hrun). split; [by apply Hdone|done].
Qed.

Lemma get_new_task_outcome (depth_left : nat) (w0 : World) :
  pass_outcome w0 (_get_new_task depth_left w0).
Proof.
  revert w0. induction depth_left as [|depth_left IH]; intros w0; simpl.
  { split; [apply pass_so_far_done, pass_so_far_refl|done]. }
  eapply pass_step; [apply holds_get_world|apply pass_so_far_refl|].
  intros w1 self Hw1 (_ & Hself & _).
  eapply pass_step; [apply holds_get_list|done|].
  intros w2 tgs Hw2 Htgs. rewrite Hself in Htgs.
  eapply pass_step; [apply holds_dtypes|done|].
  intros w3 all_dtypes Hw3 ->.
  eapply pass_step; [|done|].
  { apply holds_for_each
      with (Pelem := fun tg => tg ∈ tgs)
           (Pacc := fun loc => Forall (ready_source w0 tgs) (sources loc))
           (Pret := fun _ : Task => False).
    - intros acc x Hx Hacc. by apply holds_admission_step.
    - by apply Forall_forall.
    - constructor. }
  intros w4 [loc|t] Hw4 Hr; [|done].
  eapply pass_step; [apply holds_get_world|done|].
  intros w5 self' Hw5 _.
  destruct (sources loc) as [|s0 ss] eqn:Hsources.
  - destruct (external_waits loc); [by apply pass_outcome_None|].
    destruct (negb (is_nil (pending_tasks self')));
      [by apply pass_outcome_None|].
    eapply pass_step; [apply holds_emit_status|done|].
    intros w6 _ Hw6 _.
    eapply pass_step; [apply holds_emit|done|].
    intros w7 _ Hw7 _. eapply pass_outcome_later; [exact Hw7|apply IH].
  - destruct (_ && _); [by apply pass_outcome_None|].
    eapply pass_step; [apply holds_score_source|done|].
    intros w6 q0 Hw6 Hq0.
    eapply pass_step; [apply holds_map_M, holds_score_source|done|].
    intros w7 qs Hw7 Hqs.
    apply pass_outcome_task with (tgs := tgs); [done| |done].
    eapply Forall_forall; [exact Hr|].
    assert ((q0 :: qs).*1 = s0 :: ss) as <-.
    { simpl. f_equal; [done|]. clear -Hqs.
      induction Hqs; simpl; [done|]. by f_equal. }
    apply list_elem_of_fmap. eexists. split; [done|].
    apply max_by_score_elem.
Qed.

(** X13. A call of _get_new_task, whether it returns or raises, changes
    nothing of the scheduler but its generators: the stores, the pending
    tasks, the pools and the lists are as before (so nothing is marked as
    seen and nothing is collected), no generator appears or disappears,
    and a generator is left as it was, or marked as finished if it is not
    a source, or has gone through task() if it is a source.  (final_task
    is the one of TaskGenerator, which raises NotImplementedError.) *)
Theorem get_new_task_changes_generators_only (depth_left : nat) (w : World) :
  pass_done w (_get_new_task depth_left w).1.
Proof. apply get_new_task_outcome. Qed.

(** X14. A task that _get_new_task returns is always the next task of a
    source of the scheduler's list whose external input is ready and for
    which task(None) returns (so it is parallel and not finished): it is
    the task task() builds for the source as it was before the call, and
    the source is left as task() leaves it.  No call returns a task of a
    generator that is not a source: the lines that build one from stored
    inputs are never reached, and final_task of TaskGenerator raises
    NotImplementedError. *)
Theorem get_new_task_returns_source_tasks (depth_left : nat) (w w' : World)
  (t : Task) :
  _get_new_task depth_left w = (w', Ok (Some t)) ->
  source_task w w' t.
Proof.
  intros Hrun. pose proof (get_new_task_outcome depth_left w) as [_ Htask].
  rewrite Hrun in Htask. by apply Htask.
Qed.

Lemma waiting_loop (w : World) (exhausted_inputs : list string)
  (tgs : list gen_ref) (loc : locals) :
  Forall (fun tg => exists g, gen_objs w !! tg = Some g /\
                              external_input_ready g = false) tgs ->
  for_each tgs (admission_step exhausted_inputs) loc w
  = (w, Ok (inl (mkLocals (external_waits loc ++ tgs)%list (sources loc)
                   (requests_for loc)))).
Proof.
  revert loc. induction tgs as [|tg tgs IH]; intros loc Htgs; simpl.
  { rewrite app_nil_r. by destruct loc. }
  apply Forall_cons in Htgs as [(g & Hg & Hready) Htgs].
  erewrite bind_Ok.
  2:{ unfold admission_step.
      rewrite (bind_Ok _ _ _ _ _ (get_gen_Ok _ _ _ Hg)).
      by rewrite Hready. }
  cbv beta iota. rewrite (IH _ Htgs). simpl. by rewrite <- app_assoc.
Qed.

(** X15. When the scheduler has generators, every one of them answers
    that its external input is not ready, and nothing is pending,
    _get_new_task calls itself after each sleep until the stack is used
    up: with room for n calls it prints its status and sleeps five seconds
    n times and then raises RecursionError, with the generators and the
    stores as they were. *)
Theorem get_new_task_waits_until_overflow (depth_left : nat) (w : World)
  (tg : gen_ref) (tgs : list gen_ref) :
  list_objs w !! task_generators w = Some (tg :: tgs) ->
  Forall (fun tg => exists g, gen_objs w !! tg = Some g /\
                              external_input_ready g = false) (tg :: tgs) ->
  pending_tasks w = [] ->
  exists w',
    _get_new_task depth_left w = (w', Raise RecursionError) /\
    log w' = (log w ++ concat (replicate depth_left waiting_round))%list /\
    gen_objs w' = gen_objs w /\
    stored_data w' = stored_data w /\
    pending_tasks w' = [].
Proof.
  revert w. induction depth_left as [|n IH]; intros w Hlist Hwait Hpending.
  { exists w. simpl. by rewrite app_nil_r. }
  set (w1 := set_log (log w ++ [EvPrint "waiting on external condition"])
               w).
  set (w2 := set_log (log w1 ++ [EvPrint "Pending tasks"]) w1).
  set (w3 := set_log (log w2 ++ [EvSleep 5]) w2).
  destruct (IH w3) as (w' & Hrun & Hlog & Hgens & Hstores & Hpend); [done..|].
  exists w'. split; [|split_and!; [|done..]].
  - cbn [_get_new_task].
    rewrite (bind_Ok get_world _ w w w eq_refl).
    erewrite bind_Ok by (unfold get_list; by rewrite Hlist).
    erewrite bind_Ok.
    2:{ apply map_M_dtypes. eapply Forall_impl; [exact Hwait|].
        intros ? (g & -> & _). eauto. }
    erewrite bind_Ok by (by apply waiting_loop).
    cbv beta iota. rewrite (bind_Ok get_world _ w w w eq_refl).
    cbn [sources external_waits app]. rewrite Hpending. cbn [is_nil negb].
    erewrite bind_Ok.
    2:{ unfold _emit_status. erewrite bind_Ok by reflexivity.
        rewrite (bind_Ok get_world _ w1 w1 w1 eq_refl).
        change (pending_tasks w1) with (pending_tasks w). rewrite Hpending.
        by erewrite bind_Ok by reflexivity. }
    erewrite bind_Ok by reflexivity. exact Hrun.
  - rewrite Hlog. unfold w3, w2, w1. simpl. by rewrite <- !app_assoc.
Qed.

(* --------------------------------------------------------------------- *)
(* __init__ followed by _cleanup_cache                                   *)
(* --------------------------------------------------------------------- *)

Lemma cleanup_values_nothing_stored (ds : pydict StoredData) :
  Forall (fun kd => seen_by_consumers kd.2 <> ∅ /\ stored kd.2 = ∅) ds ->
  cleanup_values ds = (ds, Ok tt).
Proof.
  induction 1 as [|[k d] ds [Hseen Hstored] Hds IH]; simpl; [done|].
  simpl in Hseen, Hstored.
  destruct (size (seen_by_consumers d) =? 0)%nat eqn:Hsize.
  { apply Nat.eqb_eq, map_size_empty_iff in Hsize. done. }
  destruct (min_seen (seen_by_consumers d)) as [m|] eqn:Hmin.
  2:{ by apply min_seen_None in Hmin. }
  rewrite IH, Hstored, map_filter_empty. do 3 f_equal.
  destruct d; simpl in *. by subst.
Qed.

Lemma dict_get_elem {V} (k : string) (v : V) (d : pydict V) :
  NoDup (dict_keys d) -> (k, v) ∈ d -> dict_get k d = Some v.
Proof.
  induction d as [|[k' v'] d IH]; simpl.
  { intros _ Hin. by apply elem_of_nil in Hin. }
  change (dict_keys ((k', v') :: d)) with (k' :: dict_keys d).
  intros [Hk' Hd]%NoDup_cons Hin.
  apply elem_of_cons in Hin as [[= -> ->]|Hin].
  { by rewrite decide_True. }
  rewrite decide_False; [by apply IH|]. intros ->. apply Hk'.
  unfold dict_keys. apply list_elem_of_fmap. by exists (k', v).
Qed.

(** X16. A pass of _cleanup_cache right after an __init__ that returned
    (max_workers positive) completes and changes nothing: every store
    __init__ makes has a consumer (the generators that produce its
    datatype), so the pass never raises the RuntimeError for a store
    nobody consumes, and no chunk is stored yet. *)
Theorem cleanup_after_init_is_idle (w : World) (r : list_ref) (workers : Z)
  (l : list gen_ref) :
  list_objs w !! r = Some l ->
  all_alive w l ->
  0 < workers ->
  _cleanup_cache (Scheduler_init r workers w).1
  = ((Scheduler_init r workers w).1, Ok tt).
Proof.
  intros Hlist Halive Hworkers.
  rewrite (Scheduler_init_run w r workers l Hlist Halive Hworkers).
  unfold _cleanup_cache. cbn [fst after_init stored_data].
  rewrite cleanup_values_nothing_stored; [done|].
  apply Forall_fmap, Forall_forall. intros [dt tgs] Hin. simpl. split; [|done].
  assert (tgs <> []) as Htgs.
  { apply (who_wants_of_nonempty w (sort_with (gen_key w) l) [] dt); [done|].
    apply dict_get_elem; [|done]. apply who_wants_of_NoDup. constructor. }
  destruct tgs as [|tg tgs]; [done|]. intros Hempty.
  change (seen_by_consumers (StoredData_init dt (tg :: tgs)) = ∅) in Hempty.
  pose proof (StoredData_init_consumers dt (tg :: tgs) tg) as Hseen.
  rewrite Hempty, lookup_empty, decide_True in Hseen by left. done.
Qed.

(* --------------------------------------------------------------------- *)
(* Runs: no step adds a task of a generator that is not parallel         *)
(* --------------------------------------------------------------------- *)

Section maintains.
Context (I : World -> Prop).

Lemma maintains_ret {A} (a : A) (P : A -> Prop) :
  P a -> maintains I (ret a) P.
Proof. intros Ha w Hw. split; [done|]. by intros ? [= <-]. Qed.

Lemma maintains_raise {A} e (P : A -> Prop) : maintains I (raise e) P.
Proof. intros w Hw. split; done. Qed.

Lemma maintains_bind {A B} (m : M A) (k : A -> M B) (P : A -> Prop) Q :
  maintains I m P -> (forall a, P a -> maintains I (k a) Q) ->
  maintains I (bind m k) Q.
Proof.
  intros Hm Hk w Hw. unfold bind. destruct (Hm w Hw) as [Hw1 Ha].
  destruct (m w) as [w1 [a|e]]; simpl in *; [|done].
  apply (Hk a); auto.
Qed.

Lemma maintains_seq {A B} (m : M A) (k : A -> M B) (P : A -> Prop) Q :
  maintains I m P -> (forall a, maintains I (k a) Q) ->
  maintains I (bind m k) Q.
Proof. intros Hm Hk. eapply maintains_bind; [exact Hm|]. auto. Qed.

Lemma maintains_weaken {A} (m : M A) (P Q : A -> Prop) :
  maintains I m P -> (forall a, P a -> Q a) -> maintains I m Q.
Proof.
  intros Hm HPQ w Hw. destruct (Hm w Hw) as [Hw1 Ha]. split; [done|].
  intros a Hr. auto.
Qed.

Lemma maintains_get_world : maintains I get_world I.
Proof. intros w Hw. split; [done|]. by intros ? [= <-]. Qed.

Lemma maintains_for_ {A} (l : list A) (body : A -> M unit) :
  (forall x, maintains I (body x) (fun _ => True)) ->
  maintains I (for_ l body) (fun _ => True).
Proof.
  intros Hbody. induction l as [|x l IH]; simpl.
  - by apply maintains_ret.
  - eapply maintains_seq; [apply Hbody|]. intros _. apply IH.
Qed.

Lemma maintains_try_except {A} (m : M A) (handler : exn -> M A) P :
  maintains I m P -> (forall e, maintains I (handler e) P) ->
  maintains I (try_except m handler) P.
Proof.
  intros Hm Hh w Hw. unfold try_except. destruct (Hm w Hw) as [Hw1 Ha].
  destruct (m w) as [w1 [a|e]]; simpl in *; [by split|].
  by apply Hh.
Qed.

(* A loop that collects positions: what it returns is what it started
   with and, in their order, some of the positions it went through. *)
Lemma maintains_fold_positions (f : list nat -> nat -> M (list nat))
  (idx : list nat) (acc : list nat) :
  (forall acc i,
     maintains I (f acc i) (fun r => r = acc \/ r = (acc ++ [i])%list)) ->
  maintains I (fold_M f idx acc)
    (fun r => exists kept, r = (acc ++ kept)%list /\ kept `sublist_of` idx).
Proof.
  intros Hf. revert acc. induction idx as [|i idx IH]; intros acc; simpl.
  { apply maintains_ret. exists []. by rewrite app_nil_r. }
  eapply maintains_bind; [apply Hf|]. intros acc' Hacc'.
  eapply maintains_weaken; [apply IH|]. intros r (kept & -> & Hkept).
  destruct Hacc' as [->| ->].
  - exists kept. split; [done|]. by apply sublist_cons.
  - exists (i :: kept). split; [by rewrite <- app_assoc|].
    by apply sublist_skip.
Qed.

End maintains.

Lemma same_crowd_refl (w : World) : same_crowd w w.
Proof. split; [|done]. intros i g Hg. eauto. Qed.

Lemma same_crowd_trans (w1 w2 w3 : World) :
  same_crowd w1 w2 -> same_crowd w2 w3 -> same_crowd w1 w3.
Proof.
  intros [Hg12 Ht12] [Hg23 Ht23]. split; [|congruence].
  intros i g Hg. destruct (Hg12 i g Hg) as (g2 & Hg2 & Hp2).
  destruct (Hg23 i g2 Hg2) as (g3 & Hg3 & Hp3). exists g3.
  split; [done|congruence].
Qed.

Lemma same_crowd_no_new_tasks (w0 w : World) :
  same_crowd w0 w -> no_new_tasks w0 w.
Proof. intros [Hg Ht]. split; [done|]. by rewrite Ht. Qed.

Lemma cancel_all_generators (ts : list Task) :
  task_generator <$> (cancel_all ts).1 = task_generator <$> ts.
Proof.
  induction ts as [|t ts IH]; [done|]. cbn [cancel_all].
  destruct (task_future t); [|done].
  destruct (cancel_all ts) as [ts' r]. simpl in *. f_equal. exact IH.
Qed.

Section crowd.
Variable w0 : World.

Local Abbreviation stays := (maintains (same_crowd w0)).

Lemma stays_modify (f : World -> World) :
  (forall w, same_crowd w (f w)) -> stays (modify f) (fun _ => True).
Proof.
  intros Hf w Hw. split; [|done]. simpl.
  by eapply same_crowd_trans; [exact Hw|apply Hf].
Qed.

Lemma stays_emit e : stays (emit e) (fun _ => True).
Proof. apply stays_modify. intros w. split; [eauto|done]. Qed.

Lemma stays_get_list r : stays (get_list r) (fun _ => True).
Proof. intros w Hw. unfold get_list. by destruct (list_objs w !! r). Qed.

Lemma stays_get_gen tg : stays (get_gen tg) (fun _ => True).
Proof. intros w Hw. unfold get_gen. by destruct (gen_objs w !! tg). Qed.

Lemma stays_update_gen tg f :
  (forall g, parallel (f g) = parallel g) ->
  stays (update_gen tg f) (fun _ => True).
Proof.
  intros Hf w Hw. unfold update_gen, bind, get_gen.
  destruct (gen_objs w !! tg) as [a|] eqn:Ha; [|done]. split; [|done].
  simpl. eapply same_crowd_trans; [exact Hw|]. split; [|done].
  intros i g Hg. simpl. destruct (decide (tg = i)) as [<-|Hne].
  - rewrite lookup_insert_eq. eexists. split; [done|].
    rewrite Hf. congruence.
  - rewrite lookup_insert_ne by done. eauto.
Qed.

Lemma stays_get_stored_data dt : stays (get_stored_data dt) (fun _ => True).
Proof.
  intros w Hw. unfold get_stored_data.
  by destruct (dict_get dt (stored_data w)).
Qed.

Lemma stays_update_stored_data dt f :
  stays (update_stored_data dt f) (fun _ => True).
Proof.
  unfold update_stored_data.
  eapply maintains_seq; [apply stays_get_stored_data|]. intros d.
  apply stays_modify. intros w. split; [eauto|done].
Qed.

Lemma stays_exit exception extra_message :
  stays (exit_with_exception exception extra_message) (fun _ => True).
Proof.
  unfold exit_with_exception.
  eapply maintains_seq; [apply stays_emit|]. intros _.
  eapply maintains_seq; [apply maintains_get_world|]. intros self.
  eapply maintains_seq; [apply stays_get_list|]. intros tgs.
  eapply maintains_seq.
  { apply maintains_for_. intros tg.
    eapply maintains_seq; [apply stays_get_gen|]. intros g.
    destruct (finished g) as [fin|]; [|apply maintains_raise].
    eapply maintains_seq with (P := fun _ => True); [|intros; apply maintains_raise].
    destruct (negb fin); [|by apply maintains_ret].
    apply maintains_try_except.
    - unfold finish_on_exception.
      eapply maintains_seq; [apply stays_get_gen|]. intros g'.
      eapply maintains_seq; [apply stays_emit|]. intros _.
      destruct (finish g'); [apply maintains_raise|by apply maintains_ret].
    - intros e. eapply maintains_seq; [apply stays_emit|]. intros _.
      apply stays_emit. }
  intros _.
  eapply maintains_seq with (P := fun _ => True).
  { intros w Hw. split; [|done].
    pose proof (cancel_all_generators (pending_tasks w)) as Hcancel.
    destruct (cancel_all (pending_tasks w)) as [ts r]. simpl in *.
    eapply same_crowd_trans; [exact Hw|]. split; [eauto|done]. }
  intros _.
  eapply maintains_seq; [apply stays_modify|].
  { intros w. split; [eauto|done]. }
  intros _. apply stays_modify. intros w. split; [eauto|done].
Qed.

Lemma stays_emit_status msg : stays (_emit_status msg) (fun _ => True).
Proof.
  unfold _emit_status.
  eapply maintains_seq; [apply stays_emit|]. intros _.
  eapply maintains_seq; [apply maintains_get_world|]. intros self.
  eapply maintains_seq with (P := fun _ => True); [|intros; apply stays_emit].
  apply maintains_for_. intros t. unfold Task_repr.
  eapply maintains_seq; [apply stays_get_gen|]. intros g.
  destruct (dtypes g); [apply maintains_raise|by apply maintains_ret].
Qed.

Lemma stays_receive_task task : stays (receive_task task) (fun _ => True).
Proof.
  unfold receive_task.
  destruct (task_future task) as [f|]; [|apply maintains_raise].
  destruct (negb (future_done f)); [by apply maintains_ret|].
  eapply maintains_seq with (P := fun _ => True).
  { destruct (task_is_final task); [|by apply maintains_ret].
    by apply stays_update_gen. }
  intros _.
  eapply maintains_seq with (P := fun _ => True).
  { destruct f as [| | |[r|e]];
      first [apply maintains_raise|by apply maintains_ret]. }
  intros exc.
  eapply maintains_seq with (P := fun _ => True).
  { destruct exc; [apply stays_exit|by apply maintains_ret]. }
  intros _.
  destruct (is_nil (task_dtypes task)); [by apply maintains_ret|].
  eapply maintains_seq with (P := fun _ => True).
  { destruct f as [| | |[r|e]];
      first [apply maintains_raise|by apply maintains_ret]. }
  intros res.
  eapply maintains_seq with (P := fun _ => True);
    [|intros; by apply maintains_ret].
  apply maintains_for_. intros [dtype v].
  eapply maintains_seq; [apply stays_get_stored_data|]. intros d.
  apply stays_update_stored_data.
Qed.

Lemma stays_receive_one still_pending i :
  stays (receive_one still_pending i)
    (fun r => r = still_pending \/ r = (still_pending ++ [i])%list).
Proof.
  unfold receive_one.
  eapply maintains_seq; [apply maintains_get_world|]. intros self.
  destruct (pending_tasks self !! i) as [task|]; [|apply maintains_raise].
  eapply maintains_seq; [apply stays_receive_task|]. intros stays.
  apply maintains_ret. destruct stays; auto.
Qed.

End crowd.

Lemma omap_sublist {A B} (f : A -> option B) (l1 l2 : list A) :
  l1 `sublist_of` l2 -> omap f l1 `sublist_of` omap f l2.
Proof.
  induction 1 as [|x l1 l2 _ IH|x l1 l2 _ IH]; simpl.
  - done.
  - destruct (f x); [by apply sublist_skip|done].
  - destruct (f x); [by apply sublist_cons|done].
Qed.

Lemma omap_lookup_all {A} (l : list A) :
  omap (fun i => l !! i) (seq 0 (length l)) = l.
Proof.
  assert (forall pre : list A,
            omap (fun i => (pre ++ l)%list !! i) (seq (length pre) (length l))
            = l) as Hgen.
  { induction l as [|x l IH]; intros pre; simpl; [done|].
    rewrite list_lookup_middle by done. simpl. f_equal.
    specialize (IH (pre ++ [x])%list).
    rewrite length_app, <- app_assoc in IH. simpl in IH.
    by rewrite Nat.add_1_r in IH. }
  exact (Hgen []).
Qed.

(* The drain never adds a pending task, whatever it finds and however it
   ends. *)
Lemma drain_no_new_tasks (w : World) :
  no_new_tasks w (_receive_from_done_tasks w).1.
Proof.
  unfold _receive_from_done_tasks.
  rewrite (bind_Ok get_world _ w w w eq_refl). unfold bind at 1.
  pose proof (maintains_fold_positions (same_crowd w) receive_one
                (seq 0 (length (pending_tasks w))) []
                (stays_receive_one w) w (same_crowd_refl w)) as [Hw1 Hkept].
  destruct (fold_M receive_one (seq 0 (length (pending_tasks w))) [] w)
    as [w1 [still_pending|e]]; simpl in *.
  2:{ by apply same_crowd_no_new_tasks. }
  destruct (Hkept _ eq_refl) as (kept & -> & Hsub). simpl.
  destruct Hw1 as [Hgens Htasks]. split; [done|]. simpl.
  rewrite <- Htasks. apply fmap_sublist.
  assert (length (pending_tasks w1) = length (pending_tasks w)) as Hlen.
  { by rewrite <- (length_fmap task_generator), Htasks, length_fmap. }
  rewrite <- Hlen in Hsub.
  etrans; [apply omap_sublist; exact Hsub|].
  by rewrite omap_lookup_all.
Qed.

Lemma pass_effect_parallel (g g' : TaskGenerator) :
  pass_effect g g' -> parallel g' = parallel g.
Proof.
  unfold pass_effect, passed_over, task_started.
  intros [[->|[_ ->]]|[_ [->| ->]]]; try done.
  by destruct (parallel g) eqn:Hpar.
Qed.

Lemma pass_done_same_crowd (w w' : World) :
  pass_done w w' -> same_crowd w w'.
Proof.
  intros [(_ & _ & _ & _ & Hpending & _) Hgens]. split; [|by rewrite Hpending].
  intros i g Hg. specialize (Hgens i). rewrite Hg in Hgens.
  inversion Hgens as [? g' Heffect|]; subst. exists g'.
  split; [done|]. by apply pass_effect_parallel.
Qed.

Lemma futures_move_same_crowd (w w' : World) :
  futures_move w w' -> same_crowd w w'.
Proof.
  intros (ts' & -> & Hts). split; [eauto|]. simpl.
  induction Hts as [|t t' ts ts' [f ->] _ IH]; [done|].
  rewrite !fmap_cons. f_equal. exact IH.
Qed.

Lemma sublist_count (i : gen_ref) (l1 l2 : list gen_ref) :
  l1 `sublist_of` l2 ->
  (length (filter (fun x => x = i) l1) <= length (filter (fun x => x = i) l2))%nat.
Proof.
  induction 1 as [|x l1 l2 _ IH|x l1 l2 _ IH]; [done|..].
  - rewrite !filter_cons. destruct (decide (x = i)); simpl; lia.
  - rewrite filter_cons. destruct (decide (x = i)); simpl; lia.
Qed.

Lemma in_flight_count (w : World) (i : gen_ref) :
  length (in_flight w i)
  = length (filter (fun x => x = i) (task_generator <$> pending_tasks w)).
Proof.
  unfold in_flight. induction (pending_tasks w) as [|t ts IH]; [done|].
  rewrite fmap_cons, !filter_cons.
  destruct (decide (task_generator t = i)); simpl; by rewrite IH.
Qed.

Lemma no_new_tasks_in_flight (w w' : World) (i : gen_ref) :
  no_new_tasks w w' ->
  (length (in_flight w' i) <= length (in_flight w i))%nat.
Proof.
  intros [_ Hsub]. rewrite !in_flight_count. by apply sublist_count.
Qed.

(* A step of a run leaves the generators what they are and adds no task
   of a generator that is not parallel. *)
Lemma step_adds_no_task (w w' : World) (i : gen_ref) (g : TaskGenerator) :
  scheduler_step w w' ->
  gen_objs w !! i = Some g ->
  parallel g = false ->
  (exists g', gen_objs w' !! i = Some g' /\ parallel g' = false) /\
  (length (in_flight w' i) <= length (in_flight w i))%nat.
Proof.
  intros Hstep Hg Hpar.
  assert (forall w', no_new_tasks w w' ->
            (exists g', gen_objs w' !! i = Some g' /\ parallel g' = false) /\
            (length (in_flight w' i) <= length (in_flight w i))%nat)
    as Hframe.
  { intros w1 Hno. split; [|by apply no_new_tasks_in_flight].
    destruct Hno as [Hgens _]. destruct (Hgens i g Hg) as (g' & Hg' & Hp').
    exists g'. split; [done|congruence]. }
  destruct Hstep as [w|depth_left w|depth_left w w' t future Hpass Huser
                     |e msg w|msg w|w w' Hmove|w].
  - apply Hframe, drain_no_new_tasks.
  - apply Hframe, same_crowd_no_new_tasks, pass_done_same_crowd.
    apply get_new_task_outcome.
  - pose proof (get_new_task_outcome depth_left w) as [Hdone Htask].
    rewrite Hpass in Hdone, Htask. simpl in *.
    destruct (Htask t eq_refl)
      as (tgs & gs & _ & (_ & gs' & Hgs' & Hsrc & _) & Hgs & Hret & Hmade & _).
    assert (task_generator t <> i) as Hother.
    { intros Heq. rewrite Heq in Hgs, Hgs'.
      assert (gs = g) as -> by congruence.
      assert (gs' = g) as -> by congruence.
      unfold task_returns in Hret. rewrite Hpar, Hsrc in Hret. simpl in Hret.
      by rewrite !andb_false_r in Hret. }
    destruct (Hframe w' (same_crowd_no_new_tasks _ _
                           (pass_done_same_crowd _ _ Hdone)))
      as [Hgen Hcount].
    split; [done|]. unfold in_flight, submitted in *. simpl.
    rewrite filter_app, filter_cons_False, filter_nil, app_nil_r; done.
  - apply Hframe, same_crowd_no_new_tasks.
    apply (stays_exit w e msg w (same_crowd_refl w)).
  - apply Hframe, same_crowd_no_new_tasks.
    apply (stays_emit_status w msg w (same_crowd_refl w)).
  - by apply Hframe, same_crowd_no_new_tasks, futures_move_same_crowd.
  - apply Hframe, same_crowd_no_new_tasks. split; [eauto|done].
Qed.

Lemma run_adds_no_task (w w' : World) (i : gen_ref) (g : TaskGenerator) :
  rtc scheduler_step w w' ->
  gen_objs w !! i = Some g ->
  parallel g = false ->
  (length (in_flight w' i) <= length (in_flight w i))%nat.
Proof.
  intros Hrun. revert g.
  induction Hrun as [w|w w1 w' Hstep _ IH]; intros g Hg Hpar; [done|].
  destruct (step_adds_no_task w w1 i g Hstep Hg Hpar)
    as [(g1 & Hg1 & Hpar1) Hcount].
  specialize (IH g1 Hg1 Hpar1). lia.
Qed.


(* ===================================================================== *)
(* The further properties at the pipeline                                *)
(* ===================================================================== *)

Lemma Scheduler_init_fresh_stores_witness :
  exists w',
    Scheduler_init 7%nat 5 world_objects = (w', Ok tt) /\
    pending_tasks w' = [] /\
    max_workers w' = 5 /\
    NoDup (dict_keys (stored_data w')) /\
    forall dt,
      match dict_get dt (stored_data w') with
      | Some d =>
          (exists tg, tg ∈ [ref_S; ref_T; ref_K] /\
                      dt ∈ gen_dtypes world_objects tg) /\
          sd_dtype d = dt /\ stored d = ∅ /\ last_contiguous d = -1 /\
          source_exhausted d = false /\
          forall tg, seen_by_consumers d !! tg
                     = if decide (tg ∈ [ref_S; ref_T; ref_K] /\
                                  dt ∈ gen_dtypes world_objects tg)
                       then Some (-1) else None
      | None => forall tg, tg ∈ [ref_S; ref_T; ref_K] ->
                           dt ∉ gen_dtypes world_objects tg
      end.
Proof.
  apply (Scheduler_init_fresh_stores world_objects 7%nat 5
           [ref_S; ref_T; ref_K]).
  - reflexivity.
  - repeat constructor; by eexists.
  - lia.
Defined.

Lemma cleanup_cache_keeps_unseen_witness :
  exists d' m,
    dict_get "a" (stored_data (_cleanup_cache world_seen).1) = Some d' /\
    is_min_seen store_seen m /\
    sd_dtype d' = sd_dtype store_seen /\
    seen_by_consumers d' = seen_by_consumers store_seen /\
    last_contiguous d' = last_contiguous store_seen /\
    source_exhausted d' = source_exhausted store_seen /\
    forall k, stored d' !! k
              = if decide (m < k) then stored store_seen !! k else None.
Proof.
  destruct (cleanup_cache_keeps_unseen world_seen (_cleanup_cache world_seen).1)
    as (_ & _ & Hstores).
  - vm_compute. reflexivity.
  - apply Hstores. reflexivity.
Defined.

Lemma cleanup_cache_idempotent_witness :
  _cleanup_cache (_cleanup_cache world_seen).1
  = ((_cleanup_cache world_seen).1, Ok tt).
Proof.
  apply (cleanup_cache_idempotent world_seen). vm_compute. reflexivity.
Defined.

Lemma task_returns_exactly_witness :
  TaskGenerator_task ref_S None world_constructed
  = (set_gen_objs (<[ref_S := task_started gen_S]> (gen_objs world_constructed))
       world_constructed,
     Ok (task_made ref_S gen_S)).
Proof.
  apply (task_returns_exactly world_constructed ref_S None).
  exists gen_S. split; [reflexivity|]. split; [reflexivity|]. done.
Defined.

Lemma sequential_source_never_starts_witness :
  (exists w' e, TaskGenerator_task ref_L None world_L = (w', Raise e)) /\
  (exists w' e, TaskGenerator_task ref_L (Some []) world_L = (w', Raise e)).
Proof.
  split;
    apply (sequential_source_never_starts world_L ref_L gen_L); reflexivity.
Defined.

Lemma task_always_counts_witness :
  exists g',
    gen_objs (TaskGenerator_task ref_T (Some []) world_constructed).1 !! ref_T
    = Some g' /\
    chunk_i g' = chunk_i gen_T + 1.
Proof.
  apply (task_always_counts world_constructed ref_T gen_T (Some [])
           (TaskGenerator_task ref_T (Some []) world_constructed).1
           (TaskGenerator_task ref_T (Some []) world_constructed).2).
  - reflexivity.
  - vm_compute. reflexivity.
Defined.

Lemma task_twice_consecutive_witness :
  task_chunk_i (task_made ref_S (task_started gen_S))
  = task_chunk_i (task_made ref_S gen_S) + 1.
Proof.
  apply (task_twice_consecutive world_constructed ref_S None None
           (TaskGenerator_task ref_S None world_constructed).1
           (TaskGenerator_task ref_S None
              (TaskGenerator_task ref_S None world_constructed).1).1).
  - vm_compute. reflexivity.
  - vm_compute. reflexivity.
Defined.

Lemma exit_with_exception_always_raises_witness :
  exists w' e,
    exit_with_exception (Exception "boom") "" world_in_flight
    = (w', Raise e) /\
    (e = Exception "boom" \/ e = AttributeError) /\
    pending_tasks w' = pending_tasks world_in_flight /\
    threadpool w' = threadpool world_in_flight /\
    processpool w' = processpool world_in_flight /\
    stored_data w' = stored_data world_in_flight /\
    gen_objs w' = gen_objs world_in_flight /\
    forall tg', EvFinish tg' ∈ log w' ->
                EvFinish tg' ∈ log world_in_flight \/ tg' = ref_K.
Proof.
  apply (exit_with_exception_always_raises world_in_flight (Exception "boom")
           "" ref_K [ref_S; ref_T]).
  vm_compute. reflexivity.
Defined.


Lemma drain_keeps_running_tasks_witness :
  exists w',
    _receive_from_done_tasks world_two_in_flight = (w', Ok tt) /\
    pending_tasks w' = filter (fun t => task_done t = false)
                         (pending_tasks world_two_in_flight) /\
    gen_objs w' = gen_objs world_two_in_flight /\
    forall dt, option_Forall2 store_grows
                 (dict_get dt (stored_data world_two_in_flight))
                 (dict_get dt (stored_data w')).
Proof.
  apply (drain_keeps_running_tasks world_two_in_flight).
  apply Forall_cons_2; [|apply Forall_cons_2; [|apply Forall_nil_2]].
  - left. by eexists.
  - right. eexists. split; [reflexivity|]. split; [reflexivity|]. right.
    intros dt Hdt. apply list_elem_of_singleton in Hdt as ->.
    vm_compute. by eexists.
Defined.

Lemma drain_lands_completed_task_witness :
  exists w',
    _receive_from_done_tasks world_two_in_flight = (w', Ok tt) /\
    pending_tasks w' = [task_a 0 FRunning] /\
    gen_objs w' = gen_objs world_two_in_flight /\
    forall dt,
      dict_get dt (stored_data w')
      = if decide (["a"] <> [] /\ dt ∈ dict_keys [("a", PArray [20])])
        then landed_in 1 (PDict [("a", PArray [20])])
               <$> dict_get dt (stored_data world_two_in_flight)
        else dict_get dt (stored_data world_two_in_flight).
Proof.
  apply (drain_lands_completed_task world_two_in_flight [task_a 0 FRunning] []
           (task_a 1 (FFinished (Ok [("a", PArray [20])])))
           [("a", PArray [20])]).
  - reflexivity.
  - repeat constructor. by eexists.
  - constructor.
  - reflexivity.
  - done.
  - intros _ dt Hdt. apply list_elem_of_singleton in Hdt as ->.
    vm_compute. by eexists.
Defined.

Lemma drain_raises_on_failed_task_witness :
  exists w' e',
    _receive_from_done_tasks world_second_failed = (w', Raise e') /\
    (e' = Exception "boom" \/ e' = AttributeError) /\
    pending_tasks w' = pending_tasks world_second_failed /\
    threadpool w' = threadpool world_second_failed /\
    processpool w' = processpool world_second_failed /\
    stored_data w' = stored_data world_second_failed.
Proof.
  apply (drain_raises_on_failed_task world_second_failed [task_a 0 FRunning]
           [] (task_a 1 (FFinished (Raise (Exception "boom"))))
           (Exception "boom") ref_K [ref_S; ref_T]).
  - reflexivity.
  - repeat constructor. by eexists.
  - reflexivity.
  - vm_compute. reflexivity.
Defined.

Lemma get_new_task_returns_source_tasks_witness :
  source_task world_constructed (_get_new_task 1 world_constructed).1
    (task_made ref_S gen_S).
Proof.
  apply (get_new_task_returns_source_tasks 1 world_constructed).
  vm_compute. reflexivity.
Defined.

Lemma get_new_task_waits_until_overflow_witness :
  exists w',
    _get_new_task 2 world_W = (w', Raise RecursionError) /\
    log w' = (log world_W ++ concat (replicate 2 waiting_round))%list /\
    gen_objs w' = gen_objs world_W /\
    stored_data w' = stored_data world_W /\
    pending_tasks w' = [].
Proof.
  apply (get_new_task_waits_until_overflow 2 world_W ref_W []).
  - vm_compute. reflexivity.
  - repeat constructor. by eexists.
  - reflexivity.
Defined.

Lemma cleanup_after_init_is_idle_witness :
  _cleanup_cache (Scheduler_init 7%nat 5 world_objects).1
  = ((Scheduler_init 7%nat 5 world_objects).1, Ok tt).
Proof.
  apply (cleanup_after_init_is_idle world_objects 7%nat 5
           [ref_S; ref_T; ref_K]).
  - reflexivity.
  - repeat constructor; by eexists.
  - lia.
Defined.


Lemma init_without_workers_raises_witness :
  exists w',
    Scheduler_init 7%nat 0 world_objects = (w', Raise ValueError) /\
    max_workers w' = 0 /\
    task_generators w' = 7%nat /\
    list_objs w' !! 7%nat
    = Some (sort_with (gen_key world_objects) [ref_S; ref_T; ref_K]) /\
    pending_tasks w' = [] /\
    stored_data w' = stored_data world_objects /\
    threadpool w' = threadpool world_objects /\
    processpool w' = processpool world_objects /\
    gen_objs w' = gen_objs world_objects.
Proof.
  apply (init_without_workers_raises world_objects 7%nat 0
           [ref_S; ref_T; ref_K]).
  - reflexivity.
  - repeat constructor; by eexists.
  - lia.
Defined.


